(** * ml-ising2d: the lattice model of [lattice.py] and the writer of
    [ising_tools.py], embedded as executable definitions.

    Python integers are [Z].  NumPy arrays are lists read and written through
    checked accessors that follow NumPy's indexing rules (a negative index
    counts from the end, anything else out of range raises [IndexError]).
    Methods that mutate the object or the process-wide random stream are
    written in a state-and-exception monad over a [world].  Floating point and
    the [random] module are external to the repository: they are an interface
    ([Runtime]) that every theorem is proved for. *)

From Stdlib Require Import ZArith Lia QArith.
From stdpp Require Import base list strings gmap pretty.

Open Scope Z_scope.

(** ** Exceptions and results *)

Inductive exn : Type :=
| AttributeError (attr : string)
| NameError (name : string)
| UnboundLocalError (name : string)
| IndexError
| ValueError
| ZeroDivisionError.

Inductive result (A : Type) : Type :=
| Ok (a : A)
| Raise (e : exn).
Arguments Ok {A} a.
Arguments Raise {A} e.

Definition result_bind {A B} (r : result A) (k : A -> result B) : result B :=
  match r with
  | Ok a => k a
  | Raise e => Raise e
  end.

Notation "x <~ r ;; k" := (result_bind r (fun x => k))
  (at level 100, r at next level, right associativity).

Fixpoint foldM {A B} (f : A -> B -> result A) (xs : list B) (a : A) : result A :=
  match xs with
  | [] => Ok a
  | x :: xs' => a' <~ f a x ;; foldM f xs' a'
  end.

(** ** Python and NumPy primitives *)

(** [range(n)] *)
Definition range (n : Z) : list Z := map Z.of_nat (seq 0 (Z.to_nat n)).

(** [a % b] on Python integers: the sign follows the divisor, as [Z.modulo]. *)
Definition py_mod (a b : Z) : result Z :=
  if b =? 0 then Raise ZeroDivisionError else Ok (a mod b).

(** Position of index [i] in an axis of length [len]. *)
Definition np_index (len i : Z) : result nat :=
  if (0 <=? i) && (i <? len) then Ok (Z.to_nat i)
  else if (- len <=? i) && (i <? 0) then Ok (Z.to_nat (i + len))
  else Raise IndexError.

Definition np_get {A} (a : list A) (i : Z) : result A :=
  k <~ np_index (Z.of_nat (length a)) i ;;
  match a !! k with
  | Some x => Ok x
  | None => Raise IndexError
  end.

Definition np_set {A} (a : list A) (i : Z) (x : A) : result (list A) :=
  k <~ np_index (Z.of_nat (length a)) i ;;
  Ok (<[k := x]> a).

(** [np.zeros(n, dtype=np.int)] *)
Definition np_zeros (n : Z) : result (list Z) :=
  if n <? 0 then Raise ValueError else Ok (replicate (Z.to_nat n) 0).

(** [np.zeros((rows, cols), dtype=np.int)] *)
Definition np_zeros2 (rows cols : Z) : result (list (list Z)) :=
  if (rows <? 0) || (cols <? 0) then Raise ValueError
  else Ok (replicate (Z.to_nat rows) (replicate (Z.to_nat cols) 0)).

(** [a[i, j]] *)
Definition np_get2 (a : list (list Z)) (i j : Z) : result Z :=
  row <~ np_get a i ;; np_get row j.

(** [a[i, j] = x] *)
Definition np_set2 (a : list (list Z)) (i j x : Z) : result (list (list Z)) :=
  row <~ np_get a i ;;
  row' <~ np_set row j x ;;
  np_set a i row'.

(** ** The neighbour table ([Ising2D.__init__], the loop over sites) *)

(** One iteration of [for index in range(self.n_sites)]. *)
Definition neighbours_step (lattice_size n_sites : Z)
    (neighbours : list (list Z)) (index : Z) : result (list (list Z)) :=
  (* Neighbour to the right *)
  nb <~ np_set2 neighbours index 0 (index + 1) ;;
  col <~ py_mod index lattice_size ;;
  nb <~ (if col =? lattice_size - 1
         then np_set2 nb index 0 (index + 1 - lattice_size) else Ok nb) ;;
  (* Downwards neighbour *)
  nb <~ np_set2 nb index 1 (index + lattice_size) ;;
  nb <~ (if index >=? n_sites - lattice_size
         then np_set2 nb index 1 (index + lattice_size - n_sites) else Ok nb) ;;
  (* Neighbour to the left *)
  nb <~ np_set2 nb index 2 (index - 1) ;;
  col <~ py_mod index lattice_size ;;
  nb <~ (if col =? 0
         then np_set2 nb index 2 (index - 1 + lattice_size) else Ok nb) ;;
  (* Upwards neighbour *)
  nb <~ np_set2 nb index 3 (index - lattice_size) ;;
  if index <=? lattice_size - 1
  then np_set2 nb index 3 (index - lattice_size + n_sites) else Ok nb.

Definition build_neighbours (lattice_size n_sites : Z) : result (list (list Z)) :=
  zeros <~ np_zeros2 n_sites 4 ;;
  foldM (neighbours_step lattice_size n_sites) (range n_sites) zeros.

(** [self.n_spins], set only for the two known tags. *)
Definition n_spins_of (lattice_size : Z) (model : string) : option Z :=
  if String.eqb model "ising" then Some (lattice_size ^ 2)
  else if String.eqb model "gauge" then Some (2 * (lattice_size ^ 2))
  else None.

(** ** The neighbour rule in the words of the specification (section 4.1) *)

Module Spec.

Definition right (L i : Z) : Z := if i mod L =? L - 1 then i + 1 - L else i + 1.
Definition down (L i : Z) : Z := if i >=? L * L - L then i + L - L * L else i + L.
Definition left (L i : Z) : Z := if i mod L =? 0 then i - 1 + L else i - 1.
Definition up (L i : Z) : Z := if i <? L then i - L + L * L else i - L.

Definition row (L i : Z) : list Z := [right L i; down L i; left L i; up L i].

(** the neighbour in direction [d] (0 right, 1 down, 2 left, 3 up) *)
Definition neighbour (L i d : Z) : Z := nth (Z.to_nat d) (row L i) 0.

Definition zsum (l : list Z) : Z := foldr Z.add 0 l.

(** spin [i] of a configuration *)
Definition spin (s : list Z) (i : Z) : Z := nth (Z.to_nat i) s 0.

(** Ising energy, section 4.3: the sum over sites of the right and down bonds. *)
Definition ising_energy (L c : Z) (s : list Z) : Z :=
  zsum (map (fun i => - c * (spin s i * spin s (right L i) + spin s i * spin s (down L i)))
            (range (L * L))).

(** The sum over every site and all four of its neighbours: each bond is met
    from both of its ends. *)
Definition ising_all_neighbours (L : Z) (s : list Z) : Z :=
  zsum (map (fun i => zsum (map (fun d => spin s i * spin s (neighbour L i d)) (range 4)))
            (range (L * L))).

(** Product of the four links around the plaquette anchored at site [p]. *)
Definition plaquette (L : Z) (s : list Z) (p : Z) : Z :=
  spin s (2 * p) * spin s (2 * p + 1) * spin s (2 * down L p) * spin s (2 * right L p + 1).

(** Gauge energy, section 4.3. *)
Definition gauge_energy (L c : Z) (s : list Z) : Z :=
  zsum (map (fun p => - c * plaquette L s p) (range (L * L))).

(** The configuration with spin [k] alone negated. *)
Definition flip (s : list Z) (k : Z) : list Z := <[Z.to_nat k := - spin s k]> s.

(** The links read by the plaquette anchored at [p]. *)
Definition plaquette_links (L p : Z) : list Z :=
  [2 * p; 2 * p + 1; 2 * down L p; 2 * right L p + 1].

(** The two plaquettes bounded by link [k]: the one anchored at the site of
    the link, and the one above it (even [k]) or to its left (odd [k]). *)
Definition first_plaquette (k : Z) : Z := k / 2.
Definition second_plaquette (L k : Z) : Z :=
  if k mod 2 =? 0 then up L (k / 2) else left L (k / 2).

(** The energy change of flipping spin [i] of the Ising model, section 4.4. *)
Definition ising_deltaE (L c : Z) (s : list Z) (i : Z) : Z :=
  2 * c * spin s i
  * (spin s (right L i) + spin s (down L i) + spin s (left L i) + spin s (up L i)).

(** The whole neighbour table. *)
Definition table (L : Z) : list (list Z) := map (row L) (range (L * L)).

End Spec.

(** ** The runtime the program runs on

    Binary floating point ([float], NumPy's [sqrt], [log], [exp]) and the
    process-wide generator of the [random] module.  The program only combines
    these operations; what they compute is not part of the repository. *)

Class Runtime : Type := {
  float : Type;
  f_of_int : Z -> float;
  f_add : float -> float -> float;
  f_mul : float -> float -> float;
  f_div : float -> float -> float;
  f_ltb : float -> float -> bool;
  np_sqrt : float -> float;
  np_log : float -> float;
  np_exp : float -> float;
  rng : Type;
  (** [random.seed(a)]: the state reached from seed [a] *)
  rng_seed : Z -> rng;
  (** one draw of [random.randint(a, b)] for [a <= b] *)
  rng_randint : Z -> Z -> rng -> Z * rng;
  (** one draw of [random.random()] *)
  rng_random : rng -> float * rng
}.

(** [random.randint(a, b)] returns an integer between its bounds. *)
Definition randint_in_range `{Runtime} : Prop :=
  forall a b g, a <= b -> a <= fst (rng_randint a b g) <= b.

Section Model.
Context `{RT : Runtime}.

(** ** The object and the world *)

(** An instance of [Ising2D].  An attribute that [__init__] does not create
    is [None] until a method assigns it. *)
Record Ising2D : Type := mkIsing2D {
  lattice_size : Z;
  n_sites : Z;
  model : string;
  n_spins : option Z;
  coupling : Z;
  crit_temperature : float;
  neighbours : list (list Z);
  spins : option (list Z);
  energy : option Z;
  magnetization : option Z
}.

(** What a call can read and change: the generator of [random], the module's
    global names, the files on disk and the object itself. *)
Record world : Type := mkWorld {
  random_state : rng;
  globals : gmap string Z;
  files : gmap string string;
  self : Ising2D
}.

Definition with_spins (s : list Z) (m : Ising2D) : Ising2D :=
  mkIsing2D (lattice_size m) (n_sites m) (model m) (n_spins m) (coupling m)
    (crit_temperature m) (neighbours m) (Some s) (energy m) (magnetization m).

Definition with_energy (e : Z) (m : Ising2D) : Ising2D :=
  mkIsing2D (lattice_size m) (n_sites m) (model m) (n_spins m) (coupling m)
    (crit_temperature m) (neighbours m) (spins m) (Some e) (magnetization m).

Definition with_magnetization (x : Z) (m : Ising2D) : Ising2D :=
  mkIsing2D (lattice_size m) (n_sites m) (model m) (n_spins m) (coupling m)
    (crit_temperature m) (neighbours m) (spins m) (energy m) (Some x).

Definition with_self (m : Ising2D) (w : world) : world :=
  mkWorld (random_state w) (globals w) (files w) m.

Definition with_random_state (g : rng) (w : world) : world :=
  mkWorld g (globals w) (files w) (self w).

Definition with_files (fs : gmap string string) (w : world) : world :=
  mkWorld (random_state w) (globals w) fs (self w).

(** ** State and exceptions *)

Definition M (A : Type) : Type := world -> result A * world.

Definition ret {A} (a : A) : M A := fun w => (Ok a, w).

Definition raise {A} (e : exn) : M A := fun w => (Raise e, w).

Definition bind {A B} (m : M A) (k : A -> M B) : M B :=
  fun w =>
    match m w with
    | (Ok a, w') => k a w'
    | (Raise e, w') => (Raise e, w')
    end.

Definition lift {A} (r : result A) : M A := fun w => (r, w).

Notation "x <- m ;; k" := (bind m (fun x => k))
  (at level 100, m at next level, right associativity).
Notation "m ;; k" := (bind m (fun _ => k))
  (at level 100, right associativity).

(** [for x in xs: body] *)
Fixpoint for_each {A} (xs : list A) (body : A -> M unit) : M unit :=
  match xs with
  | [] => ret tt
  | x :: xs' => body x ;; for_each xs' body
  end.

(** [acc = a; for x in xs: acc = body(acc, x)] *)
Fixpoint for_fold {A B} (xs : list B) (body : A -> B -> M A) (a : A) : M A :=
  match xs with
  | [] => ret a
  | x :: xs' => a' <- body a x ;; for_fold xs' body a'
  end.

(** Reading [self.<name>]. *)
Definition attr {A} (name : string) (field : Ising2D -> option A) : M A :=
  fun w =>
    match field (self w) with
    | Some a => (Ok a, w)
    | None => (Raise (AttributeError name), w)
    end.

Definition field {A} (f : Ising2D -> A) : M A := fun w => (Ok (f (self w)), w).

Definition assign (f : Ising2D -> Ising2D) : M unit :=
  fun w => (Ok tt, with_self (f (self w)) w).

(** Reading a global name of the module. *)
Definition global (name : string) : M Z :=
  fun w =>
    match globals w !! name with
    | Some v => (Ok v, w)
    | None => (Raise (NameError name), w)
    end.

(** [random.seed(a)] *)
Definition random_seed (a : Z) : M unit :=
  fun w => (Ok tt, with_random_state (rng_seed a) w).

(** [random.randint(a, b)] *)
Definition random_randint (a b : Z) : M Z :=
  fun w =>
    if b <? a then (Raise ValueError, w)
    else let (r, g) := rng_randint a b (random_state w) in
         (Ok r, with_random_state g w).

(** [random.random()] *)
Definition random_random : M float :=
  fun w => let (u, g) := rng_random (random_state w) in (Ok u, with_random_state g w).

(** [self.spins[i]] *)
Definition spin_at (i : Z) : M Z :=
  s <- attr "spins" spins ;; lift (np_get s i).

(** [self.neighbours[i, j]] *)
Definition neighbour_at (i j : Z) : M Z :=
  nb <- field neighbours ;; lift (np_get2 nb i j).

(** ** [Ising2D.__init__] *)

Definition __init__ (lattice_size : Z) (coupling : Z) (model : string) : result Ising2D :=
  let n_sites := lattice_size ^ 2 in
  let n_spins := n_spins_of lattice_size model in
  let crit_temperature :=
    f_div (f_of_int 2)
          (f_mul (np_log (f_add (f_of_int 1) (np_sqrt (f_of_int 2)))) (f_of_int coupling)) in
  neighbours <~ build_neighbours lattice_size n_sites ;;
  Ok (mkIsing2D lattice_size n_sites model n_spins coupling crit_temperature
        neighbours None None None).

(** ** [Ising2D.high_T_spins] *)

(** [self.spins[index] = 2*random.randint(0, 1) - 1] *)
Definition high_T_spins_step (index : Z) : M unit :=
  r <- random_randint 0 1 ;;
  s <- attr "spins" spins ;;
  s' <- lift (np_set s index (2 * r - 1)) ;;
  assign (with_spins s').

Definition high_T_spins (seed : Z) : M unit :=
  random_seed seed ;;
  n <- attr "n_spins" n_spins ;;
  zeros <- lift (np_zeros n) ;;
  assign (with_spins zeros) ;;
  n <- attr "n_spins" n_spins ;;
  for_each (range n) high_T_spins_step.

(** ** [Ising2D.get_energy] *)

(** The plaquette term, written out three times in the source:
    [spins[2*p] * spins[2*p + 1] * spins[2*neighbours[p, 1]] * spins[2*neighbours[p, 0] + 1]] *)
Definition plaquette_product (p : Z) : M Z :=
  a <- spin_at (2 * p) ;;
  b <- spin_at (2 * p + 1) ;;
  d <- neighbour_at p 1 ;;
  c <- spin_at (2 * d) ;;
  r <- neighbour_at p 0 ;;
  e <- spin_at (2 * r + 1) ;;
  ret (a * b * c * e).

(** The body of the loop of the Ising branch, lines 93-94. *)
Definition get_energy_ising_step (index : Z) : M unit :=
  acc <- attr "energy" energy ;;
  c <- field coupling ;;
  a <- spin_at index ;;
  r <- neighbour_at index 0 ;;
  b <- spin_at r ;;
  a' <- spin_at index ;;
  d <- neighbour_at index 1 ;;
  b' <- spin_at d ;;
  assign (with_energy (acc + - c * (a * b + a' * b'))).

(** The body of the loop of the gauge branch, lines 97-99. *)
Definition get_energy_gauge_step (index : Z) : M unit :=
  acc <- attr "energy" energy ;;
  c <- field coupling ;;
  p <- plaquette_product index ;;
  assign (with_energy (acc + - c * p)).

Definition get_energy : M unit :=
  assign (with_energy 0) ;;
  tag <- field model ;;
  if String.eqb tag "ising" then
    n <- field n_sites ;;
    for_each (range n) get_energy_ising_step
  else if String.eqb tag "gauge" then
    n <- field n_sites ;;
    for_each (range n) get_energy_gauge_step
  else ret tt.

(** ** [Ising2D.get_magnetization] *)

Definition get_magnetization : M unit :=
  s <- attr "spins" spins ;;
  assign (with_magnetization (Spec.zsum s)).

(** ** [Ising2D.sweep] *)

(** The body of [for neigh in range(4)], line 129.  The name [site] is not
    a local of [sweep]: it is looked up among the globals of the module. *)
Definition ising_deltaE_step (deltaE neigh : Z) : M Z :=
  c <- field coupling ;;
  s <- attr "spins" spins ;;
  site <- global "site" ;;
  a <- lift (np_get s site) ;;
  site' <- global "site" ;;
  nb <- neighbour_at site' neigh ;;
  b <- spin_at nb ;;
  ret (deltaE + 2 * c * a * b).

(** The change in energy of the proposed move, lines 126-144.  [None] is the
    local [deltaE] left unbound when neither branch is taken. *)
Definition local_deltaE (spin_location : Z) : M (option Z) :=
  tag <- field model ;;
  if String.eqb tag "ising" then
    deltaE <- for_fold (range 4) ising_deltaE_step 0 ;;
    ret (Some deltaE)
  else if String.eqb tag "gauge" then
    let first_plaquette := spin_location / 2 in
    second_plaquette <-
      (if spin_location mod 2 =? 0
       then neighbour_at first_plaquette 3
       else neighbour_at first_plaquette 2) ;;
    c <- field coupling ;;
    p1 <- plaquette_product first_plaquette ;;
    p2 <- plaquette_product second_plaquette ;;
    ret (Some (2 * c * (p1 + p2)))
  else ret None.

(** [self.spins[spin_location] = -self.spins[spin_location]], line 147. *)
Definition flip_spin (spin_location : Z) : M unit :=
  v <- spin_at spin_location ;;
  s <- attr "spins" spins ;;
  s' <- lift (np_set s spin_location (- v)) ;;
  assign (with_spins s').

(** Flipping the spin, lines 146-147.  [or] does not evaluate its right
    operand when the left one holds. *)
Definition metropolis_flip (temperature : float) (spin_location : Z)
    (deltaE : option Z) : M unit :=
  dE <- match deltaE with
        | Some d => ret d
        | None => raise (UnboundLocalError "deltaE")
        end ;;
  accept <- (if dE <=? 0 then ret true
             else u <- random_random ;;
                  ret (f_ltb u (np_exp (f_div (f_of_int (- dE)) temperature)))) ;;
  if accept : bool then flip_spin spin_location else ret tt.

(** One iteration of the loop of [sweep]. *)
Definition sweep_trial (temperature : float) : M unit :=
  n <- attr "n_spins" n_spins ;;
  spin_location <- random_randint 0 (n - 1) ;;
  deltaE <- local_deltaE spin_location ;;
  metropolis_flip temperature spin_location deltaE.

Definition sweep (temperature : float) : M unit :=
  n <- attr "n_spins" n_spins ;;
  for_each (range n) (fun _ => sweep_trial temperature).

(** ** [ising_tools.train_test_configs] and [ising_tools.write_configs] *)

Definition newline : string := String (Ascii.ascii_of_nat 10) EmptyString.

(** [open(name, 'a')]: the file exists afterwards; the handle is its name. *)
Definition open_append (name : string) : M string :=
  fun w => (Ok name, with_files (<[name := default EmptyString (files w !! name)]> (files w)) w).

(** [f.write(text)] on a file opened for appending. *)
Definition file_write (name text : string) : M unit :=
  fun w => (Ok tt, with_files (<[name := default EmptyString (files w !! name) +:+ text]> (files w)) w).

(** The part of [train_test_configs] before its [yield]. *)
Definition train_test_configs (bins n_bins : Z) (train_frac : float) : M (string * string) :=
  if f_ltb (f_of_int bins) (f_mul train_frac (f_of_int n_bins)) then
    spin_confgs_file <- open_append "Xtrain.txt" ;;
    phases_file <- open_append "ytrain.txt" ;;
    ret (spin_confgs_file, phases_file)
  else
    spin_confgs_file <- open_append "Xtest.txt" ;;
    phases_file <- open_append "ytest.txt" ;;
    ret (spin_confgs_file, phases_file).

(** [write_configs(bins, n_bins, train_frac, temperature, spin_model)], where
    [spin_model] is the object of the world. *)
(** The body of the loop over the spins, lines 43-48. *)
Definition write_configs_step (flip : Z) (spin_confgs_file : string) (index : Z) : M unit :=
  v <- spin_at index ;;
  let current_spin := flip * v in
  let current_spin := if current_spin =? -1 then 0 else current_spin in
  file_write spin_confgs_file (pretty current_spin +:+ "  ").

Definition write_configs (bins n_bins : Z) (train_frac temperature : float) : M unit :=
  fs <- train_test_configs bins n_bins train_frac ;;
  r <- random_randint 0 1 ;;
  let flip := 2 * r - 1 in
  n <- attr "n_spins" n_spins ;;
  for_each (range n) (write_configs_step flip (fst fs)) ;;
  file_write (fst fs) newline ;;
  tc <- field crit_temperature ;;
  let phase := if f_ltb tc temperature then 1 else 0 in
  file_write (snd fs) (pretty phase +:+ " " +:+ newline).

(** ** Objects in use

    [same_lattice m0 m]: [m] is the object [m0] after some calls of its
    methods, which assign only [spins], [energy] and [magnetization]. *)
Definition same_lattice (m0 m : Ising2D) : Prop :=
  lattice_size m = lattice_size m0 /\ n_sites m = n_sites m0 /\
  model m = model m0 /\ n_spins m = n_spins m0 /\ coupling m = coupling m0 /\
  crit_temperature m = crit_temperature m0 /\ neighbours m = neighbours m0.

(** The spin array is [s] and has one entry per spin of the model. *)
Definition holds_spins (m : Ising2D) (s : list Z) : Prop :=
  spins m = Some s /\ n_spins m = Some (Z.of_nat (length s)).

(** A computation that leaves the world as it found it. *)
Definition read_only {A} (m : M A) : Prop := forall w, snd (m w) = w.

(** A computation that leaves the object as it found it. *)
Definition keeps_self {A} (m : M A) : Prop := forall w, self (snd (m w)) = self w.

(** The energy that [get_energy] stores when run in [w]. *)
Definition energy_after (w : world) : option Z := energy (self (snd (get_energy w))).

(** The world in which spin [k] alone has been negated. *)
Definition flipped (k : Z) (w : world) : world :=
  match spins (self w) with
  | Some s => with_self (with_spins (Spec.flip s k) (self w)) w
  | None => w
  end.

(** For the spin chosen at [k], the [deltaE] of [sweep] is the change of the
    energy of [get_energy] under the flip of that spin. *)
Definition deltaE_is_energy_change (k : Z) (w : world) : Prop :=
  exists dE e e',
    fst (local_deltaE k w) = Ok (Some dE) /\
    energy_after w = Some e /\ energy_after (flipped k w) = Some e' /\
    dE = e' - e.

(** The spins that [n] successive draws of [2*random.randint(0, 1) - 1]
    produce from generator state [g], and the state they leave. *)
Fixpoint draw_spins (n : nat) (g : rng) : list Z * rng :=
  match n with
  | O => ([], g)
  | S n' =>
      let (r, g') := rng_randint 0 1 g in
      let (rest, g'') := draw_spins n' g' in
      ((2 * r - 1) :: rest, g'')
  end.

End Model.

Arguments Ising2D {RT}.
Arguments world {RT}.

(** ** A runtime that computes

    Rationals stand in for binary floating point, with truncated series for
    [exp] and [log] and Newton's iteration for [sqrt]; draws come from a
    linear congruential generator.  It serves to run the model on explicit
    inputs; no theorem about the program depends on it. *)

Module Fixture.

Definition q_ltb (x y : Q) : bool := negb (Qle_bool y x).

Fixpoint newton_sqrt (steps : nat) (x y : Q) : Q :=
  match steps with
  | O => y
  | S n => newton_sqrt n x (Qred ((y + x / y) / (2 # 1))%Q)
  end.

Definition q_sqrt (x : Q) : Q := newton_sqrt 5 x (1 # 1)%Q.

(** [term] is [x^k / k!]; the sum runs over [steps] further terms. *)
Fixpoint exp_series (steps : nat) (k : positive) (x term acc : Q) : Q :=
  match steps with
  | O => acc
  | S n =>
      let term' := Qred (term * x / (Zpos k # 1))%Q in
      exp_series n (Pos.succ k) x term' (Qred (acc + term')%Q)
  end.

Definition q_exp (x : Q) : Q := exp_series 12 1 x (1 # 1)%Q (1 # 1)%Q.

(** [ln x = 2 * (y + y^3/3 + y^5/5 + ...)] with [y = (x - 1) / (x + 1)];
    [pow] is [y^k] for the odd [k]. *)
Fixpoint log_series (steps : nat) (k : positive) (y2 pow acc : Q) : Q :=
  match steps with
  | O => acc
  | S n =>
      let pow' := Qred (pow * y2)%Q in
      let k' := Pos.succ (Pos.succ k) in
      log_series n k' y2 pow' (Qred (acc + pow' / (Zpos k' # 1))%Q)
  end.

Definition q_log (x : Q) : Q :=
  let y := Qred ((x - (1 # 1)) / (x + (1 # 1)))%Q in
  Qred ((2 # 1) * log_series 6 1 (Qred (y * y)%Q) y y)%Q.

Definition lcg_modulus : Z := 2 ^ 31.

Definition lcg_next (g : Z) : Z := (1103515245 * g + 12345) mod lcg_modulus.

Definition lcg_seed (a : Z) : Z := a mod lcg_modulus.

Definition lcg_randint (a b g : Z) : Z * Z :=
  (a + (g / 65536) mod (b - a + 1), lcg_next g).

Definition lcg_random (g : Z) : Q * Z :=
  (Qmake g (Z.to_pos lcg_modulus), lcg_next g).

#[export] Instance runtime : Runtime := {|
  float := Q;
  f_of_int := inject_Z;
  f_add := Qplus;
  f_mul := Qmult;
  f_div := Qdiv;
  f_ltb := q_ltb;
  np_sqrt := q_sqrt;
  np_log := q_log;
  np_exp := q_exp;
  rng := Z;
  rng_seed := lcg_seed;
  rng_randint := lcg_randint;
  rng_random := lcg_random
|}.

(** The world in which a freshly constructed [m] lives: generator at seed 0,
    no global names, no files. *)
Definition fresh_world (m : Ising2D) : world := mkWorld (lcg_seed 0) ∅ ∅ m.

End Fixture.

(** ** Reference notions for the remaining behaviour of the two files *)

Module Ref.

(** Every entry is [+1] or [-1]. *)
Definition spin_valued (s : list Z) : Prop := Forall (fun x => x = 1 \/ x = -1) s.

(** The configuration with every spin negated. *)
Definition negate (s : list Z) : list Z := map Z.opp s.

(** The local energy change of the gauge model, section 4.4: twice the
    coupling times the two plaquettes bounded by link [k]. *)
Definition gauge_deltaE (L c : Z) (s : list Z) (k : Z) : Z :=
  2 * c * (Spec.plaquette L s (Spec.first_plaquette k)
           + Spec.plaquette L s (Spec.second_plaquette L k)).

(** The on-disk encoding of one spin after the sign flip: [-1] is written as
    [0], anything else as it is. *)
Definition encode (flip v : Z) : Z := if flip * v =? -1 then 0 else flip * v.

(** The text of one sample: every encoded spin followed by two blanks, then
    the end of the line. *)
Definition written_row (flip : Z) (s : list Z) : string :=
  foldr (fun v rest => (pretty (encode flip v) +:+ "  ") +:+ rest) EmptyString s.

(** The content of a file, empty when the file does not exist. *)
Definition content (fs : gmap string string) (name : string) : string :=
  default EmptyString (fs !! name).

End Ref.

Section Reference.
Context `{RT : Runtime}.

(** One Metropolis trial of the gauge model as a function of the
    configuration and the state of the generator, section 4.4. *)
Definition gauge_trial (L c : Z) (temperature : float) (st : list Z * rng) : list Z * rng :=
  let (s, g) := st in
  let (k, g1) := rng_randint 0 (2 * (L * L) - 1) g in
  let dE := Ref.gauge_deltaE L c s k in
  if dE <=? 0 then (Spec.flip s k, g1)
  else
    let (u, g2) := rng_random g1 in
    if f_ltb u (np_exp (f_div (f_of_int (- dE)) temperature))
    then (Spec.flip s k, g2) else (s, g2).

(** [n] trials in a row. *)
Fixpoint gauge_chain (n : nat) (L c : Z) (temperature : float)
    (st : list Z * rng) : list Z * rng :=
  match n with
  | O => st
  | S n' => gauge_chain n' L c temperature (gauge_trial L c temperature st)
  end.

(** [w'] differs from [w] at most in the spin array and in the state of
    the generator. *)
Definition same_but_spins_and_generator (w w' : world) : Prop :=
  globals w' = globals w /\ files w' = files w /\
  same_lattice (self w) (self w') /\
  energy (self w') = energy (self w) /\
  magnetization (self w') = magnetization (self w).

(** [w'] differs from [w] at most in the files. *)
Definition same_but_files (w w' : world) : Prop :=
  random_state w' = random_state w /\ globals w' = globals w /\ self w' = self w.

(** The name of the file that receives the samples and of the one that
    receives the phase labels, for measurement [bins] of [n_bins]. *)
Definition destination (bins n_bins : Z) (train_frac : float) : string * string :=
  if f_ltb (f_of_int bins) (f_mul train_frac (f_of_int n_bins))
  then ("Xtrain.txt", "ytrain.txt") else ("Xtest.txt", "ytest.txt").

End Reference.


(** * Properties *)

(** ** Ranges and checked array accesses *)

Lemma length_range (n : Z) : length (range n) = Z.to_nat n.
Proof. unfold range. rewrite length_map, length_seq. reflexivity. Qed.

Lemma range_snoc (k : nat) : range (Z.of_nat (S k)) = range (Z.of_nat k) ++ [Z.of_nat k].
Proof.
  unfold range. rewrite !Nat2Z.id, seq_S, map_app. reflexivity.
Qed.

Lemma elem_of_range (n i : Z) : i ∈ range n <-> 0 <= i < n.
Proof.
  unfold range. rewrite list_elem_of_In, in_map_iff. split.
  - intros (k & <- & Hk). apply in_seq in Hk. lia.
  - intros Hi. exists (Z.to_nat i). split; [lia|]. apply in_seq. lia.
Qed.

Lemma NoDup_range (n : Z) : NoDup (range n).
Proof.
  unfold range. apply NoDup_ListNoDup, Finite.Injective_map_NoDup.
  - intros a b Hab. lia.
  - apply seq_NoDup.
Qed.

Lemma np_index_ok (len i : Z) : 0 <= i < len -> np_index len i = Ok (Z.to_nat i).
Proof.
  intros Hi. unfold np_index.
  destruct (Z.leb_spec 0 i); [|lia]. destruct (Z.ltb_spec i len); [|lia]. reflexivity.
Qed.

Lemma np_get_ok {A} (a : list A) (i : Z) (x : A) :
  0 <= i -> a !! Z.to_nat i = Some x -> np_get a i = Ok x.
Proof.
  intros Hi Hx. unfold np_get. rewrite np_index_ok.
  - cbn [result_bind]. rewrite Hx. reflexivity.
  - apply lookup_lt_Some in Hx. lia.
Qed.

Lemma np_get_spin (s : list Z) (i : Z) :
  0 <= i < Z.of_nat (length s) -> np_get s i = Ok (Spec.spin s i).
Proof.
  intros Hi. destruct (lookup_lt_is_Some_2 s (Z.to_nat i)) as [x Hx]; [lia|].
  unfold Spec.spin. rewrite (nth_lookup_Some _ _ _ _ Hx). apply np_get_ok; [lia|exact Hx].
Qed.

Lemma np_set_ok {A} (a : list A) (i : Z) (x : A) :
  0 <= i < Z.of_nat (length a) -> np_set a i x = Ok (<[Z.to_nat i := x]> a).
Proof. intros Hi. unfold np_set. rewrite np_index_ok by exact Hi. reflexivity. Qed.

Lemma np_set2_ok (a : list (list Z)) (i j x : Z) (row : list Z) :
  0 <= i -> a !! Z.to_nat i = Some row -> 0 <= j < Z.of_nat (length row) ->
  np_set2 a i j x = Ok (<[Z.to_nat i := <[Z.to_nat j := x]> row]> a).
Proof.
  intros Hi Hrow Hj. unfold np_set2. rewrite (np_get_ok a i row Hi Hrow). cbn [result_bind].
  rewrite np_set_ok by exact Hj. cbn [result_bind]. apply np_set_ok.
  apply lookup_lt_Some in Hrow. lia.
Qed.

Lemma foldM_app {A B} (f : A -> B -> result A) (xs ys : list B) (a : A) :
  foldM f (xs ++ ys) a = (a' <~ foldM f xs a ;; foldM f ys a').
Proof.
  revert a. induction xs as [|x xs IH]; intros a; cbn [foldM app result_bind]; [reflexivity|].
  destruct (f a x); cbn [result_bind]; [apply IH | reflexivity].
Qed.

(** ** The neighbour table is the table of the specification *)

Section RowWrites.
Variables (t : list (list Z)) (i x a b c d : Z).
Hypothesis Hi : 0 <= i.
Hypothesis Hrow : t !! Z.to_nat i = Some [a; b; c; d].

Lemma write_right : np_set2 t i 0 x = Ok (<[Z.to_nat i := [x; b; c; d]]> t).
Proof. rewrite (np_set2_ok t i 0 x _ Hi Hrow) by (cbn [length]; lia). reflexivity. Qed.

Lemma write_down : np_set2 t i 1 x = Ok (<[Z.to_nat i := [a; x; c; d]]> t).
Proof. rewrite (np_set2_ok t i 1 x _ Hi Hrow) by (cbn [length]; lia). reflexivity. Qed.

Lemma write_left : np_set2 t i 2 x = Ok (<[Z.to_nat i := [a; b; x; d]]> t).
Proof. rewrite (np_set2_ok t i 2 x _ Hi Hrow) by (cbn [length]; lia). reflexivity. Qed.

Lemma write_up : np_set2 t i 3 x = Ok (<[Z.to_nat i := [a; b; c; x]]> t).
Proof. rewrite (np_set2_ok t i 3 x _ Hi Hrow) by (cbn [length]; lia). reflexivity. Qed.

End RowWrites.

(** Rewrites the next write [nb[i, j] = x] of the goal, given the row that
    the table holds at [i]. *)
Ltac table_write Hi :=
  match goal with
  | |- context [np_set2 ?t ?i ?j ?x] =>
      let H := fresh "Hrow" in
      eassert (H : t !! Z.to_nat i = Some _)
        by (first [eassumption | apply list_lookup_insert_eq; assumption]);
      first [ rewrite (write_right t i x _ _ _ _ Hi H)
            | rewrite (write_down t i x _ _ _ _ Hi H)
            | rewrite (write_left t i x _ _ _ _ Hi H)
            | rewrite (write_up t i x _ _ _ _ Hi H) ];
      clear H; cbn [result_bind]; rewrite ?list_insert_insert_eq
  end.

(** One iteration fills row [index] and touches no other row. *)
Lemma neighbours_step_row (L : Z) (tbl : list (list Z)) (i : Z) (row : list Z) :
  L <> 0 -> 0 <= i -> tbl !! Z.to_nat i = Some row -> length row = 4%nat ->
  neighbours_step L (L * L) tbl i = Ok (<[Z.to_nat i := Spec.row L i]> tbl).
Proof.
  intros HL Hi Hrow Hlen.
  destruct row as [|a [|b [|c [|d [|]]]]]; try discriminate.
  assert (Hk : (Z.to_nat i < length tbl)%nat) by (eapply lookup_lt_Some; eassumption).
  unfold neighbours_step, py_mod, Spec.row, Spec.right, Spec.down, Spec.left, Spec.up.
  destruct (Z.eqb_spec L 0) as [|_]; [contradiction|].
  table_write Hi.
  destruct (i mod L =? L - 1); cbn [result_bind]; [table_write Hi|];
  (table_write Hi;
   destruct (i >=? L * L - L); cbn [result_bind]; [table_write Hi|];
   (table_write Hi;
    destruct (i mod L =? 0); cbn [result_bind]; [table_write Hi|];
    (table_write Hi;
     destruct (Z.leb_spec i (L - 1)); destruct (Z.ltb_spec i L); try lia;
     [table_write Hi|]; reflexivity))).
Qed.

(** After the first [k] iterations the first [k] rows are final and the
    others are still zero. *)
Lemma build_neighbours_prefix (L : Z) (k : nat) :
  L <> 0 -> (k <= Z.to_nat (L * L))%nat ->
  foldM (neighbours_step L (L * L)) (range (Z.of_nat k))
        (replicate (Z.to_nat (L * L)) [0; 0; 0; 0])
  = Ok (map (Spec.row L) (range (Z.of_nat k))
        ++ replicate (Z.to_nat (L * L) - k) [0; 0; 0; 0]).
Proof.
  intros HL. induction k as [|k IH]; intros Hk.
  - cbn [range Z.to_nat Z.of_nat seq map foldM app]. now rewrite Nat.sub_0_r.
  - rewrite range_snoc, foldM_app, IH by lia. cbn [result_bind foldM].
    set (done := map (Spec.row L) (range (Z.of_nat k))).
    assert (Hlen : length done = k)
      by (subst done; rewrite length_map, length_range; lia).
    replace (Z.to_nat (L * L) - k)%nat with (S (Z.to_nat (L * L) - S k)) by lia.
    cbn [replicate].
    rewrite (neighbours_step_row L _ (Z.of_nat k) [0; 0; 0; 0]); try lia; try reflexivity.
    + cbn [result_bind]. f_equal. rewrite Nat2Z.id.
      replace k with (length done + 0)%nat at 1 by lia.
      rewrite insert_app_r. cbn [insert list_insert]. rewrite map_app, <- app_assoc.
      reflexivity.
    + rewrite Nat2Z.id, lookup_app_r by lia. now rewrite Hlen, Nat.sub_diag.
Qed.

Lemma build_neighbours_spec (L : Z) :
  build_neighbours L (L * L) = Ok (map (Spec.row L) (range (L * L))).
Proof.
  unfold build_neighbours, np_zeros2.
  destruct (Z.ltb_spec (L * L) 0) as [Hneg|_]; [nia|]. cbn [orb Z.ltb Z.compare result_bind].
  destruct (Z.eq_dec L 0) as [->|HL]; [reflexivity|].
  change (replicate (Z.to_nat 4) 0) with [0; 0; 0; 0].
  replace (L * L) with (Z.of_nat (Z.to_nat (L * L))) at 2 4 by nia.
  rewrite build_neighbours_prefix, Nat.sub_diag by (try assumption; lia).
  cbn [replicate]. now rewrite app_nil_r.
Qed.

Lemma lookup_range (n i : Z) : 0 <= i < n -> range n !! Z.to_nat i = Some i.
Proof.
  intros Hi. unfold range. rewrite <- (list_fmap_id (seq 0 (Z.to_nat n))) at 1.
  change (map Z.of_nat (id <$> seq 0 (Z.to_nat n))) with (Z.of_nat <$> (id <$> seq 0 (Z.to_nat n))).
  rewrite list_fmap_id, list_lookup_fmap, lookup_seq_lt by lia.
  cbn [fmap option_fmap option_map Nat.add]. f_equal. lia.
Qed.

(** Row [i] of the table of [build_neighbours]. *)
Lemma build_neighbours_row (L : Z) (nb : list (list Z)) (i : Z) :
  build_neighbours L (L * L) = Ok nb -> 0 <= i < L * L ->
  nb !! Z.to_nat i = Some (Spec.row L i).
Proof.
  rewrite build_neighbours_spec. intros [= <-] Hi.
  change (map (Spec.row L) (range (L * L))) with (Spec.row L <$> range (L * L)).
  now rewrite list_lookup_fmap, lookup_range.
Qed.

(** ** Arithmetic of the periodic neighbour rule *)

Ltac split_tests :=
  repeat match goal with
  | |- context [?a =? ?b] => destruct (Z.eqb_spec a b)
  | |- context [?a <? ?b] => destruct (Z.ltb_spec a b)
  | |- context [?a >=? ?b] => rewrite (Z.geb_leb a b); destruct (Z.leb_spec b a)
  | H : context [?a =? ?b] |- _ => destruct (Z.eqb_spec a b)
  | H : context [?a <? ?b] |- _ => destruct (Z.ltb_spec a b)
  | H : context [?a >=? ?b] |- _ => rewrite (Z.geb_leb a b) in H; destruct (Z.leb_spec b a)
  end.

Section Torus.
Variable L : Z.
Hypothesis HL : 0 < L.

Lemma size_le_sites : L <= L * L.
Proof. nia. Qed.

(** Row and column of a site. *)
Lemma site_coords (i : Z) :
  0 <= i < L * L -> exists q r, i = L * q + r /\ 0 <= q < L /\ 0 <= r < L.
Proof.
  intros Hi. exists (i / L), (i mod L).
  pose proof (Z.div_mod i L ltac:(lia)).
  pose proof (Z.mod_pos_bound i L HL).
  assert (i / L < L) by (apply Z.div_lt_upper_bound; lia).
  assert (0 <= i / L) by (apply Z.div_pos; lia).
  lia.
Qed.

Lemma col_of_coords (q r : Z) : 0 <= r < L -> (L * q + r) mod L = r.
Proof.
  intros Hr. rewrite Z.add_comm, Z.mul_comm, Z.mod_add by lia. now apply Z.mod_small.
Qed.

Lemma right_coords (q r : Z) :
  0 <= r < L -> Spec.right L (L * q + r) = L * q + (if r =? L - 1 then 0 else r + 1).
Proof. intros Hr. unfold Spec.right. rewrite col_of_coords by lia. split_tests; lia. Qed.

Lemma left_coords (q r : Z) :
  0 <= r < L -> Spec.left L (L * q + r) = L * q + (if r =? 0 then L - 1 else r - 1).
Proof. intros Hr. unfold Spec.left. rewrite col_of_coords by lia. split_tests; lia. Qed.

Section Site.
Variable i : Z.
Hypothesis Hi : 0 <= i < L * L.

Lemma right_range : 0 <= Spec.right L i < L * L.
Proof.
  destruct (site_coords i Hi) as (q & r & -> & Hq & Hr).
  rewrite right_coords by lia. split_tests; nia.
Qed.

Lemma left_range : 0 <= Spec.left L i < L * L.
Proof.
  destruct (site_coords i Hi) as (q & r & -> & Hq & Hr).
  rewrite left_coords by lia. split_tests; nia.
Qed.

Lemma down_range : 0 <= Spec.down L i < L * L.
Proof. pose proof size_le_sites. unfold Spec.down. split_tests; lia. Qed.

Lemma up_range : 0 <= Spec.up L i < L * L.
Proof. pose proof size_le_sites. unfold Spec.up. split_tests; lia. Qed.

Lemma left_right : Spec.left L (Spec.right L i) = i.
Proof.
  destruct (site_coords i Hi) as (q & r & -> & Hq & Hr).
  rewrite right_coords by lia. rewrite left_coords by (split_tests; lia). split_tests; lia.
Qed.

Lemma right_left : Spec.right L (Spec.left L i) = i.
Proof.
  destruct (site_coords i Hi) as (q & r & -> & Hq & Hr).
  rewrite left_coords by lia. rewrite right_coords by (split_tests; lia). split_tests; lia.
Qed.

Lemma up_down : Spec.up L (Spec.down L i) = i.
Proof. pose proof size_le_sites. unfold Spec.up, Spec.down. split_tests; lia. Qed.

Lemma down_up : Spec.down L (Spec.up L i) = i.
Proof. pose proof size_le_sites. unfold Spec.up, Spec.down. split_tests; lia. Qed.

End Site.

Lemma down_eq_iff (p q : Z) :
  0 <= p < L * L -> 0 <= q < L * L -> Spec.down L p = q <-> p = Spec.up L q.
Proof.
  intros Hp Hq. split; intros H.
  - rewrite <- H. symmetry. now apply up_down.
  - rewrite H. now apply down_up.
Qed.

Lemma right_eq_iff (p q : Z) :
  0 <= p < L * L -> 0 <= q < L * L -> Spec.right L p = q <-> p = Spec.left L q.
Proof.
  intros Hp Hq. split; intros H.
  - rewrite <- H. symmetry. now apply left_right.
  - rewrite H. now apply right_left.
Qed.

End Torus.

(** On a lattice with at least two rows and columns no site is its own
    neighbour. *)
Lemma up_neq (L i : Z) : 2 <= L -> 0 <= i < L * L -> Spec.up L i <> i.
Proof. intros H2 Hi. unfold Spec.up. split_tests; nia. Qed.

Lemma left_neq (L i : Z) : 2 <= L -> 0 <= i < L * L -> Spec.left L i <> i.
Proof.
  intros H2 Hi. destruct (site_coords L ltac:(lia) i Hi) as (q & r & -> & Hq & Hr).
  rewrite left_coords by lia. split_tests; lia.
Qed.

(** ** Running the primitives of the monad *)

Section Run.
Context `{RT : Runtime}.

Lemma bind_ok {A B} (m : M A) (k : A -> M B) (w w' : world) (a : A) :
  m w = (Ok a, w') -> bind m k w = k a w'.
Proof. intros H. unfold bind. now rewrite H. Qed.

Lemma bind_raise {A B} (m : M A) (k : A -> M B) (w w' : world) (e : exn) :
  m w = (Raise e, w') -> bind m k w = (Raise e, w').
Proof. intros H. unfold bind. now rewrite H. Qed.

Lemma attr_ok {A} (name : string) (f : Ising2D -> option A) (w : world) (a : A) :
  f (self w) = Some a -> attr name f w = (Ok a, w).
Proof. intros H. unfold attr. now rewrite H. Qed.

Lemma spin_at_ok (w : world) (s : list Z) (i : Z) :
  spins (self w) = Some s -> 0 <= i < Z.of_nat (length s) ->
  spin_at i w = (Ok (Spec.spin s i), w).
Proof.
  intros Hs Hi. unfold spin_at. rewrite (bind_ok _ _ _ _ _ (attr_ok _ _ _ _ Hs)).
  unfold lift. now rewrite np_get_spin.
Qed.

Lemma np_get2_table (L i d : Z) :
  0 <= i < L * L -> 0 <= d < 4 ->
  np_get2 (Spec.table L) i d = Ok (Spec.neighbour L i d).
Proof.
  intros Hi Hd. unfold np_get2, Spec.table.
  erewrite np_get_ok; [| lia |].
  2: { change (map (Spec.row L) (range (L * L))) with (Spec.row L <$> range (L * L)).
       rewrite list_lookup_fmap, lookup_range by lia. reflexivity. }
  cbn [result_bind]. unfold Spec.neighbour.
  assert (d = 0 \/ d = 1 \/ d = 2 \/ d = 3) as [-> | [-> | [-> | ->]]] by lia; reflexivity.
Qed.

Lemma neighbour_at_ok (w : world) (L i d : Z) :
  neighbours (self w) = Spec.table L -> 0 <= i < L * L -> 0 <= d < 4 ->
  neighbour_at i d w = (Ok (Spec.neighbour L i d), w).
Proof.
  intros Hnb Hi Hd. unfold neighbour_at, bind, field, lift.
  now rewrite Hnb, np_get2_table.
Qed.

(** [__init__] always returns, with the table of the specification. *)
Lemma init_ok (L c : Z) (tag : string) :
  __init__ L c tag
  = Ok (mkIsing2D L (L * L) tag (n_spins_of L tag) c
          (f_div (f_of_int 2)
             (f_mul (np_log (f_add (f_of_int 1) (np_sqrt (f_of_int 2)))) (f_of_int c)))
          (Spec.table L) None None None).
Proof.
  unfold __init__. rewrite Z.pow_2_r, build_neighbours_spec. reflexivity.
Qed.

Lemma init_inv (L c : Z) (tag : string) (m : Ising2D) :
  __init__ L c tag = Ok m ->
  lattice_size m = L /\ n_sites m = L * L /\ model m = tag /\
  n_spins m = n_spins_of L tag /\ coupling m = c /\ neighbours m = Spec.table L /\
  spins m = None.
Proof. rewrite init_ok. intros [= <-]. cbn. auto 10. Qed.

End Run.

(** ** The neighbour table (C5, C6) *)

Section NeighbourTable.
Context `{RT : Runtime}.

Lemma neighbour_cases (L i : Z) :
  Spec.neighbour L i 0 = Spec.right L i /\ Spec.neighbour L i 1 = Spec.down L i /\
  Spec.neighbour L i 2 = Spec.left L i /\ Spec.neighbour L i 3 = Spec.up L i.
Proof. repeat split. Qed.

Lemma table_entries_in_range (L : Z) :
  0 < L ->
  Forall (fun row => length row = 4%nat /\ Forall (fun v => 0 <= v < L * L) row)
         (Spec.table L).
Proof.
  intros HL. unfold Spec.table. apply List.Forall_map, List.Forall_forall.
  intros i Hi. apply list_elem_of_In, elem_of_range in Hi. split; [reflexivity|].
  unfold Spec.row. repeat constructor.
  - apply right_range; assumption.
  - apply right_range; assumption.
  - apply down_range; assumption.
  - apply down_range; assumption.
  - apply left_range; assumption.
  - apply left_range; assumption.
  - apply up_range; assumption.
  - apply up_range; assumption.
Qed.

(** C5. For a lattice of linear size [L > 0], [__init__] returns an object
    whose neighbour table holds, for every site [i]: right [i+1], or [i+1-L]
    in the last column; down [i+L], or [i+L-n_sites] in the last row; left
    [i-1], or [i-1+L] in the first column; up [i-L], or [i-L+n_sites] in the
    first row.  The left neighbour of site [0] is [L-1] and the right
    neighbour of site [L-1] is [0]. *)
Theorem neighbour_table_entries (L c : Z) (tag : string) :
  0 < L ->
  exists m, __init__ L c tag = Ok m /\ n_sites m = L * L /\
    (forall i, 0 <= i < n_sites m ->
       np_get2 (neighbours m) i 0 = Ok (if i mod L =? L - 1 then i + 1 - L else i + 1) /\
       np_get2 (neighbours m) i 1
         = Ok (if i >=? n_sites m - L then i + L - n_sites m else i + L) /\
       np_get2 (neighbours m) i 2 = Ok (if i mod L =? 0 then i - 1 + L else i - 1) /\
       np_get2 (neighbours m) i 3 = Ok (if i <? L then i - L + n_sites m else i - L)) /\
    np_get2 (neighbours m) 0 2 = Ok (L - 1) /\
    np_get2 (neighbours m) (L - 1) 0 = Ok 0.
Proof.
  intros HL. eexists. split; [apply init_ok|]. cbn [n_sites neighbours].
  split; [reflexivity|]. split; [|split].
  - intros i Hi. rewrite !np_get2_table by lia. repeat split.
  - rewrite np_get2_table by nia. f_equal.
    change (Spec.neighbour L 0 2) with (Spec.left L 0). unfold Spec.left.
    rewrite Z.mod_0_l by lia. rewrite Z.eqb_refl. lia.
  - rewrite np_get2_table by nia. f_equal.
    change (Spec.neighbour L (L - 1) 0) with (Spec.right L (L - 1)). unfold Spec.right.
    rewrite Z.mod_small by lia. rewrite Z.eqb_refl. lia.
Qed.

(** C6. For a lattice of linear size [L > 0] the table has one row of four
    entries per site, every entry is a site index in [[0, n_sites)], and
    going right then left, left then right, down then up, or up then down
    from any site leads back to it. *)
Theorem neighbour_table_round_trips (L c : Z) (tag : string) :
  0 < L ->
  exists m, __init__ L c tag = Ok m /\
    length (neighbours m) = Z.to_nat (n_sites m) /\
    Forall (fun row => length row = 4%nat /\ Forall (fun v => 0 <= v < n_sites m) row)
           (neighbours m) /\
    forall i, 0 <= i < n_sites m ->
      exists r d l u,
        np_get2 (neighbours m) i 0 = Ok r /\ np_get2 (neighbours m) i 1 = Ok d /\
        np_get2 (neighbours m) i 2 = Ok l /\ np_get2 (neighbours m) i 3 = Ok u /\
        np_get2 (neighbours m) r 2 = Ok i /\ np_get2 (neighbours m) l 0 = Ok i /\
        np_get2 (neighbours m) d 3 = Ok i /\ np_get2 (neighbours m) u 1 = Ok i.
Proof.
  intros HL. eexists. split; [apply init_ok|]. cbn [n_sites neighbours].
  split; [|split].
  - unfold Spec.table. now rewrite length_map, length_range.
  - now apply table_entries_in_range.
  - intros i Hi.
    exists (Spec.right L i), (Spec.down L i), (Spec.left L i), (Spec.up L i).
    pose proof (right_range L HL i Hi). pose proof (down_range L HL i Hi).
    pose proof (left_range L HL i Hi). pose proof (up_range L HL i Hi).
    rewrite !np_get2_table by lia.
    destruct (neighbour_cases L i) as (-> & -> & -> & ->).
    change (Spec.neighbour L (Spec.right L i) 2) with (Spec.left L (Spec.right L i)).
    change (Spec.neighbour L (Spec.left L i) 0) with (Spec.right L (Spec.left L i)).
    change (Spec.neighbour L (Spec.down L i) 3) with (Spec.up L (Spec.down L i)).
    change (Spec.neighbour L (Spec.up L i) 1) with (Spec.down L (Spec.up L i)).
    rewrite left_right, right_left, up_down, down_up by assumption.
    repeat split.
Qed.

End NeighbourTable.

(** ** Sums *)

Lemma zsum_app (l1 l2 : list Z) : Spec.zsum (l1 ++ l2) = Spec.zsum l1 + Spec.zsum l2.
Proof. unfold Spec.zsum. induction l1 as [|x l1 IH]; cbn [app foldr]; lia. Qed.

Lemma zsum_map_ext {A} (f g : A -> Z) (l : list A) :
  (forall x, x ∈ l -> f x = g x) -> Spec.zsum (map f l) = Spec.zsum (map g l).
Proof.
  unfold Spec.zsum. induction l as [|x l IH]; intros H; cbn [map foldr]; [reflexivity|].
  rewrite H by constructor. rewrite IH; [reflexivity|]. intros y Hy. apply H. now constructor.
Qed.

Lemma zsum_map_add {A} (f g : A -> Z) (l : list A) :
  Spec.zsum (map (fun x => f x + g x) l) = Spec.zsum (map f l) + Spec.zsum (map g l).
Proof. unfold Spec.zsum. induction l as [|x l IH]; cbn [map foldr]; lia. Qed.

Lemma zsum_map_scale {A} (c : Z) (f : A -> Z) (l : list A) :
  Spec.zsum (map (fun x => c * f x) l) = c * Spec.zsum (map f l).
Proof. unfold Spec.zsum. induction l as [|x l IH]; cbn [map foldr]; lia. Qed.

Lemma zsum_Permutation (l1 l2 : list Z) : l1 ≡ₚ l2 -> Spec.zsum l1 = Spec.zsum l2.
Proof. unfold Spec.zsum. induction 1; cbn [foldr]; lia. Qed.

(** ** [get_energy] *)

Section Energy.
Context `{RT : Runtime}.

Lemma field_ok {A} (f : Ising2D -> A) (w : world) : field f w = (Ok (f (self w)), w).
Proof. reflexivity. Qed.

Section Steps.
Variables (L : Z) (w : world) (s : list Z) (acc i : Z).
Hypothesis HL : 0 < L.
Hypothesis Hnb : neighbours (self w) = Spec.table L.
Hypothesis Hs : spins (self w) = Some s.
Hypothesis Hacc : energy (self w) = Some acc.
Hypothesis Hi : 0 <= i < L * L.

Lemma get_energy_ising_step_ok :
  Z.of_nat (length s) = L * L ->
  get_energy_ising_step i w
  = (Ok tt, with_self (with_energy
        (acc + - coupling (self w)
               * (Spec.spin s i * Spec.spin s (Spec.right L i)
                  + Spec.spin s i * Spec.spin s (Spec.down L i))) (self w)) w).
Proof.
  intros Hlen. unfold get_energy_ising_step.
  pose proof (right_range L HL i Hi). pose proof (down_range L HL i Hi).
  rewrite (bind_ok _ _ _ _ _ (attr_ok _ _ _ _ Hacc)).
  rewrite (bind_ok _ _ _ _ _ (field_ok _ _)).
  rewrite (bind_ok _ _ _ _ _ (spin_at_ok w s i Hs ltac:(lia))).
  rewrite (bind_ok _ _ _ _ _ (neighbour_at_ok w L i 0 Hnb Hi ltac:(lia))).
  change (Spec.neighbour L i 0) with (Spec.right L i).
  rewrite (bind_ok _ _ _ _ _ (spin_at_ok w s (Spec.right L i) Hs ltac:(lia))).
  rewrite (bind_ok _ _ _ _ _ (spin_at_ok w s i Hs ltac:(lia))).
  rewrite (bind_ok _ _ _ _ _ (neighbour_at_ok w L i 1 Hnb Hi ltac:(lia))).
  change (Spec.neighbour L i 1) with (Spec.down L i).
  rewrite (bind_ok _ _ _ _ _ (spin_at_ok w s (Spec.down L i) Hs ltac:(lia))).
  reflexivity.
Qed.

Lemma plaquette_product_ok (p : Z) :
  Z.of_nat (length s) = 2 * (L * L) -> 0 <= p < L * L ->
  plaquette_product p w = (Ok (Spec.plaquette L s p), w).
Proof.
  intros Hlen Hp. unfold plaquette_product.
  pose proof (right_range L HL p Hp). pose proof (down_range L HL p Hp).
  rewrite (bind_ok _ _ _ _ _ (spin_at_ok w s (2 * p) Hs ltac:(lia))).
  rewrite (bind_ok _ _ _ _ _ (spin_at_ok w s (2 * p + 1) Hs ltac:(lia))).
  rewrite (bind_ok _ _ _ _ _ (neighbour_at_ok w L p 1 Hnb Hp ltac:(lia))).
  change (Spec.neighbour L p 1) with (Spec.down L p).
  rewrite (bind_ok _ _ _ _ _ (spin_at_ok w s (2 * Spec.down L p) Hs ltac:(lia))).
  rewrite (bind_ok _ _ _ _ _ (neighbour_at_ok w L p 0 Hnb Hp ltac:(lia))).
  change (Spec.neighbour L p 0) with (Spec.right L p).
  rewrite (bind_ok _ _ _ _ _ (spin_at_ok w s (2 * Spec.right L p + 1) Hs ltac:(lia))).
  reflexivity.
Qed.

Lemma get_energy_gauge_step_ok :
  Z.of_nat (length s) = 2 * (L * L) ->
  get_energy_gauge_step i w
  = (Ok tt, with_self (with_energy
        (acc + - coupling (self w) * Spec.plaquette L s i) (self w)) w).
Proof.
  intros Hlen. unfold get_energy_gauge_step.
  rewrite (bind_ok _ _ _ _ _ (attr_ok _ _ _ _ Hacc)).
  rewrite (bind_ok _ _ _ _ _ (field_ok _ _)).
  rewrite (bind_ok _ _ _ _ _ (plaquette_product_ok i Hlen Hi)).
  reflexivity.
Qed.

End Steps.

(** A loop that adds [term x] to [self.energy] for each [x]. *)
Lemma energy_loop (body : Z -> M unit) (term : Z -> Z) (P : Ising2D -> Prop) (xs : list Z) :
  (forall m e, P m -> P (with_energy e m)) ->
  (forall w acc x, x ∈ xs -> P (self w) -> energy (self w) = Some acc ->
     body x w = (Ok tt, with_self (with_energy (acc + term x) (self w)) w)) ->
  forall w acc, P (self w) -> energy (self w) = Some acc ->
    for_each xs body w
    = (Ok tt, with_self (with_energy (acc + Spec.zsum (map term xs)) (self w)) w).
Proof.
  intros HP. induction xs as [|x xs IH]; intros Hbody w acc Hw Hacc.
  - cbn [for_each map]. unfold ret, Spec.zsum. cbn [foldr]. rewrite Z.add_0_r.
    destruct w as [g gl fs m]. destruct m. cbn in Hacc. subst. reflexivity.
  - cbn [for_each map]. rewrite (bind_ok _ _ _ _ _ (Hbody w acc x ltac:(constructor) Hw Hacc)).
    rewrite (IH (fun w acc y Hy => Hbody w acc y ltac:(now constructor))
                _ (acc + term x)); [| apply HP; exact Hw | reflexivity ].
    unfold Spec.zsum. cbn [foldr]. f_equal. unfold with_self, with_energy. cbn.
    f_equal. f_equal. f_equal. lia.
Qed.

End Energy.

Section EnergyResults.
Context `{RT : Runtime}.

Lemma assign_ok (f : Ising2D -> Ising2D) (w : world) :
  assign f w = (Ok tt, with_self (f (self w)) w).
Proof. reflexivity. Qed.

Section Lattice.
Variables (L : Z) (w : world) (s : list Z).
Hypothesis HL : 0 < L.
Hypothesis Hn : n_sites (self w) = L * L.
Hypothesis Hnb : neighbours (self w) = Spec.table L.
Hypothesis Hs : spins (self w) = Some s.

Lemma get_energy_ising :
  model (self w) = "ising" -> Z.of_nat (length s) = L * L ->
  get_energy w
  = (Ok tt, with_self (with_energy (Spec.ising_energy L (coupling (self w)) s) (self w)) w).
Proof.
  intros Htag Hlen. unfold get_energy.
  rewrite (bind_ok _ _ _ _ _ (assign_ok _ _)).
  rewrite (bind_ok _ _ _ _ _ (field_ok _ _)).
  cbn [self with_self model with_energy]. rewrite Htag. cbn [String.eqb Ascii.eqb Bool.eqb].
  rewrite (bind_ok _ _ _ _ _ (field_ok _ _)).
  cbn [self with_self n_sites with_energy]. rewrite Hn.
  rewrite (energy_loop get_energy_ising_step
             (fun i => - coupling (self w)
                       * (Spec.spin s i * Spec.spin s (Spec.right L i)
                          + Spec.spin s i * Spec.spin s (Spec.down L i)))
             (fun m => neighbours m = Spec.table L /\ spins m = Some s
                       /\ coupling m = coupling (self w))
             (range (L * L))) with (acc := 0).
  - reflexivity.
  - intros m e (? & ? & ?). repeat split; assumption.
  - intros w' acc x Hx (Hnb' & Hs' & Hc') Hacc. apply elem_of_range in Hx.
    rewrite <- Hc'. now apply get_energy_ising_step_ok.
  - cbn. repeat split; assumption.
  - reflexivity.
Qed.

Lemma get_energy_gauge :
  model (self w) = "gauge" -> Z.of_nat (length s) = 2 * (L * L) ->
  get_energy w
  = (Ok tt, with_self (with_energy (Spec.gauge_energy L (coupling (self w)) s) (self w)) w).
Proof.
  intros Htag Hlen. unfold get_energy.
  rewrite (bind_ok _ _ _ _ _ (assign_ok _ _)).
  rewrite (bind_ok _ _ _ _ _ (field_ok _ _)).
  cbn [self with_self model with_energy]. rewrite Htag. cbn [String.eqb Ascii.eqb Bool.eqb].
  rewrite (bind_ok _ _ _ _ _ (field_ok _ _)).
  cbn [self with_self n_sites with_energy]. rewrite Hn.
  rewrite (energy_loop get_energy_gauge_step
             (fun i => - coupling (self w) * Spec.plaquette L s i)
             (fun m => neighbours m = Spec.table L /\ spins m = Some s
                       /\ coupling m = coupling (self w))
             (range (L * L))) with (acc := 0).
  - reflexivity.
  - intros m e (? & ? & ?). repeat split; assumption.
  - intros w' acc x Hx (Hnb' & Hs' & Hc') Hacc. apply elem_of_range in Hx.
    rewrite <- Hc'. now apply get_energy_gauge_step_ok.
  - cbn. repeat split; assumption.
  - reflexivity.
Qed.

End Lattice.
End EnergyResults.

(** ** Each bond is counted once *)

Section Bonds.
Variable L : Z.
Hypothesis HL : 0 < L.

(** A map of the sites onto themselves with an inverse only permutes a sum
    over the sites. *)
Lemma zsum_reindex (f : Z -> Z) (p q : Z -> Z) (n : Z) :
  (forall i, 0 <= i < n -> 0 <= p i < n) ->
  (forall i, 0 <= i < n -> 0 <= q i < n) ->
  (forall i, 0 <= i < n -> q (p i) = i) ->
  (forall i, 0 <= i < n -> p (q i) = i) ->
  Spec.zsum (map (fun i => f (p i)) (range n)) = Spec.zsum (map f (range n)).
Proof.
  intros Hp Hq Hqp Hpq.
  change (map (fun i => f (p i)) (range n)) with (map (fun i => f (p i)) (range n)).
  rewrite <- (List.map_map p f). apply zsum_Permutation.
  change (map f (map p (range n))) with (f <$> (p <$> range n)).
  change (map f (range n)) with (f <$> range n).
  apply fmap_Permutation, NoDup_Permutation.
  - apply NoDup_fmap_2_strong; [|apply NoDup_range].
    intros x y Hx Hy Hxy. apply elem_of_range in Hx, Hy.
    rewrite <- (Hqp x Hx), <- (Hqp y Hy). now rewrite Hxy.
  - apply NoDup_range.
  - intros x. rewrite list_elem_of_fmap. split.
    + intros (y & -> & Hy). apply elem_of_range in Hy. apply elem_of_range. auto.
    + intros Hx. apply elem_of_range in Hx. exists (q x). split.
      * symmetry. auto.
      * apply elem_of_range. auto.
Qed.

Lemma ising_bonds_counted_once (c : Z) (s : list Z) :
  2 * Spec.ising_energy L c s = - c * Spec.ising_all_neighbours L s.
Proof.
  unfold Spec.ising_energy, Spec.ising_all_neighbours.
  set (sp := Spec.spin s).
  assert (Hl : Spec.zsum (map (fun i => sp i * sp (Spec.left L i)) (range (L * L)))
             = Spec.zsum (map (fun i => sp i * sp (Spec.right L i)) (range (L * L)))).
  { rewrite <- (zsum_reindex (fun j => sp j * sp (Spec.right L j))
                  (Spec.left L) (Spec.right L) (L * L)).
    - apply zsum_map_ext. intros i Hi. apply elem_of_range in Hi.
      rewrite right_left by assumption. lia.
    - intros i Hi. now apply left_range.
    - intros i Hi. now apply right_range.
    - intros i Hi. now apply right_left.
    - intros i Hi. now apply left_right. }
  assert (Hu : Spec.zsum (map (fun i => sp i * sp (Spec.up L i)) (range (L * L)))
             = Spec.zsum (map (fun i => sp i * sp (Spec.down L i)) (range (L * L)))).
  { rewrite <- (zsum_reindex (fun j => sp j * sp (Spec.down L j))
                  (Spec.up L) (Spec.down L) (L * L)).
    - apply zsum_map_ext. intros i Hi. apply elem_of_range in Hi.
      rewrite down_up by assumption. lia.
    - intros i Hi. now apply up_range.
    - intros i Hi. now apply down_range.
    - intros i Hi. now apply down_up.
    - intros i Hi. now apply up_down. }
  rewrite (zsum_map_ext
             (fun i => Spec.zsum (map (fun d => sp i * sp (Spec.neighbour L i d)) (range 4)))
             (fun i => (sp i * sp (Spec.right L i) + sp i * sp (Spec.down L i))
                       + (sp i * sp (Spec.left L i) + sp i * sp (Spec.up L i)))).
  2: { intros i _. change (range 4) with [0; 1; 2; 3]. unfold Spec.zsum. cbn [map foldr].
       change (Spec.neighbour L i 0) with (Spec.right L i).
       change (Spec.neighbour L i 1) with (Spec.down L i).
       change (Spec.neighbour L i 2) with (Spec.left L i).
       change (Spec.neighbour L i 3) with (Spec.up L i). lia. }
  rewrite (zsum_map_add (fun i => sp i * sp (Spec.right L i) + sp i * sp (Spec.down L i))
                        (fun i => sp i * sp (Spec.left L i) + sp i * sp (Spec.up L i))).
  rewrite !zsum_map_add, Hl, Hu.
  rewrite (zsum_map_scale (- c)
             (fun i => sp i * sp (Spec.right L i) + sp i * sp (Spec.down L i))).
  rewrite zsum_map_add. lia.
Qed.

End Bonds.

(** ** Flipping one link of the gauge model *)

Lemma spin_flip (s : list Z) (k j : Z) :
  0 <= k < Z.of_nat (length s) -> 0 <= j ->
  Spec.spin (Spec.flip s k) j = if j =? k then - Spec.spin s j else Spec.spin s j.
Proof.
  intros Hk Hj. unfold Spec.flip, Spec.spin at 1. rewrite nth_lookup.
  destruct (Z.eqb_spec j k) as [->|Hne].
  - rewrite list_lookup_insert_eq by lia. reflexivity.
  - rewrite list_lookup_insert_ne by lia. unfold Spec.spin. now rewrite nth_lookup.
Qed.

Lemma length_flip (s : list Z) (k : Z) : length (Spec.flip s k) = length s.
Proof. apply length_insert. Qed.

Lemma zsum_indicator (f : Z -> Z) (q : Z) (l : list Z) :
  NoDup l -> q ∈ l ->
  Spec.zsum (map (fun p => if p =? q then f p else 0) l) = f q.
Proof.
  unfold Spec.zsum. induction 1 as [|x l Hx Hl IH]; intros Hq.
  - inversion Hq.
  - cbn [map foldr]. destruct (Z.eqb_spec x q) as [->|Hne].
    + assert (H0 : foldr Z.add 0 (map (fun p => if p =? q then f p else 0) l) = 0).
      { clear IH Hq Hl. induction l as [|y l IHl]; cbn [map foldr]; [reflexivity|].
        destruct (Z.eqb_spec y q) as [->|_].
        - exfalso. apply Hx. constructor.
        - rewrite IHl; [reflexivity|]. intros Hin. apply Hx. now constructor. }
      rewrite H0. lia.
    + rewrite IH; [lia|]. inversion Hq; subst; [contradiction|assumption].
Qed.

Lemma first_range (L k : Z) :
  0 <= k < 2 * (L * L) -> 0 <= Spec.first_plaquette k < L * L.
Proof. intros Hk. unfold Spec.first_plaquette. Z.to_euclidean_division_equations. lia. Qed.

Lemma second_range (L k : Z) :
  0 < L -> 0 <= k < 2 * (L * L) -> 0 <= Spec.second_plaquette L k < L * L.
Proof.
  intros HL Hk. pose proof (first_range L k Hk).
  unfold Spec.second_plaquette, Spec.first_plaquette in *.
  destruct (k mod 2 =? 0); [apply up_range | apply left_range]; lia.
Qed.

Lemma first_neq_second (L k : Z) :
  2 <= L -> 0 <= k < 2 * (L * L) ->
  Spec.first_plaquette k <> Spec.second_plaquette L k.
Proof.
  intros HL Hk. pose proof (first_range L k Hk) as Hf.
  unfold Spec.second_plaquette, Spec.first_plaquette in *.
  intros Heq. destruct (k mod 2 =? 0).
  - apply (up_neq L (k / 2) HL); [assumption | now symmetry].
  - apply (left_neq L (k / 2) HL); [assumption | now symmetry].
Qed.

(** Link [k] bounds the plaquette at [p] exactly for the two selected ones. *)
Lemma link_in_plaquette (L k p : Z) :
  0 < L -> 0 <= k < 2 * (L * L) -> 0 <= p < L * L ->
  k ∈ Spec.plaquette_links L p
  <-> p = Spec.first_plaquette k \/ p = Spec.second_plaquette L k.
Proof.
  intros HL Hk Hp. pose proof (first_range L k Hk) as Hf.
  unfold Spec.second_plaquette, Spec.first_plaquette in *.
  pose proof (down_range L HL p Hp). pose proof (right_range L HL p Hp).
  pose proof (down_eq_iff L HL p (k / 2) Hp Hf) as Hd.
  pose proof (right_eq_iff L HL p (k / 2) Hp Hf) as Hr.
  unfold Spec.plaquette_links. rewrite !elem_of_cons, elem_of_nil.
  destruct (Z.eqb_spec (k mod 2) 0) as [Hev|Hodd].
  - assert (Hk2 : k = 2 * (k / 2)) by (Z.to_euclidean_division_equations; lia). split.
    + intros [H1 | [H1 | [H1 | [H1 | []]]]]; lia.
    + intros [-> | ->]; [left; lia|]. right. right. left.
      rewrite down_up by (assumption || lia). lia.
  - assert (Hk2 : k = 2 * (k / 2) + 1) by (Z.to_euclidean_division_equations; lia). split.
    + intros [H1 | [H1 | [H1 | [H1 | []]]]]; lia.
    + intros [-> | ->]; [right; left; lia|]. right. right. right. left.
      rewrite right_left by (assumption || lia). lia.
Qed.

Section GaugeFlipEnergy.
Variables (L : Z) (s : list Z) (k : Z).
Hypothesis HL : 2 <= L.
Hypothesis Hlen : Z.of_nat (length s) = 2 * (L * L).
Hypothesis Hk : 0 <= k < 2 * (L * L).

(** Which of the four links of the plaquette at [p] is link [k]. *)
Lemma plaquette_link_tests (p : Z) :
  0 <= p < L * L ->
  let even := k mod 2 =? 0 in
  let f := p =? Spec.first_plaquette k in
  let g := p =? Spec.second_plaquette L k in
  (2 * p =? k) = even && f /\ (2 * p + 1 =? k) = negb even && f /\
  (2 * Spec.down L p =? k) = even && g /\
  (2 * Spec.right L p + 1 =? k) = negb even && g.
Proof.
  intros Hp. cbv zeta.
  pose proof (first_range L k Hk) as Hf.
  pose proof (down_eq_iff L ltac:(lia) p (k / 2) Hp Hf) as Hd.
  pose proof (right_eq_iff L ltac:(lia) p (k / 2) Hp Hf) as Hr.
  pose proof (Z.div_mod k 2 ltac:(lia)) as Hdm.
  pose proof (Z.mod_pos_bound k 2 ltac:(lia)) as Hm.
  pose proof (up_neq L (k / 2) HL Hf) as Hu. pose proof (left_neq L (k / 2) HL Hf) as Hl.
  unfold Spec.second_plaquette, Spec.first_plaquette in *.
  set (q := k / 2) in *. set (r := k mod 2) in *.
  set (d := Spec.down L p) in *. set (rt := Spec.right L p) in *.
  set (u := Spec.up L q) in *. set (l := Spec.left L q) in *.
  clearbody q r d rt u l. clear Hlen HL Hk Hf.
  destruct (Z.eqb_spec r 0) as [Hev|Hodd]; cbn [andb negb].
  - repeat split.
    + destruct (Z.eqb_spec (2 * p) k), (Z.eqb_spec p q); try reflexivity; lia.
    + destruct (Z.eqb_spec (2 * p + 1) k); [lia | reflexivity].
    + destruct (Z.eqb_spec (2 * d) k), (Z.eqb_spec p u); try reflexivity; lia.
    + destruct (Z.eqb_spec (2 * rt + 1) k); [lia | reflexivity].
  - repeat split.
    + destruct (Z.eqb_spec (2 * p) k); [lia | reflexivity].
    + destruct (Z.eqb_spec (2 * p + 1) k), (Z.eqb_spec p q); try reflexivity; lia.
    + destruct (Z.eqb_spec (2 * d) k); [lia | reflexivity].
    + destruct (Z.eqb_spec (2 * rt + 1) k), (Z.eqb_spec p l); try reflexivity; lia.
Qed.

(** Negating link [k] negates the two selected plaquettes and no other. *)
Lemma plaquette_flip (p : Z) :
  0 <= p < L * L ->
  Spec.plaquette L (Spec.flip s k) p
  = if (p =? Spec.first_plaquette k) || (p =? Spec.second_plaquette L k)
    then - Spec.plaquette L s p else Spec.plaquette L s p.
Proof.
  intros Hp.
  pose proof (first_neq_second L k HL Hk) as Hne.
  assert (Hd : 0 <= 2 * Spec.down L p) by (pose proof (down_range L ltac:(lia) p Hp); lia).
  assert (Hr : 0 <= 2 * Spec.right L p + 1)
    by (pose proof (right_range L ltac:(lia) p Hp); lia).
  assert (Hk' : 0 <= k < Z.of_nat (length s)) by lia.
  unfold Spec.plaquette.
  rewrite (spin_flip s k (2 * p) Hk' ltac:(lia)), (spin_flip s k (2 * p + 1) Hk' ltac:(lia)),
    (spin_flip s k (2 * Spec.down L p) Hk' Hd),
    (spin_flip s k (2 * Spec.right L p + 1) Hk' Hr).
  destruct (plaquette_link_tests p Hp) as (E1 & E2 & E3 & E4).
  rewrite E1, E2, E3, E4.
  destruct (k mod 2 =? 0); destruct (Z.eqb_spec p (Spec.first_plaquette k));
    destruct (Z.eqb_spec p (Spec.second_plaquette L k));
    cbn [andb orb negb]; solve [ring | exfalso; congruence].
Qed.

(** The energy of the flipped configuration. *)
Lemma gauge_energy_flip (c : Z) :
  Spec.gauge_energy L c (Spec.flip s k) - Spec.gauge_energy L c s
  = 2 * c * (Spec.plaquette L s (Spec.first_plaquette k)
             + Spec.plaquette L s (Spec.second_plaquette L k)).
Proof.
  pose proof (first_neq_second L k HL Hk) as Hne.
  pose proof (first_range L k Hk) as Hf.
  pose proof (second_range L k ltac:(lia) Hk) as Hg.
  unfold Spec.gauge_energy.
  rewrite (zsum_map_ext (fun p => - c * Spec.plaquette L (Spec.flip s k) p)
             (fun p => - c * Spec.plaquette L s p
                       + ((if p =? Spec.first_plaquette k
                           then 2 * c * Spec.plaquette L s p else 0)
                          + (if p =? Spec.second_plaquette L k
                             then 2 * c * Spec.plaquette L s p else 0)))).
  2: { intros p Hp. apply elem_of_range in Hp. rewrite plaquette_flip by assumption.
       destruct (Z.eqb_spec p (Spec.first_plaquette k));
         destruct (Z.eqb_spec p (Spec.second_plaquette L k)); cbn [orb]; lia. }
  rewrite (zsum_map_add (fun p => - c * Spec.plaquette L s p)).
  rewrite (zsum_map_add (fun p => if p =? Spec.first_plaquette k
                                  then 2 * c * Spec.plaquette L s p else 0)).
  rewrite (zsum_indicator (fun p => 2 * c * Spec.plaquette L s p))
    by (apply NoDup_range || (apply elem_of_range; assumption)).
  rewrite (zsum_indicator (fun p => 2 * c * Spec.plaquette L s p))
    by (apply NoDup_range || (apply elem_of_range; assumption)).
  lia.
Qed.

End GaugeFlipEnergy.

(** ** Objects in use *)

Section InUse.
Context `{RT : Runtime}.

Lemma in_use_facts (L c : Z) (tag : string) (m : Ising2D) (w : world) (s : list Z) :
  __init__ L c tag = Ok m -> same_lattice m (self w) -> holds_spins (self w) s ->
  model (self w) = tag /\ n_sites (self w) = L * L /\
  neighbours (self w) = Spec.table L /\ coupling (self w) = c /\
  spins (self w) = Some s /\ n_spins (self w) = Some (Z.of_nat (length s)) /\
  n_spins_of L tag = Some (Z.of_nat (length s)).
Proof.
  intros Hm (_ & Hn & Htag & Hns & Hc & _ & Hnb) (Hs & Hlen).
  apply init_inv in Hm. destruct Hm as (_ & Hn0 & Htag0 & Hns0 & Hc0 & Hnb0 & _).
  repeat split; try congruence.
Qed.

Lemma n_spins_gauge (L : Z) : n_spins_of L "gauge" = Some (2 * (L * L)).
Proof. unfold n_spins_of. rewrite Z.pow_2_r. reflexivity. Qed.

Lemma n_spins_ising (L : Z) : n_spins_of L "ising" = Some (L * L).
Proof. unfold n_spins_of. rewrite Z.pow_2_r. reflexivity. Qed.

End InUse.

(** ** The gauge branch of [sweep] (C2) *)

Section GaugeSweep.
Context `{RT : Runtime}.

Lemma second_plaquette_ok (L : Z) (w : world) (k : Z) :
  0 < L -> neighbours (self w) = Spec.table L -> 0 <= k < 2 * (L * L) ->
  (if k mod 2 =? 0 then neighbour_at (k / 2) 3 else neighbour_at (k / 2) 2) w
  = (Ok (Spec.second_plaquette L k), w).
Proof.
  intros HL Hnb Hk. pose proof (first_range L k Hk) as Hf.
  unfold Spec.first_plaquette in Hf. unfold Spec.second_plaquette.
  destruct (k mod 2 =? 0).
  - now rewrite (neighbour_at_ok w L (k / 2) 3 Hnb Hf ltac:(lia)).
  - now rewrite (neighbour_at_ok w L (k / 2) 2 Hnb Hf ltac:(lia)).
Qed.

Lemma local_deltaE_gauge (L : Z) (w : world) (s : list Z) (k : Z) :
  0 < L -> model (self w) = "gauge" -> neighbours (self w) = Spec.table L ->
  spins (self w) = Some s -> Z.of_nat (length s) = 2 * (L * L) ->
  0 <= k < 2 * (L * L) ->
  local_deltaE k w
  = (Ok (Some (2 * coupling (self w)
               * (Spec.plaquette L s (Spec.first_plaquette k)
                  + Spec.plaquette L s (Spec.second_plaquette L k)))), w).
Proof.
  intros HL Htag Hnb Hs Hlen Hk. unfold local_deltaE.
  rewrite (bind_ok _ _ _ _ _ (field_ok _ _)). rewrite Htag.
  change (String.eqb "gauge" "ising") with false.
  change (String.eqb "gauge" "gauge") with true. cbv iota.
  rewrite (bind_ok _ _ _ _ _ (second_plaquette_ok L w k HL Hnb Hk)).
  rewrite (bind_ok _ _ _ _ _ (field_ok _ _)).
  rewrite (bind_ok _ _ _ _ _
             (plaquette_product_ok L w s HL Hnb Hs (k / 2) Hlen (first_range L k Hk))).
  rewrite (bind_ok _ _ _ _ _
             (plaquette_product_ok L w s HL Hnb Hs (Spec.second_plaquette L k) Hlen
                (second_range L k HL Hk))).
  reflexivity.
Qed.

(** C2, for lattices of linear size at least 2.  In the gauge model the two
    plaquettes that [sweep] selects for the chosen link [k] are exactly the
    plaquettes whose product contains [spins[k]]; they are distinct; and the
    [deltaE] computed from them is the change of the energy of [get_energy]
    when [spins[k]] alone is negated. *)
Theorem gauge_deltaE_energy_change (L c : Z) (m : Ising2D) (w : world)
    (s : list Z) (k : Z) :
  2 <= L -> __init__ L c "gauge" = Ok m ->
  same_lattice m (self w) -> holds_spins (self w) s ->
  0 <= k < 2 * (L * L) ->
  (if k mod 2 =? 0 then neighbour_at (k / 2) 3 else neighbour_at (k / 2) 2) w
    = (Ok (Spec.second_plaquette L k), w) /\
  (forall p, 0 <= p < L * L ->
     k ∈ Spec.plaquette_links L p
     <-> p = Spec.first_plaquette k \/ p = Spec.second_plaquette L k) /\
  Spec.first_plaquette k <> Spec.second_plaquette L k /\
  local_deltaE k w
    = (Ok (Some (2 * c * (Spec.plaquette L s (Spec.first_plaquette k)
                          + Spec.plaquette L s (Spec.second_plaquette L k)))), w) /\
  deltaE_is_energy_change k w.
Proof.
  intros HL Hm Hsame Hspins Hk.
  destruct (in_use_facts L c "gauge" m w s Hm Hsame Hspins)
    as (Htag & Hn & Hnb & Hc & Hs & Hns & Hlen).
  rewrite n_spins_gauge in Hlen. injection Hlen as Hlen. symmetry in Hlen.
  assert (HL0 : 0 < L) by lia.
  pose proof (local_deltaE_gauge L w s k HL0 Htag Hnb Hs Hlen Hk) as HdE.
  rewrite Hc in HdE.
  split; [now apply second_plaquette_ok|].
  split; [intros p Hp; now apply link_in_plaquette|].
  split; [now apply first_neq_second|].
  split; [exact HdE|].
  unfold deltaE_is_energy_change, energy_after, flipped. rewrite Hs.
  eexists _, (Spec.gauge_energy L c s), (Spec.gauge_energy L c (Spec.flip s k)).
  split; [now rewrite HdE|].
  split; [rewrite (get_energy_gauge L w s HL0 Hn Hnb Hs Htag Hlen); cbn; now rewrite Hc|].
  split.
  - rewrite (get_energy_gauge L _ (Spec.flip s k) HL0); cbn; try assumption.
    + now rewrite Hc.
    + reflexivity.
    + now rewrite length_flip.
  - symmetry. now apply gauge_energy_flip.
Qed.

End GaugeSweep.

(** ** Computations that only read the world *)

Section ReadOnly.
Context `{RT : Runtime}.

Lemma read_only_bind {A B} (m : M A) (k : A -> M B) :
  read_only m -> (forall a, read_only (k a)) -> read_only (bind m k).
Proof.
  intros Hm Hk w. unfold bind. specialize (Hm w).
  destruct (m w) as [[a|e] w']; cbn in Hm; subst w'; [apply Hk | reflexivity].
Qed.

Lemma read_only_attr {A} (name : string) (f : Ising2D -> option A) : read_only (attr name f).
Proof. intros w. unfold attr. now destruct (f (self w)). Qed.

Lemma read_only_field {A} (f : Ising2D -> A) : read_only (field f).
Proof. intros w. reflexivity. Qed.

Lemma read_only_global (name : string) : read_only (global name).
Proof. intros w. unfold global. now destruct (globals w !! name). Qed.

Lemma read_only_lift {A} (r : result A) : read_only (lift r).
Proof. intros w. reflexivity. Qed.

Lemma read_only_ret {A} (a : A) : read_only (ret a).
Proof. intros w. reflexivity. Qed.

Lemma read_only_spin_at (i : Z) : read_only (spin_at i).
Proof.
  apply read_only_bind; [apply read_only_attr | intros; apply read_only_lift].
Qed.

Lemma read_only_neighbour_at (i j : Z) : read_only (neighbour_at i j).
Proof.
  apply read_only_bind; [apply read_only_field | intros; apply read_only_lift].
Qed.

Lemma read_only_for_fold {A B} (xs : list B) (body : A -> B -> M A) (a : A) :
  (forall a x, read_only (body a x)) -> read_only (for_fold xs body a).
Proof.
  intros Hbody. revert a. induction xs as [|x xs IH]; intros a; cbn [for_fold].
  - apply read_only_ret.
  - apply read_only_bind; [apply Hbody | apply IH].
Qed.

Create HintDb read_only.
Hint Resolve read_only_attr read_only_field read_only_global read_only_lift read_only_ret
  read_only_spin_at read_only_neighbour_at : read_only.

Ltac read_only_tac :=
  repeat first
    [ apply read_only_bind; [| intros ?]
    | solve [auto with read_only]
    | match goal with |- read_only (if ?b then _ else _) => destruct b end ].

Lemma read_only_plaquette_product (p : Z) : read_only (plaquette_product p).
Proof. unfold plaquette_product. read_only_tac. Qed.

Lemma read_only_ising_deltaE_step (deltaE neigh : Z) :
  read_only (ising_deltaE_step deltaE neigh).
Proof. unfold ising_deltaE_step. read_only_tac. Qed.

Lemma read_only_local_deltaE (k : Z) : read_only (local_deltaE k).
Proof.
  unfold local_deltaE. apply read_only_bind; [apply read_only_field | intros tag].
  destruct (String.eqb tag "ising").
  - apply read_only_bind; [| intros; apply read_only_ret].
    apply read_only_for_fold. intros. apply read_only_ising_deltaE_step.
  - destruct (String.eqb tag "gauge"); [| apply read_only_ret].
    apply read_only_bind.
    + destruct (k mod 2 =? 0); apply read_only_neighbour_at.
    + intros q. apply read_only_bind; [apply read_only_field | intros c].
      apply read_only_bind; [apply read_only_plaquette_product | intros p1].
      apply read_only_bind; [apply read_only_plaquette_product | intros p2].
      apply read_only_ret.
Qed.

Lemma local_deltaE_result (k : Z) (w : world) (r : result (option Z)) :
  fst (local_deltaE k w) = r -> local_deltaE k w = (r, w).
Proof.
  intros <-. rewrite <- (read_only_local_deltaE k w) at 3.
  now destruct (local_deltaE k w).
Qed.

End ReadOnly.

(** ** The Metropolis rule (C3) *)

Section Metropolis.
Context `{RT : Runtime}.
Variables (temperature : float) (w : world) (s : list Z) (k : Z).
Hypothesis Hs : spins (self w) = Some s.
Hypothesis Hk : 0 <= k < Z.of_nat (length s).

Lemma flip_spin_ok (w' : world) :
  spins (self w') = Some s ->
  flip_spin k w'
  = (Ok tt, with_self (with_spins (Spec.flip s k) (self w')) w').
Proof.
  intros Hs'. unfold flip_spin.
  rewrite (bind_ok _ _ _ _ _ (spin_at_ok w' s k Hs' Hk)).
  rewrite (bind_ok _ _ _ _ _ (attr_ok _ _ _ _ Hs')).
  unfold lift at 1. unfold bind at 1. rewrite np_set_ok by exact Hk. reflexivity.
Qed.

Lemma metropolis_flip_downhill (dE : Z) :
  dE <= 0 ->
  metropolis_flip temperature k (Some dE) w
  = (Ok tt, with_self (with_spins (Spec.flip s k) (self w)) w).
Proof.
  intros HdE. unfold metropolis_flip.
  unfold bind at 1. unfold ret at 1. cbv iota beta.
  destruct (Z.leb_spec dE 0) as [_|]; [|lia].
  unfold bind at 1. unfold ret at 1. cbv iota beta.
  now apply flip_spin_ok.
Qed.

Lemma metropolis_flip_uphill (dE : Z) :
  0 < dE ->
  metropolis_flip temperature k (Some dE) w
  = let w2 := with_random_state (snd (rng_random (random_state w))) w in
    if f_ltb (fst (rng_random (random_state w)))
             (np_exp (f_div (f_of_int (- dE)) temperature))
    then (Ok tt, with_self (with_spins (Spec.flip s k) (self w)) w2)
    else (Ok tt, w2).
Proof.
  intros HdE. unfold metropolis_flip.
  unfold bind at 1. unfold ret at 1. cbv iota beta.
  destruct (Z.leb_spec dE 0) as [|_]; [lia|].
  unfold bind at 1. unfold bind at 1. unfold random_random.
  destruct (rng_random (random_state w)) as [u g]. cbn [fst snd]. unfold ret at 1.
  cbv iota beta zeta.
  destruct (f_ltb u (np_exp (f_div (f_of_int (- dE)) temperature))).
  - rewrite flip_spin_ok by exact Hs. reflexivity.
  - reflexivity.
Qed.

End Metropolis.

Section Trial.
Context `{RT : Runtime}.

Lemma sweep_trial_run (temperature : float) (w : world) (n : Z) :
  n_spins (self w) = Some n -> 0 < n ->
  sweep_trial temperature w
  = bind (local_deltaE (fst (rng_randint 0 (n - 1) (random_state w))))
         (metropolis_flip temperature (fst (rng_randint 0 (n - 1) (random_state w))))
         (with_random_state (snd (rng_randint 0 (n - 1) (random_state w))) w).
Proof.
  intros Hn Hpos. unfold sweep_trial.
  rewrite (bind_ok _ _ _ _ _ (attr_ok _ _ _ _ Hn)).
  unfold bind at 1. unfold random_randint.
  destruct (Z.ltb_spec (n - 1) 0) as [|_]; [lia|].
  now destruct (rng_randint 0 (n - 1) (random_state w)).
Qed.

(** C3. In a trial of [sweep] in which [deltaE] is computed for the chosen
    index [k]: if [deltaE <= 0] the spin is negated and the generator is left
    in the state reached by the choice of [k], so no draw is spent on the
    decision; if [deltaE > 0] one draw [u] of [random.random()] is taken and
    the spin is negated exactly when [u < exp(-deltaE / temperature)]; on
    rejection the object is unchanged, and on acceptance the configuration
    differs from the old one at index [k] only, where it is negated. *)
Theorem metropolis_rule (temperature : float) (w : world) (s : list Z) (n dE : Z) :
  randint_in_range -> 0 < n -> n_spins (self w) = Some n -> holds_spins (self w) s ->
  let k := fst (rng_randint 0 (n - 1) (random_state w)) in
  let w1 := with_random_state (snd (rng_randint 0 (n - 1) (random_state w))) w in
  let u := fst (rng_random (random_state w1)) in
  let w2 := with_random_state (snd (rng_random (random_state w1))) w1 in
  let accepted := f_ltb u (np_exp (f_div (f_of_int (- dE)) temperature)) in
  fst (local_deltaE k w1) = Ok (Some dE) ->
  (dE <= 0 ->
     sweep_trial temperature w
     = (Ok tt, with_self (with_spins (Spec.flip s k) (self w)) w1)) /\
  (0 < dE -> accepted = true ->
     sweep_trial temperature w
     = (Ok tt, with_self (with_spins (Spec.flip s k) (self w)) w2)) /\
  (0 < dE -> accepted = false -> sweep_trial temperature w = (Ok tt, w2)) /\
  0 <= k < Z.of_nat (length s) /\
  length (Spec.flip s k) = length s /\
  (forall j, 0 <= j ->
     Spec.spin (Spec.flip s k) j = if j =? k then - Spec.spin s j else Spec.spin s j).
Proof.
  intros Hrng Hpos Hn (Hs & Hlen) k w1 u w2 accepted HdE.
  assert (Hk : 0 <= k < Z.of_nat (length s)).
  { rewrite Hn in Hlen. injection Hlen as <-.
    pose proof (Hrng 0 (n - 1) (random_state w) ltac:(lia)). subst k. lia. }
  pose proof (sweep_trial_run temperature w n Hn Hpos) as Hrun.
  fold k w1 in Hrun. apply local_deltaE_result in HdE.
  rewrite (bind_ok _ _ _ _ _ HdE) in Hrun.
  assert (Hs1 : spins (self w1) = Some s) by exact Hs.
  repeat split.
  - intros Hle. rewrite Hrun, (metropolis_flip_downhill temperature w1 s k Hs1 Hk dE Hle).
    reflexivity.
  - intros Hgt Hacc. rewrite Hrun, (metropolis_flip_uphill temperature w1 s k Hs1 Hk dE Hgt).
    cbv zeta. fold u accepted. now rewrite Hacc.
  - intros Hgt Hacc. rewrite Hrun, (metropolis_flip_uphill temperature w1 s k Hs1 Hk dE Hgt).
    cbv zeta. fold u accepted. now rewrite Hacc.
  - lia.
  - lia.
  - apply length_flip.
  - intros j Hj. now apply spin_flip.
Qed.

End Trial.

(** ** The Ising branch of [sweep] (C1) *)

Section IsingSweep.
Context `{RT : Runtime}.

Lemma global_ok (w : world) (name : string) (v : Z) :
  globals w !! name = Some v -> global name w = (Ok v, w).
Proof. intros H. unfold global. now rewrite H. Qed.

Lemma neighbour_range (L i d : Z) :
  0 < L -> 0 <= i < L * L -> 0 <= d < 4 -> 0 <= Spec.neighbour L i d < L * L.
Proof.
  intros HL Hi Hd.
  assert (d = 0 \/ d = 1 \/ d = 2 \/ d = 3) as [-> | [-> | [-> | ->]]] by lia.
  - now apply right_range.
  - now apply down_range.
  - now apply left_range.
  - now apply up_range.
Qed.

Section Step.
Variables (L : Z) (w : world) (s : list Z).
Hypothesis HL : 0 < L.
Hypothesis Hnb : neighbours (self w) = Spec.table L.
Hypothesis Hs : spins (self w) = Some s.
Hypothesis Hlen : Z.of_nat (length s) = L * L.

Lemma ising_deltaE_step_unbound (deltaE neigh : Z) :
  globals w !! "site" = None ->
  ising_deltaE_step deltaE neigh w = (Raise (NameError "site"), w).
Proof.
  intros Hsite. unfold ising_deltaE_step.
  rewrite (bind_ok _ _ _ _ _ (field_ok _ _)).
  rewrite (bind_ok _ _ _ _ _ (attr_ok _ _ _ _ Hs)).
  apply bind_raise. unfold global. now rewrite Hsite.
Qed.

Lemma ising_deltaE_step_bound (j deltaE neigh : Z) :
  globals w !! "site" = Some j -> 0 <= j < L * L -> 0 <= neigh < 4 ->
  ising_deltaE_step deltaE neigh w
  = (Ok (deltaE + 2 * coupling (self w) * Spec.spin s j
                  * Spec.spin s (Spec.neighbour L j neigh)), w).
Proof.
  intros Hsite Hj Hneigh. unfold ising_deltaE_step.
  pose proof (neighbour_range L j neigh HL Hj Hneigh).
  rewrite (bind_ok _ _ _ _ _ (field_ok _ _)).
  rewrite (bind_ok _ _ _ _ _ (attr_ok _ _ _ _ Hs)).
  rewrite (bind_ok _ _ _ _ _ (global_ok w "site" j Hsite)).
  unfold bind at 1, lift at 1. rewrite np_get_spin by lia.
  rewrite (bind_ok _ _ _ _ _ (global_ok w "site" j Hsite)).
  rewrite (bind_ok _ _ _ _ _ (neighbour_at_ok w L j neigh Hnb Hj Hneigh)).
  rewrite (bind_ok _ _ _ _ _ (spin_at_ok w s (Spec.neighbour L j neigh) Hs ltac:(lia))).
  reflexivity.
Qed.

Lemma local_deltaE_ising_unbound (k : Z) :
  model (self w) = "ising" -> globals w !! "site" = None ->
  local_deltaE k w = (Raise (NameError "site"), w).
Proof.
  intros Htag Hsite. unfold local_deltaE.
  rewrite (bind_ok _ _ _ _ _ (field_ok _ _)). rewrite Htag.
  change (String.eqb "ising" "ising") with true. cbv iota.
  apply bind_raise. change (range 4) with [0; 1; 2; 3]. cbn [for_fold].
  apply bind_raise. now apply ising_deltaE_step_unbound.
Qed.

Lemma local_deltaE_ising_bound (j k : Z) :
  model (self w) = "ising" -> globals w !! "site" = Some j -> 0 <= j < L * L ->
  local_deltaE k w = (Ok (Some (Spec.ising_deltaE L (coupling (self w)) s j)), w).
Proof.
  intros Htag Hsite Hj. unfold local_deltaE.
  rewrite (bind_ok _ _ _ _ _ (field_ok _ _)). rewrite Htag.
  change (String.eqb "ising" "ising") with true. cbv iota.
  change (range 4) with [0; 1; 2; 3].
  assert (Hfold : for_fold [0; 1; 2; 3] ising_deltaE_step 0 w
                  = (Ok (0 + 2 * coupling (self w) * Spec.spin s j
                             * Spec.spin s (Spec.neighbour L j 0)
                         + 2 * coupling (self w) * Spec.spin s j
                             * Spec.spin s (Spec.neighbour L j 1)
                         + 2 * coupling (self w) * Spec.spin s j
                             * Spec.spin s (Spec.neighbour L j 2)
                         + 2 * coupling (self w) * Spec.spin s j
                             * Spec.spin s (Spec.neighbour L j 3)), w)).
  { cbn [for_fold].
    rewrite (bind_ok _ _ _ _ _ (ising_deltaE_step_bound j _ 0 Hsite Hj ltac:(lia))).
    rewrite (bind_ok _ _ _ _ _ (ising_deltaE_step_bound j _ 1 Hsite Hj ltac:(lia))).
    rewrite (bind_ok _ _ _ _ _ (ising_deltaE_step_bound j _ 2 Hsite Hj ltac:(lia))).
    rewrite (bind_ok _ _ _ _ _ (ising_deltaE_step_bound j _ 3 Hsite Hj ltac:(lia))).
    reflexivity. }
  rewrite (bind_ok _ _ _ _ _ Hfold).
  unfold ret. do 3 f_equal. unfold Spec.ising_deltaE.
  change (Spec.neighbour L j 0) with (Spec.right L j).
  change (Spec.neighbour L j 1) with (Spec.down L j).
  change (Spec.neighbour L j 2) with (Spec.left L j).
  change (Spec.neighbour L j 3) with (Spec.up L j). ring.
Qed.

End Step.
End IsingSweep.

Lemma range_cons (n : Z) : 0 < n -> exists rest, range n = 0 :: rest.
Proof.
  intros Hn. unfold range. destruct (Z.to_nat n) as [|k] eqn:E; [lia|].
  cbn [seq map]. eexists. reflexivity.
Qed.

Section IsingDefect.
Context `{RT : Runtime}.

(** C1 on the code.  In the Ising branch the spin whose neighbourhood is
    summed is not the index chosen in the trial but the global name [site]:
    without such a global every trial, and so [sweep], raises [NameError];
    with a global [site = j] the [deltaE] of every trial is the energy change
    of spin [j], whatever index was chosen. *)
Theorem ising_deltaE_reads_site (L c : Z) (m : Ising2D) (w : world) (s : list Z) :
  0 < L -> __init__ L c "ising" = Ok m ->
  same_lattice m (self w) -> holds_spins (self w) s ->
  (globals w !! "site" = None ->
     (forall k, local_deltaE k w = (Raise (NameError "site"), w)) /\
     (forall temperature, fst (sweep temperature w) = Raise (NameError "site"))) /\
  (forall j, globals w !! "site" = Some j -> 0 <= j < L * L ->
     forall k, local_deltaE k w = (Ok (Some (Spec.ising_deltaE L c s j)), w)).
Proof.
  intros HL Hm Hsame Hspins.
  destruct (in_use_facts L c "ising" m w s Hm Hsame Hspins)
    as (Htag & Hn & Hnb & Hc & Hs & Hns & Hlen).
  rewrite n_spins_ising in Hlen. injection Hlen as Hlen. symmetry in Hlen.
  split.
  - intros Hsite. split.
    + intros k. now apply (local_deltaE_ising_unbound w s Hs).
    + intros temperature. unfold sweep.
      rewrite (bind_ok _ _ _ _ _ (attr_ok _ _ _ _ Hns)). rewrite Hlen.
      destruct (range_cons (L * L) ltac:(nia)) as [rest ->]. cbn [for_each].
      assert (Htrial : exists w', sweep_trial temperature w = (Raise (NameError "site"), w')).
      { rewrite (sweep_trial_run temperature w (L * L)) by (rewrite <- ?Hlen; assumption || nia).
        eexists. apply bind_raise.
        now apply (local_deltaE_ising_unbound _ s). }
      destruct Htrial as [w' Htrial]. now rewrite (bind_raise _ _ _ _ _ Htrial).
  - intros j Hsite Hj k. rewrite <- Hc.
    now apply (local_deltaE_ising_bound L w s HL Hnb Hs Hlen).
Qed.

End IsingDefect.

(** ** [sweep] on the gauge model; what is validated (C4, C10) *)

Section GaugeTotal.
Context `{RT : Runtime}.

Lemma for_each_invariant {A} (I : world -> Prop) (body : A -> M unit) (xs : list A) :
  (forall x w, x ∈ xs -> I w -> exists w', body x w = (Ok tt, w') /\ I w') ->
  forall w, I w -> exists w', for_each xs body w = (Ok tt, w') /\ I w'.
Proof.
  induction xs as [|x xs IH]; intros Hbody w Hw; cbn [for_each].
  - exists w. split; [reflexivity | assumption].
  - destruct (Hbody x w ltac:(constructor) Hw) as (w1 & Hrun & Hw1).
    rewrite (bind_ok _ _ _ _ _ Hrun). apply IH; [|assumption].
    intros y w' Hy. apply Hbody. now constructor.
Qed.

Lemma same_lattice_with_spins (m0 m : Ising2D) (s : list Z) :
  same_lattice m0 m -> same_lattice m0 (with_spins s m).
Proof. intros H. exact H. Qed.

Lemma sweep_trial_gauge (temperature : float) (L c : Z) (m : Ising2D) (w : world) :
  randint_in_range -> 0 < L -> __init__ L c "gauge" = Ok m ->
  same_lattice m (self w) /\ (exists s, holds_spins (self w) s) ->
  exists w', sweep_trial temperature w = (Ok tt, w') /\
             same_lattice m (self w') /\ (exists s, holds_spins (self w') s).
Proof.
  intros Hrng HL Hm (Hsame & s & Hspins).
  destruct (in_use_facts L c "gauge" m w s Hm Hsame Hspins)
    as (Htag & Hn & Hnb & Hc & Hs & Hns & Hlen).
  rewrite n_spins_gauge in Hlen. injection Hlen as Hlen. symmetry in Hlen.
  assert (Hpos : 0 < 2 * (L * L)) by nia.
  rewrite Hlen in Hns.
  rewrite (sweep_trial_run temperature w (2 * (L * L)) Hns Hpos).
  pose proof (Hrng 0 (2 * (L * L) - 1) (random_state w) ltac:(lia)) as Hk.
  set (k := fst (rng_randint 0 (2 * (L * L) - 1) (random_state w))) in *.
  set (w1 := with_random_state _ w).
  assert (Hs1 : spins (self w1) = Some s) by exact Hs.
  assert (Hk' : 0 <= k < Z.of_nat (length s)) by lia.
  rewrite (bind_ok _ _ _ _ _
             (local_deltaE_gauge L w1 s k HL Htag Hnb Hs1 Hlen ltac:(lia))).
  set (dE := 2 * coupling (self w1) * _).
  assert (Hflip : holds_spins (with_spins (Spec.flip s k) (self w)) (Spec.flip s k)).
  { split; [reflexivity|]. cbn. now rewrite length_flip, Hlen. }
  destruct (Z_le_gt_dec dE 0) as [Hle|Hgt].
  - rewrite (metropolis_flip_downhill temperature w1 s k Hs1 Hk' dE Hle).
    eexists. split; [reflexivity|]. split; [exact Hsame|]. now exists (Spec.flip s k).
  - rewrite (metropolis_flip_uphill temperature w1 s k Hs1 Hk' dE ltac:(lia)). cbv zeta.
    destruct (f_ltb _ _).
    + eexists. split; [reflexivity|]. split; [exact Hsame|]. now exists (Spec.flip s k).
    + eexists. split; [reflexivity|]. split; [exact Hsame|]. now exists s.
Qed.

Lemma sweep_gauge (temperature : float) (L c : Z) (m : Ising2D) (w : world) :
  randint_in_range -> 0 < L -> __init__ L c "gauge" = Ok m ->
  same_lattice m (self w) -> (exists s, holds_spins (self w) s) ->
  exists w', sweep temperature w = (Ok tt, w') /\
             same_lattice m (self w') /\ (exists s, holds_spins (self w') s).
Proof.
  intros Hrng HL Hm Hsame [s Hspins]. unfold sweep.
  rewrite (bind_ok _ _ _ _ _ (attr_ok _ _ _ _ (proj2 Hspins))).
  apply (for_each_invariant
           (fun w => same_lattice m (self w) /\ (exists s, holds_spins (self w) s))).
  - intros _ w' _ Hw'. now apply (sweep_trial_gauge temperature L c).
  - split; [assumption | now exists s].
Qed.

(** C4 on the code.  Nothing is validated: [__init__] returns an object for
    every size and every tag (for a tag other than the two known ones
    [n_spins] is left unset), and [sweep] on a gauge lattice in use completes
    for every value of the temperature. *)
Theorem no_argument_validation :
  (forall L c tag, exists m,
     __init__ L c tag = Ok m /\ lattice_size m = L /\ model m = tag /\
     n_spins m = n_spins_of L tag) /\
  (forall temperature L c m w,
     randint_in_range -> 0 < L -> __init__ L c "gauge" = Ok m ->
     same_lattice m (self w) -> (exists s, holds_spins (self w) s) ->
     fst (sweep temperature w) = Ok tt).
Proof.
  split.
  - intros L c tag. eexists. split; [apply init_ok|]. repeat split.
  - intros temperature L c m w Hrng HL Hm Hsame Hspins.
    destruct (sweep_gauge temperature L c m w Hrng HL Hm Hsame Hspins) as (w' & -> & _).
    reflexivity.
Qed.

(** C10. For the gauge model on a lattice of linear size [L > 0], the spin
    array has [2 * n_sites] entries and every index at which [get_energy] and
    the gauge branch of [sweep] read it, [2p], [2p+1], [2*neighbours[p,1]]
    and [2*neighbours[p,0]+1] for [p] a site or one of the two plaquettes of
    the chosen link, lies in [[0, 2 * n_sites)]; both computations complete
    without an index error. *)
Theorem gauge_reads_in_bounds (L c : Z) (m : Ising2D) :
  0 < L -> __init__ L c "gauge" = Ok m ->
  n_spins m = Some (2 * n_sites m) /\
  (forall p, 0 <= p < n_sites m ->
     exists d r,
       np_get2 (neighbours m) p 1 = Ok d /\ np_get2 (neighbours m) p 0 = Ok r /\
       Forall (fun j => 0 <= j < 2 * n_sites m) [2 * p; 2 * p + 1; 2 * d; 2 * r + 1]) /\
  (forall k, 0 <= k < 2 * n_sites m ->
     0 <= k / 2 < n_sites m /\
     exists q, np_get2 (neighbours m) (k / 2) (if k mod 2 =? 0 then 3 else 2) = Ok q /\
               0 <= q < n_sites m) /\
  (forall w s, same_lattice m (self w) -> holds_spins (self w) s ->
     fst (get_energy w) = Ok tt /\
     forall k, 0 <= k < 2 * n_sites m -> exists dE, fst (local_deltaE k w) = Ok (Some dE)).
Proof.
  intros HL Hm. pose proof (init_inv L c "gauge" m Hm) as (_ & Hn & _ & Hns & _ & Hnb & _).
  rewrite n_spins_gauge in Hns. rewrite Hn, Hnb, Hns.
  split; [reflexivity|]. split; [|split].
  - intros p Hp. exists (Spec.down L p), (Spec.right L p).
    rewrite !np_get2_table by lia.
    pose proof (down_range L HL p Hp). pose proof (right_range L HL p Hp).
    split; [reflexivity|]. split; [reflexivity|].
    repeat constructor; lia.
  - intros k Hk. pose proof (first_range L k Hk) as Hf.
    unfold Spec.first_plaquette in Hf. split; [exact Hf|].
    pose proof (second_range L k HL Hk) as Hq. unfold Spec.second_plaquette in Hq.
    destruct (k mod 2 =? 0); eexists; (split; [apply np_get2_table; lia | exact Hq]).
  - intros w s Hsame Hspins.
    destruct (in_use_facts L c "gauge" m w s Hm Hsame Hspins)
      as (Htag & Hn' & Hnb' & Hc & Hs & _ & Hlen).
    rewrite n_spins_gauge in Hlen. injection Hlen as Hlen. symmetry in Hlen.
    split.
    + now rewrite (get_energy_gauge L w s HL Hn' Hnb' Hs Htag Hlen).
    + intros k Hk. eexists.
      now rewrite (local_deltaE_gauge L w s k HL Htag Hnb' Hs Hlen Hk).
Qed.

End GaugeTotal.

(** ** [get_energy] on the Ising model (C7) *)

Section IsingEnergy.
Context `{RT : Runtime}.

(** C7. For the Ising model, [get_energy] stores the sum over all sites [i]
    of [-coupling * (spins[i]*spins[right(i)] + spins[i]*spins[down(i)])].
    Twice this sum is [-coupling] times the sum over every site and all four
    of its neighbours, in which each bond occurs once from each of its two
    ends: the right and down bonds count each bond once.  For the 2 x 2
    lattice with coupling 1 and all spins [+1] the energy is [-8]. *)
Theorem get_energy_ising_sum (L c : Z) (m : Ising2D) (w : world) (s : list Z) :
  0 < L -> __init__ L c "ising" = Ok m ->
  same_lattice m (self w) -> holds_spins (self w) s ->
  get_energy w
    = (Ok tt, with_self (with_energy (Spec.ising_energy L c s) (self w)) w) /\
  2 * Spec.ising_energy L c s = - c * Spec.ising_all_neighbours L s /\
  (L = 2 -> c = 1 -> s = [1; 1; 1; 1] -> Spec.ising_energy L c s = -8).
Proof.
  intros HL Hm Hsame Hspins.
  destruct (in_use_facts L c "ising" m w s Hm Hsame Hspins)
    as (Htag & Hn & Hnb & Hc & Hs & Hns & Hlen).
  rewrite n_spins_ising in Hlen. injection Hlen as Hlen. symmetry in Hlen.
  split; [|split].
  - rewrite (get_energy_ising L w s HL Hn Hnb Hs Htag Hlen). now rewrite Hc.
  - now apply ising_bonds_counted_once.
  - intros -> -> ->. reflexivity.
Qed.

End IsingEnergy.

(** ** [high_T_spins] (C8) *)

Section Initialiser.
Context `{RT : Runtime}.
Hypothesis Hrng : randint_in_range.

Lemma draw_spins_length (n : nat) (g : rng) : length (fst (draw_spins n g)) = n.
Proof.
  revert g. induction n as [|n IH]; intros g; cbn [draw_spins]; [reflexivity|].
  destruct (rng_randint 0 1 g) as [r g']. specialize (IH g').
  destruct (draw_spins n g') as [rest g'']. cbn [fst length] in *. now rewrite IH.
Qed.

Lemma draw_spins_values (n : nat) (g : rng) :
  Forall (fun x => x = 1 \/ x = -1) (fst (draw_spins n g)).
Proof.
  revert g. induction n as [|n IH]; intros g; cbn [draw_spins]; [constructor|].
  pose proof (Hrng 0 1 g ltac:(lia)) as Hr.
  destruct (rng_randint 0 1 g) as [r g']. specialize (IH g').
  destruct (draw_spins n g') as [rest g'']. cbn [fst] in *.
  constructor; [lia | assumption].
Qed.

Lemma high_T_spins_step_ok (w : world) (s : list Z) (index : Z) :
  spins (self w) = Some s -> 0 <= index < Z.of_nat (length s) ->
  high_T_spins_step index w
  = (Ok tt,
     with_self (with_spins (<[Z.to_nat index := 2 * fst (rng_randint 0 1 (random_state w)) - 1]> s)
                  (self w))
       (with_random_state (snd (rng_randint 0 1 (random_state w))) w)).
Proof.
  intros Hs Hi. unfold high_T_spins_step.
  unfold bind at 1. unfold random_randint. change (1 <? 0) with false. cbv iota.
  destruct (rng_randint 0 1 (random_state w)) as [r g]. cbn [fst snd].
  assert (Hs' : spins (self (with_random_state g w)) = Some s) by exact Hs.
  rewrite (bind_ok _ _ _ _ _ (attr_ok _ _ _ _ Hs')).
  unfold bind at 1, lift at 1. rewrite np_set_ok by exact Hi. reflexivity.
Qed.

(** The loop fills the array from index [length pre] on with the spins drawn. *)
Lemma high_T_spins_loop (len : nat) :
  forall (pre : list Z) (w : world),
    spins (self w) = Some (pre ++ replicate len 0) ->
    exists w',
      for_each (map Z.of_nat (seq (length pre) len)) high_T_spins_step w = (Ok tt, w') /\
      spins (self w') = Some (pre ++ fst (draw_spins len (random_state w))) /\
      (forall m0, same_lattice m0 (self w) -> same_lattice m0 (self w')).
Proof.
  induction len as [|len IH]; intros pre w Hs.
  - cbn [seq map for_each draw_spins fst]. exists w.
    split; [reflexivity|]. split; [exact Hs | intros m0 H0; exact H0].
  - cbn [seq map for_each draw_spins].
    assert (Hi : 0 <= Z.of_nat (length pre)
                 < Z.of_nat (length (pre ++ replicate (S len) 0)))
      by (rewrite length_app, length_replicate; lia).
    rewrite (bind_ok _ _ _ _ _ (high_T_spins_step_ok w _ (Z.of_nat (length pre)) Hs Hi)).
    destruct (rng_randint 0 1 (random_state w)) as [r g] eqn:Er. cbn [fst snd].
    rewrite Nat2Z.id.
    assert (Hins : <[length pre := 2 * r - 1]> (pre ++ replicate (S len) 0)
                   = (pre ++ [2 * r - 1]) ++ replicate len 0).
    { cbn [replicate]. rewrite <- app_assoc. cbn [app].
      replace (length pre) with (length pre + 0)%nat at 1 by lia.
      now rewrite insert_app_r. }
    rewrite Hins.
    set (w1 := with_self _ _).
    destruct (IH (pre ++ [2 * r - 1]) w1) as (w' & Hrun & Hs' & Hsame);
      [reflexivity|].
    rewrite length_app, Nat.add_1_r in Hrun. cbn [length] in Hrun.
    exists w'. split; [exact Hrun|]. split.
    + rewrite Hs'. subst w1. cbn [random_state with_self with_random_state].
      destruct (draw_spins len g) as [rest g'']. cbn [fst]. now rewrite <- app_assoc.
    + intros m0 H0. apply Hsame. exact H0.
Qed.

Lemma high_T_spins_run (seed n : Z) (w : world) :
  n_spins (self w) = Some n -> 0 <= n ->
  exists w',
    high_T_spins seed w = (Ok tt, w') /\
    spins (self w') = Some (fst (draw_spins (Z.to_nat n) (rng_seed seed))) /\
    (forall m0, same_lattice m0 (self w) -> same_lattice m0 (self w')).
Proof.
  intros Hn Hpos. unfold high_T_spins.
  unfold bind at 1, random_seed at 1. cbv iota beta.
  set (w0 := with_random_state (rng_seed seed) w).
  assert (Hn0 : n_spins (self w0) = Some n) by exact Hn.
  rewrite (bind_ok _ _ _ _ _ (attr_ok _ _ _ _ Hn0)).
  unfold bind at 1, lift at 1, np_zeros.
  destruct (Z.ltb_spec n 0) as [|_]; [lia|]. cbv iota beta.
  rewrite (bind_ok _ _ _ _ _ (assign_ok _ _)).
  set (w1 := with_self _ w0).
  assert (Hn1 : n_spins (self w1) = Some n) by exact Hn.
  rewrite (bind_ok _ _ _ _ _ (attr_ok _ _ _ _ Hn1)).
  destruct (high_T_spins_loop (Z.to_nat n) [] w1 eq_refl) as (w' & Hrun & Hs & Hsame).
  exists w'. split; [exact Hrun|]. split; [exact Hs|].
  intros m0 H0. apply Hsame. exact H0.
Qed.

End Initialiser.

Section Determinism.
Context `{RT : Runtime}.

Lemma n_spins_of_known (L : Z) (tag : string) :
  tag = "ising" \/ tag = "gauge" -> exists n, n_spins_of L tag = Some n /\ 0 <= n.
Proof.
  intros [-> | ->].
  - exists (L * L). split; [apply n_spins_ising | nia].
  - exists (2 * (L * L)). split; [apply n_spins_gauge | nia].
Qed.

(** C8. On objects constructed with the same arguments, whatever has been
    done with them since and whatever the state of the generator,
    [high_T_spins] with the same seed completes and leaves the same spin
    array, with one entry per spin, each [+1] or [-1]; running it again on the
    same object leaves that array again. *)
Theorem high_T_spins_deterministic (L c : Z) (tag : string) (m : Ising2D)
    (seed : Z) (w1 w2 : world) :
  randint_in_range -> tag = "ising" \/ tag = "gauge" -> __init__ L c tag = Ok m ->
  same_lattice m (self w1) -> same_lattice m (self w2) ->
  exists s,
    (fst (high_T_spins seed w1) = Ok tt /\
     spins (self (snd (high_T_spins seed w1))) = Some s) /\
    (fst (high_T_spins seed w2) = Ok tt /\
     spins (self (snd (high_T_spins seed w2))) = Some s) /\
    (fst (high_T_spins seed (snd (high_T_spins seed w1))) = Ok tt /\
     spins (self (snd (high_T_spins seed (snd (high_T_spins seed w1))))) = Some s) /\
    n_spins m = Some (Z.of_nat (length s)) /\
    Forall (fun x => x = 1 \/ x = -1) s.
Proof.
  intros Hrng Htag Hm Hsame1 Hsame2.
  destruct (n_spins_of_known L tag Htag) as (n & Hn & Hpos).
  pose proof (init_inv L c tag m Hm) as (_ & _ & _ & Hns & _).
  rewrite Hn in Hns.
  assert (Hn1 : n_spins (self w1) = Some n)
    by (destruct Hsame1 as (_ & _ & _ & -> & _); exact Hns).
  assert (Hn2 : n_spins (self w2) = Some n)
    by (destruct Hsame2 as (_ & _ & _ & -> & _); exact Hns).
  destruct (high_T_spins_run seed n w1 Hn1 Hpos) as (w1' & Hrun1 & Hs1 & Hkeep1).
  destruct (high_T_spins_run seed n w2 Hn2 Hpos) as (w2' & Hrun2 & Hs2 & _).
  assert (Hn1' : n_spins (self w1') = Some n)
    by (destruct (Hkeep1 m Hsame1) as (_ & _ & _ & -> & _); exact Hns).
  destruct (high_T_spins_run seed n w1' Hn1' Hpos) as (w1'' & Hrun3 & Hs3 & _).
  exists (fst (draw_spins (Z.to_nat n) (rng_seed seed))).
  rewrite Hrun1, Hrun2. cbn [fst snd]. rewrite Hrun3. cbn [fst snd].
  repeat split; try assumption.
  - rewrite Hns, draw_spins_length. f_equal. lia.
  - now apply draw_spins_values.
Qed.

End Determinism.

(** ** [write_configs] leaves the model alone (C9) *)

Section Writer.
Context `{RT : Runtime}.

Lemma keeps_self_bind {A B} (m : M A) (k : A -> M B) :
  keeps_self m -> (forall a, keeps_self (k a)) -> keeps_self (bind m k).
Proof.
  intros Hm Hk w. unfold bind. specialize (Hm w).
  destruct (m w) as [[a|e] w']; cbn [snd] in *; [| exact Hm].
  rewrite Hk. exact Hm.
Qed.

Lemma keeps_self_read_only {A} (m : M A) : read_only m -> keeps_self m.
Proof. intros Hm w. now rewrite Hm. Qed.

Lemma keeps_self_ret {A} (a : A) : keeps_self (ret a).
Proof. intros w. reflexivity. Qed.

Lemma keeps_self_random_randint (a b : Z) : keeps_self (random_randint a b).
Proof.
  intros w. unfold random_randint. destruct (b <? a); [reflexivity|].
  now destruct (rng_randint a b (random_state w)).
Qed.

Lemma keeps_self_open_append (name : string) : keeps_self (open_append name).
Proof. intros w. reflexivity. Qed.

Lemma keeps_self_file_write (name text : string) : keeps_self (file_write name text).
Proof. intros w. reflexivity. Qed.

Lemma keeps_self_for_each {A} (xs : list A) (body : A -> M unit) :
  (forall x, keeps_self (body x)) -> keeps_self (for_each xs body).
Proof.
  intros Hbody. induction xs as [|x xs IH]; cbn [for_each].
  - apply keeps_self_ret.
  - apply keeps_self_bind; [apply Hbody | intros _; exact IH].
Qed.

Lemma keeps_self_train_test_configs (bins n_bins : Z) (train_frac : float) :
  keeps_self (train_test_configs bins n_bins train_frac).
Proof.
  unfold train_test_configs.
  destruct (f_ltb _ _);
    (apply keeps_self_bind; [apply keeps_self_open_append | intros ?];
     apply keeps_self_bind; [apply keeps_self_open_append | intros ?];
     apply keeps_self_ret).
Qed.

Lemma keeps_self_write_configs_step (flip : Z) (file : string) (index : Z) :
  keeps_self (write_configs_step flip file index).
Proof.
  unfold write_configs_step. apply keeps_self_bind.
  - apply keeps_self_read_only, read_only_spin_at.
  - intros v. apply keeps_self_file_write.
Qed.

(** C9. Whatever its arguments and whatever the object, [write_configs]
    leaves the object as it was: the spin array, the coupling, the critical
    temperature and the neighbour table are the same before and after the
    call, whether it completes or raises.  The sign flip is applied to the
    local [current_spin] only. *)
Theorem write_configs_keeps_model (bins n_bins : Z) (train_frac temperature : float)
    (w : world) :
  let w' := snd (write_configs bins n_bins train_frac temperature w) in
  self w' = self w /\
  spins (self w') = spins (self w) /\ coupling (self w') = coupling (self w) /\
  crit_temperature (self w') = crit_temperature (self w) /\
  neighbours (self w') = neighbours (self w).
Proof.
  cbv zeta.
  assert (H : keeps_self (write_configs bins n_bins train_frac temperature)).
  { unfold write_configs.
    apply keeps_self_bind; [apply keeps_self_train_test_configs | intros fs].
    apply keeps_self_bind; [apply keeps_self_random_randint | intros r].
    apply keeps_self_bind; [apply keeps_self_read_only, read_only_attr | intros n].
    apply keeps_self_bind;
      [apply keeps_self_for_each; intros; apply keeps_self_write_configs_step | intros _].
    apply keeps_self_bind; [apply keeps_self_file_write | intros _].
    apply keeps_self_bind; [apply keeps_self_read_only, read_only_field | intros tc].
    apply keeps_self_file_write. }
  rewrite (H w). repeat split.
Qed.

End Writer.

(** * Runs on the computing runtime *)

Lemma lcg_randint_in_range : @randint_in_range Fixture.runtime.
Proof.
  intros a b g Hab. cbn [rng_randint Fixture.runtime Fixture.lcg_randint fst].
  pose proof (Z.mod_pos_bound (g / 65536) (b - a + 1) ltac:(lia)). lia.
Qed.

Example table_3x3 :
  build_neighbours 3 9
  = Ok [[1; 3; 2; 6]; [2; 4; 0; 7]; [0; 5; 1; 8];
        [4; 6; 5; 0]; [5; 7; 3; 1]; [3; 8; 4; 2];
        [7; 0; 8; 3]; [8; 1; 6; 4]; [6; 2; 7; 5]].
Proof. reflexivity. Qed.

Example written_line_is_flipped :
  exists m, @__init__ Fixture.runtime 2 1 "ising" = Ok m /\
    let w := Fixture.fresh_world (with_spins [1; -1; -1; -1] m) in
    let w' := snd (write_configs (RT := Fixture.runtime) 0 10 (1 # 2)%Q (1 # 1)%Q w) in
    fst (rng_randint 0 1 (random_state w)) = 0 /\
    files w' !! "Xtrain.txt" = Some ("0  1  1  1  " +:+ newline) /\
    files w' !! "ytrain.txt" = Some ("0 " +:+ newline) /\
    spins (self w') = Some [1; -1; -1; -1].
Proof.
  eexists. split; [apply init_ok|]. vm_compute. repeat split.
Qed.

Lemma neighbour_table_entries_witness :
  0 < 3 /\
  exists m, @__init__ Fixture.runtime 3 1 "ising" = Ok m /\
    np_get2 (neighbours m) 0 2 = Ok 2 /\ np_get2 (neighbours m) 2 0 = Ok 0 /\
    np_get2 (neighbours m) 8 1 = Ok (if 8 >=? n_sites m - 3 then 8 + 3 - n_sites m else 8 + 3).
Proof.
  split; [lia|].
  destruct (@neighbour_table_entries Fixture.runtime 3 1 "ising" ltac:(lia))
    as (m & Hm & Hn & Hall & Hleft & Hright).
  exists m. split; [exact Hm|]. split; [exact Hleft|]. split; [exact Hright|].
  apply (Hall 8). rewrite Hn. lia.
Defined.

Lemma neighbour_table_round_trips_witness :
  0 < 3 /\
  exists m, @__init__ Fixture.runtime 3 1 "gauge" = Ok m /\
    exists r, np_get2 (neighbours m) 5 0 = Ok r /\ np_get2 (neighbours m) r 2 = Ok 5.
Proof.
  split; [lia|].
  destruct (@neighbour_table_round_trips Fixture.runtime 3 1 "gauge" ltac:(lia))
    as (m & Hm & Hlen & Hall & Hround).
  exists m. split; [exact Hm|].
  destruct (Hround 5) as (r & d & l & u & Hr & _ & _ & _ & Hrl & _).
  - apply init_inv in Hm. destruct Hm as (_ & -> & _). lia.
  - exists r. split; [exact Hr | exact Hrl].
Defined.

Lemma get_energy_ising_sum_witness :
  0 < 2 /\
  exists m, @__init__ Fixture.runtime 2 1 "ising" = Ok m /\
    energy_after (Fixture.fresh_world (with_spins [1; 1; 1; 1] m)) = Some (-8).
Proof.
  split; [lia|]. eexists. split; [apply init_ok|].
  match goal with
  | |- energy_after (Fixture.fresh_world (with_spins ?s ?m)) = _ =>
      pose proof (@get_energy_ising_sum Fixture.runtime 2 1 m
                    (Fixture.fresh_world (with_spins s m)) s
                    ltac:(lia) (init_ok 2 1 "ising")
                    ltac:(repeat split) ltac:(split; reflexivity))
        as (Hrun & _ & Hvalue)
  end.
  unfold energy_after. rewrite Hrun. cbn [snd self with_self energy with_energy].
  rewrite Hvalue by reflexivity. reflexivity.
Defined.

Lemma gauge_deltaE_energy_change_witness :
  2 <= 2 /\ 0 <= 3 < 2 * (2 * 2) /\
  exists m, @__init__ Fixture.runtime 2 1 "gauge" = Ok m /\
    deltaE_is_energy_change 3
      (Fixture.fresh_world (with_spins [1; -1; 1; 1; -1; 1; 1; 1] m)).
Proof.
  split; [lia|]. split; [lia|]. eexists. split; [apply init_ok|].
  match goal with
  | |- deltaE_is_energy_change ?k (Fixture.fresh_world (with_spins ?s ?m)) =>
      apply (@gauge_deltaE_energy_change Fixture.runtime 2 1 m
               (Fixture.fresh_world (with_spins s m)) s k)
  end.
  - lia.
  - apply init_ok.
  - repeat split.
  - split; reflexivity.
  - lia.
Defined.

(** C2 as stated fails on the 1 x 1 lattice: its single plaquette contains
    each of the two links twice, its product and so the energy do not change
    under a flip, and [sweep] computes [deltaE = 4]. *)
Lemma gauge_deltaE_1x1_counterexample :
  exists m, @__init__ Fixture.runtime 1 1 "gauge" = Ok m /\
    let w := Fixture.fresh_world (with_spins [1; 1] m) in
    fst (local_deltaE 0 w) = Ok (Some 4) /\
    energy_after w = Some (-1) /\ energy_after (flipped 0 w) = Some (-1) /\
    ~ deltaE_is_energy_change 0 w.
Proof.
  eexists. split; [apply init_ok|]. cbv zeta.
  split; [vm_compute; reflexivity|]. split; [vm_compute; reflexivity|].
  split; [vm_compute; reflexivity|].
  intros (dE & e & e' & H1 & H2 & H3 & H4).
  vm_compute in H1. vm_compute in H2. vm_compute in H3.
  injection H1 as <-. injection H2 as <-. injection H3 as <-. discriminate H4.
Qed.

Lemma metropolis_rule_witness :
  0 < 8 /\
  exists m, @__init__ Fixture.runtime 2 1 "gauge" = Ok m /\
    fst (sweep_trial (RT := Fixture.runtime) (1 # 1)%Q
           (Fixture.fresh_world (with_spins [1; -1; 1; 1; -1; 1; 1; 1] m))) = Ok tt.
Proof.
  split; [lia|]. eexists. split; [apply init_ok|].
  match goal with
  | |- fst (sweep_trial ?T ?w) = _ =>
      edestruct (@metropolis_rule Fixture.runtime T w [1; -1; 1; 1; -1; 1; 1; 1] 8)
        as (Hdown & Hup & Hrej & _);
        [ exact lcg_randint_in_range | lia | reflexivity | split; reflexivity
        | vm_compute; reflexivity | ]
  end.
  match type of Hdown with
  | ?dE <= 0 -> _ => destruct (Z_le_gt_dec dE 0) as [Hle | Hgt]
  end.
  - rewrite (Hdown Hle). reflexivity.
  - match type of Hup with
    | _ -> ?acc = true -> _ => destruct acc eqn:Hacc
    end.
    + rewrite (Hup ltac:(lia) eq_refl). reflexivity.
    + rewrite (Hrej ltac:(lia) eq_refl). reflexivity.
Defined.

Lemma ising_deltaE_reads_site_witness :
  0 < 2 /\
  exists m, @__init__ Fixture.runtime 2 1 "ising" = Ok m /\
    fst (sweep (RT := Fixture.runtime) (1 # 1)%Q
           (Fixture.fresh_world (with_spins [1; 1; 1; 1] m)))
    = Raise (NameError "site").
Proof.
  split; [lia|]. eexists. split; [apply init_ok|].
  match goal with
  | |- fst (sweep ?T (Fixture.fresh_world (with_spins ?s ?m))) = _ =>
      pose proof (@ising_deltaE_reads_site Fixture.runtime 2 1 m
                    (Fixture.fresh_world (with_spins s m)) s
                    ltac:(lia) (init_ok 2 1 "ising")
                    ltac:(repeat split) ltac:(split; reflexivity))
        as (Hunbound & _);
      exact (proj2 (Hunbound eq_refl) T)
  end.
Defined.

(** C4 as stated fails: size 0 and an unknown tag are accepted by
    [__init__], and [sweep] runs at a negative temperature. *)
Lemma no_validation_counterexample :
  (exists m, @__init__ Fixture.runtime 0 1 "ising" = Ok m) /\
  (exists m, @__init__ Fixture.runtime 2 1 "potts" = Ok m /\ n_spins m = None) /\
  (exists m, @__init__ Fixture.runtime 2 1 "gauge" = Ok m /\
     fst (sweep (RT := Fixture.runtime) (-1 # 1)%Q
            (Fixture.fresh_world (with_spins [1; -1; 1; 1; -1; 1; 1; 1] m))) = Ok tt).
Proof.
  split; [eexists; apply init_ok|].
  split; [eexists; split; [apply init_ok | reflexivity]|].
  eexists. split; [apply init_ok|]. vm_compute. reflexivity.
Qed.

Lemma no_argument_validation_witness :
  (exists m, @__init__ Fixture.runtime (-3) 1 "other" = Ok m /\ lattice_size m = -3) /\
  exists m, @__init__ Fixture.runtime 2 1 "gauge" = Ok m /\
    fst (sweep (RT := Fixture.runtime) (0 # 1)%Q
           (Fixture.fresh_world (with_spins [1; -1; 1; 1; -1; 1; 1; 1] m))) = Ok tt.
Proof.
  destruct (@no_argument_validation Fixture.runtime) as (Hinit & Hsweep).
  split.
  - destruct (Hinit (-3) 1 "other") as (m & Hm & Hsize & _). exists m. split; assumption.
  - eexists. split; [apply init_ok|].
    match goal with
    | |- fst (sweep ?T (Fixture.fresh_world (with_spins ?s ?m))) = _ =>
        apply (Hsweep T 2 1 m (Fixture.fresh_world (with_spins s m))
                 lcg_randint_in_range ltac:(lia) (init_ok 2 1 "gauge")
                 ltac:(repeat split)
                 (ex_intro _ s (conj eq_refl eq_refl)))
    end.
Defined.

Lemma high_T_spins_deterministic_witness :
  exists m, @__init__ Fixture.runtime 2 1 "ising" = Ok m /\
    let w1 := Fixture.fresh_world m in
    let w2 := mkWorld (RT := Fixture.runtime) 12345 ∅ ∅ (with_spins [1; 1; 1; 1] m) in
    spins (self (snd (high_T_spins 7 w1))) = spins (self (snd (high_T_spins 7 w2))) /\
    exists s, spins (self (snd (high_T_spins 7 w1))) = Some s /\ length s = 4%nat.
Proof.
  eexists. split; [apply init_ok|]. cbv zeta.
  match goal with
  | |- spins (self (snd (high_T_spins ?seed ?w1))) = spins (self (snd (high_T_spins _ ?w2))) /\ _ =>
      destruct (@high_T_spins_deterministic Fixture.runtime 2 1 "ising" _ seed w1 w2
                  lcg_randint_in_range (or_introl eq_refl) (init_ok 2 1 "ising")
                  ltac:(repeat split) ltac:(repeat split))
        as (s & (_ & Hs1) & (_ & Hs2) & _ & Hlen & _)
  end.
  split; [now rewrite Hs1, Hs2|].
  exists s. split; [exact Hs1|].
  cbn [n_spins] in Hlen. rewrite n_spins_ising in Hlen. injection Hlen as Hlen. lia.
Defined.

Lemma gauge_reads_in_bounds_witness :
  0 < 2 /\
  exists m, @__init__ Fixture.runtime 2 1 "gauge" = Ok m /\
    n_spins m = Some (2 * n_sites m) /\
    fst (get_energy (Fixture.fresh_world (with_spins [1; -1; 1; 1; -1; 1; 1; 1] m))) = Ok tt.
Proof.
  split; [lia|]. eexists. split; [apply init_ok|].
  match goal with
  | |- n_spins ?m = _ /\ fst (get_energy (Fixture.fresh_world (with_spins ?s ?m))) = _ =>
      pose proof (@gauge_reads_in_bounds Fixture.runtime 2 1 m ltac:(lia)
                    (init_ok 2 1 "gauge")) as (Hn & _ & _ & Hrun);
      split; [exact Hn|];
      exact (proj1 (Hrun (Fixture.fresh_world (with_spins s m)) s
                      ltac:(repeat split) ltac:(split; reflexivity)))
  end.
Defined.

(** * Further properties of the two files *)

(** ** [get_magnetization] *)

Lemma zsum_spin_valued (s : list Z) :
  Ref.spin_valued s ->
  - Z.of_nat (length s) <= Spec.zsum s <= Z.of_nat (length s) /\
  (Spec.zsum s = Z.of_nat (length s) <-> Forall (fun x => x = 1) s) /\
  (Spec.zsum s = - Z.of_nat (length s) <-> Forall (fun x => x = -1) s) /\
  exists q, Spec.zsum s + Z.of_nat (length s) = 2 * q.
Proof.
  unfold Ref.spin_valued, Spec.zsum. induction 1 as [|x s Hx Hs IH].
  - cbn. repeat split; try lia; try constructor. exists 0. lia.
  - destruct IH as (Hb & Hup & Hdown & q & Hq). cbn [foldr length].
    rewrite Nat2Z.inj_succ. repeat split; try lia.
    + intros Heq. constructor; [lia | apply Hup; lia].
    + intros Hall. inversion Hall; subst. apply Hup in H2. lia.
    + intros Heq. constructor; [lia | apply Hdown; lia].
    + intros Hall. inversion Hall; subst. apply Hdown in H2. lia.
    + destruct Hx as [-> | ->]; [exists (q + 1) | exists q]; lia.
Qed.

Section Magnetization.
Context `{RT : Runtime}.

(** X1. On a configuration of [+1] and [-1] entries [get_magnetization]
    stores their sum [M], with [-n <= M <= n] for [n] the number of spins,
    [M = n] exactly when every spin is [+1], [M = -n] exactly when every spin
    is [-1], and [M] of the parity of [n]; nothing else of the world changes. *)
Theorem get_magnetization_bounds (w : world) (s : list Z) :
  spins (self w) = Some s -> Ref.spin_valued s ->
  exists M,
    get_magnetization w = (Ok tt, with_self (with_magnetization M (self w)) w) /\
    M = Spec.zsum s /\
    - Z.of_nat (length s) <= M <= Z.of_nat (length s) /\
    (M = Z.of_nat (length s) <-> Forall (fun x => x = 1) s) /\
    (M = - Z.of_nat (length s) <-> Forall (fun x => x = -1) s) /\
    (M + Z.of_nat (length s)) mod 2 = 0.
Proof.
  intros Hs Hval. exists (Spec.zsum s).
  destruct (zsum_spin_valued s Hval) as (Hb & Hup & Hdown & q & Hq).
  split.
  - unfold get_magnetization. rewrite (bind_ok _ _ _ _ _ (attr_ok _ _ _ _ Hs)). reflexivity.
  - repeat split; try lia; try tauto.
    rewrite Hq, Z.mul_comm. apply Z.mod_mul. lia.
Qed.

End Magnetization.

(** ** Calls before [high_T_spins] *)

Section Uninitialised.
Context `{RT : Runtime}.

Lemma attr_missing {A} (name : string) (f : Ising2D -> option A) (w : world) :
  f (self w) = None -> attr name f w = (Raise (AttributeError name), w).
Proof. intros H. unfold attr. now rewrite H. Qed.

Lemma spin_at_missing (w : world) (i : Z) :
  spins (self w) = None -> spin_at i w = (Raise (AttributeError "spins"), w).
Proof.
  intros Hs. unfold spin_at. apply bind_raise. now apply attr_missing.
Qed.

(** X2. On an object whose spin array has not been created (a known
    variant on a lattice of size [L > 0]), [get_magnetization] raises
    [AttributeError] for [spins] and changes nothing, and [get_energy] raises
    the same error after it has set [energy] to [0]. *)
Theorem observables_before_high_T_spins (L c : Z) (tag : string) (m : Ising2D)
    (w : world) :
  0 < L -> tag = "ising" \/ tag = "gauge" -> __init__ L c tag = Ok m ->
  same_lattice m (self w) -> spins (self w) = None ->
  get_magnetization w = (Raise (AttributeError "spins"), w) /\
  get_energy w
  = (Raise (AttributeError "spins"), with_self (with_energy 0 (self w)) w).
Proof.
  intros HL Htag Hm (_ & Hn & Hmodel & _) Hs.
  apply init_inv in Hm. destruct Hm as (_ & Hn0 & Htag0 & _).
  rewrite Hn0 in Hn. rewrite Htag0 in Hmodel.
  split.
  - unfold get_magnetization. apply bind_raise. now apply attr_missing.
  - unfold get_energy.
    rewrite (bind_ok _ _ _ _ _ (assign_ok _ _)).
    rewrite (bind_ok _ _ _ _ _ (field_ok _ _)).
    cbn [self with_self model with_energy]. rewrite Hmodel.
    set (w0 := with_self (with_energy 0 (self w)) w).
    assert (Hs0 : spins (self w0) = None) by exact Hs.
    assert (He0 : energy (self w0) = Some 0) by reflexivity.
    destruct (range_cons (L * L) ltac:(nia)) as [rest Hrange].
    destruct Htag as [-> | ->].
    + change (String.eqb "ising" "ising") with true. cbv iota.
      rewrite (bind_ok _ _ _ _ _ (field_ok _ _)).
      change (n_sites (self w0)) with (n_sites (self w)). rewrite Hn, Hrange.
      cbn [for_each]. apply bind_raise. unfold get_energy_ising_step.
      rewrite (bind_ok _ _ _ _ _ (attr_ok _ _ _ _ He0)).
      rewrite (bind_ok _ _ _ _ _ (field_ok _ _)).
      apply bind_raise. now apply spin_at_missing.
    + change (String.eqb "gauge" "ising") with false.
      change (String.eqb "gauge" "gauge") with true. cbv iota.
      rewrite (bind_ok _ _ _ _ _ (field_ok _ _)).
      change (n_sites (self w0)) with (n_sites (self w)). rewrite Hn, Hrange.
      cbn [for_each]. apply bind_raise. unfold get_energy_gauge_step.
      rewrite (bind_ok _ _ _ _ _ (attr_ok _ _ _ _ He0)).
      rewrite (bind_ok _ _ _ _ _ (field_ok _ _)).
      apply bind_raise. unfold plaquette_product.
      apply bind_raise. now apply spin_at_missing.
Qed.

(** X3. On such an object [sweep] raises [AttributeError] for [spins] in its
    first trial, after the site has been drawn: the generator has advanced by
    that one draw and nothing else has changed. *)
Theorem sweep_before_high_T_spins (temperature : float) (L c : Z) (tag : string)
    (m : Ising2D) (w : world) :
  randint_in_range -> 0 < L -> tag = "ising" \/ tag = "gauge" ->
  __init__ L c tag = Ok m -> same_lattice m (self w) -> spins (self w) = None ->
  exists n,
    n_spins (self w) = Some n /\
    sweep temperature w
    = (Raise (AttributeError "spins"),
       with_random_state (snd (rng_randint 0 (n - 1) (random_state w))) w).
Proof.
  intros Hrng HL Htag Hm (_ & Hn & Hmodel & Hns & _ & _ & Hnb) Hs.
  apply init_inv in Hm. destruct Hm as (_ & Hn0 & Htag0 & Hns0 & _ & Hnb0 & _).
  rewrite Hn0 in Hn. rewrite Htag0 in Hmodel. rewrite Hns0 in Hns. rewrite Hnb0 in Hnb.
  assert (Hn_spins : exists n, n_spins (self w) = Some n /\ 0 < n /\
                               (tag = "gauge" -> n = 2 * (L * L))).
  { destruct Htag as [-> | ->].
    - exists (L * L). rewrite Hns, n_spins_ising. repeat split; [nia | discriminate].
    - exists (2 * (L * L)). rewrite Hns, n_spins_gauge. repeat split; nia. }
  destruct Hn_spins as (n & Hnsp & Hpos & Hgauge).
  exists n. split; [exact Hnsp|]. unfold sweep.
  rewrite (bind_ok _ _ _ _ _ (attr_ok _ _ _ _ Hnsp)).
  destruct (range_cons n Hpos) as [rest ->]. cbn [for_each].
  apply bind_raise. rewrite (sweep_trial_run temperature w n Hnsp Hpos).
  pose proof (Hrng 0 (n - 1) (random_state w) ltac:(lia)) as Hk.
  set (k := fst (rng_randint 0 (n - 1) (random_state w))) in *.
  set (w1 := with_random_state _ w).
  assert (Hs1 : spins (self w1) = None) by exact Hs.
  apply bind_raise. unfold local_deltaE.
  rewrite (bind_ok _ _ _ _ _ (field_ok _ _)).
  change (model (self w1)) with (model (self w)). rewrite Hmodel.
  destruct Htag as [-> | ->].
  - change (String.eqb "ising" "ising") with true. cbv iota.
    apply bind_raise. change (range 4) with [0; 1; 2; 3]. cbn [for_fold].
    apply bind_raise. unfold ising_deltaE_step.
    rewrite (bind_ok _ _ _ _ _ (field_ok _ _)).
    apply bind_raise. now apply attr_missing.
  - change (String.eqb "gauge" "ising") with false.
    change (String.eqb "gauge" "gauge") with true. cbv iota.
    specialize (Hgauge eq_refl).
    assert (Hnb1 : neighbours (self w1) = Spec.table L) by exact Hnb.
    rewrite (bind_ok _ _ _ _ _ (second_plaquette_ok L w1 k HL Hnb1 ltac:(lia))).
    rewrite (bind_ok _ _ _ _ _ (field_ok _ _)).
    apply bind_raise. unfold plaquette_product.
    apply bind_raise. now apply spin_at_missing.
Qed.

End Uninitialised.

(** ** Arguments that nothing rejects *)

Section Unvalidated.
Context `{RT : Runtime}.

Lemma n_spins_unknown (L : Z) (tag : string) :
  tag <> "ising" -> tag <> "gauge" -> n_spins_of L tag = None.
Proof.
  intros H1 H2. unfold n_spins_of.
  apply String.eqb_neq in H1, H2. now rewrite H1, H2.
Qed.

(** X4. For a tag other than the two known ones the object has no [n_spins]:
    [high_T_spins] raises [AttributeError] for it after having reseeded the
    generator, [sweep] raises the same error and changes nothing, and
    [get_energy] completes with energy [0] whatever the spins. *)
Theorem unknown_variant (L c : Z) (tag : string) (m : Ising2D) (w : world)
    (seed : Z) (temperature : float) :
  tag <> "ising" -> tag <> "gauge" ->
  __init__ L c tag = Ok m -> same_lattice m (self w) ->
  n_spins m = None /\
  high_T_spins seed w
  = (Raise (AttributeError "n_spins"), with_random_state (rng_seed seed) w) /\
  sweep temperature w = (Raise (AttributeError "n_spins"), w) /\
  get_energy w = (Ok tt, with_self (with_energy 0 (self w)) w).
Proof.
  intros H1 H2 Hm (_ & _ & Hmodel & Hns & _).
  apply init_inv in Hm. destruct Hm as (_ & _ & Htag0 & Hns0 & _).
  rewrite Hns0, (n_spins_unknown L tag H1 H2) in Hns.
  rewrite Htag0 in Hmodel.
  split; [now rewrite Hns0, n_spins_unknown|]. split; [|split].
  - unfold high_T_spins. unfold bind at 1, random_seed at 1. cbv iota beta.
    apply bind_raise. now apply attr_missing.
  - unfold sweep. apply bind_raise. now apply attr_missing.
  - unfold get_energy.
    rewrite (bind_ok _ _ _ _ _ (assign_ok _ _)).
    rewrite (bind_ok _ _ _ _ _ (field_ok _ _)).
    cbn [self with_self model with_energy]. rewrite Hmodel.
    apply String.eqb_neq in H1, H2. rewrite H1, H2. reflexivity.
Qed.

(** X5. A size that is not positive is accepted.  Size [0] gives an object
    with no sites and an empty table.  A negative size [L] gives a table of
    [L*L] rows that is not a neighbour table: for site [0] it holds the
    negative entries [L] (down) and [L - 1] (left). *)
Theorem nonpositive_size (c : Z) (tag : string) :
  (exists m, __init__ 0 c tag = Ok m /\ n_sites m = 0 /\ neighbours m = []) /\
  (forall L, L < 0 ->
     exists m, __init__ L c tag = Ok m /\ n_sites m = L * L /\
       length (neighbours m) = Z.to_nat (L * L) /\
       np_get2 (neighbours m) 0 1 = Ok L /\
       np_get2 (neighbours m) 0 2 = Ok (L - 1)).
Proof.
  split.
  - eexists. split; [apply init_ok|]. split; reflexivity.
  - intros L HL. eexists. split; [apply init_ok|]. cbn [n_sites neighbours].
    split; [reflexivity|]. split.
    + unfold Spec.table. now rewrite length_map, length_range.
    + rewrite !np_get2_table by nia.
      change (Spec.neighbour L 0 1) with (Spec.down L 0).
      change (Spec.neighbour L 0 2) with (Spec.left L 0).
      unfold Spec.down, Spec.left. rewrite Z.mod_0_l by lia. rewrite Z.eqb_refl.
      rewrite Z.geb_leb. destruct (Z.leb_spec (L * L - L) 0); [nia|].
      split; f_equal; lia.
Qed.

End Unvalidated.

(** ** What [high_T_spins] and [sweep] change *)

Section Frames.
Context `{RT : Runtime}.

Lemma same_but_refl (w : world) : same_but_spins_and_generator w w.
Proof. repeat split. Qed.

Lemma same_but_trans (w1 w2 w3 : world) :
  same_but_spins_and_generator w1 w2 -> same_but_spins_and_generator w2 w3 ->
  same_but_spins_and_generator w1 w3.
Proof.
  intros (Hg & Hf & (H1 & H2 & H3 & H4 & H5 & H6 & H7) & He & Hm)
         (Hg' & Hf' & (H1' & H2' & H3' & H4' & H5' & H6' & H7') & He' & Hm').
  repeat split; congruence.
Qed.

Lemma same_but_step (w : world) (s : list Z) (g : rng) :
  same_but_spins_and_generator w
    (with_self (with_spins s (self w)) (with_random_state g w)).
Proof. repeat split. Qed.

Lemma same_but_same_lattice (m : Ising2D) (w w' : world) :
  same_but_spins_and_generator w w' -> same_lattice m (self w) ->
  same_lattice m (self w').
Proof.
  intros (_ & _ & (H1 & H2 & H3 & H4 & H5 & H6 & H7) & _)
         (G1 & G2 & G3 & G4 & G5 & G6 & G7).
  repeat split; congruence.
Qed.

(** The loop of [high_T_spins], with the generator and the rest of the world. *)
Lemma high_T_spins_loop_world (len : nat) :
  forall (pre : list Z) (w : world),
    spins (self w) = Some (pre ++ replicate len 0) ->
    exists w',
      for_each (map Z.of_nat (seq (length pre) len)) high_T_spins_step w = (Ok tt, w') /\
      spins (self w') = Some (pre ++ fst (draw_spins len (random_state w))) /\
      random_state w' = snd (draw_spins len (random_state w)) /\
      same_but_spins_and_generator w w'.
Proof.
  induction len as [|len IH]; intros pre w Hs.
  - cbn [seq map for_each draw_spins fst snd]. exists w.
    split; [reflexivity|]. split; [exact Hs|]. split; [reflexivity | apply same_but_refl].
  - cbn [seq map for_each draw_spins].
    assert (Hi : 0 <= Z.of_nat (length pre)
                 < Z.of_nat (length (pre ++ replicate (S len) 0)))
      by (rewrite length_app, length_replicate; lia).
    rewrite (bind_ok _ _ _ _ _ (high_T_spins_step_ok w _ (Z.of_nat (length pre)) Hs Hi)).
    destruct (rng_randint 0 1 (random_state w)) as [r g] eqn:Er. cbn [fst snd].
    rewrite Nat2Z.id.
    assert (Hins : <[length pre := 2 * r - 1]> (pre ++ replicate (S len) 0)
                   = (pre ++ [2 * r - 1]) ++ replicate len 0).
    { cbn [replicate]. rewrite <- app_assoc. cbn [app].
      replace (length pre) with (length pre + 0)%nat at 1 by lia.
      now rewrite insert_app_r. }
    rewrite Hins.
    set (w1 := with_self _ _).
    destruct (IH (pre ++ [2 * r - 1]) w1) as (w' & Hrun & Hs' & Hg' & Hsame);
      [reflexivity|].
    rewrite length_app, Nat.add_1_r in Hrun. cbn [length] in Hrun.
    exists w'. split; [exact Hrun|].
    change (random_state w1) with g in Hs', Hg'.
    destruct (draw_spins len g) as [rest g'']. cbn [fst snd] in *.
    split; [now rewrite Hs', <- app_assoc|]. split; [exact Hg'|].
    apply (same_but_trans w w1 w'); [apply same_but_step | exact Hsame].
Qed.

(** X6. On an object of a known variant [high_T_spins] completes; the spin
    array and the state in which it leaves the process-wide generator are
    those of [n_spins] draws from the seed, whatever the generator's state
    was; the lattice, [energy], [magnetization], the globals and the files
    are left as they were. *)
Theorem high_T_spins_effect (L c : Z) (tag : string) (m : Ising2D) (seed : Z)
    (w : world) :
  tag = "ising" \/ tag = "gauge" -> __init__ L c tag = Ok m ->
  same_lattice m (self w) ->
  exists n w',
    n_spins m = Some (Z.of_nat n) /\
    high_T_spins seed w = (Ok tt, w') /\
    spins (self w') = Some (fst (draw_spins n (rng_seed seed))) /\
    random_state w' = snd (draw_spins n (rng_seed seed)) /\
    same_but_spins_and_generator w w'.
Proof.
  intros Htag Hm Hsame.
  destruct (n_spins_of_known L tag Htag) as (n & Hn & Hpos).
  pose proof (init_inv L c tag m Hm) as (_ & _ & _ & Hns & _).
  rewrite Hn in Hns.
  assert (Hnw : n_spins (self w) = Some n)
    by (destruct Hsame as (_ & _ & _ & -> & _); exact Hns).
  unfold high_T_spins. unfold bind at 1, random_seed at 1. cbv iota beta.
  set (w0 := with_random_state (rng_seed seed) w).
  assert (Hn0 : n_spins (self w0) = Some n) by exact Hnw.
  rewrite (bind_ok _ _ _ _ _ (attr_ok _ _ _ _ Hn0)).
  unfold bind at 1, lift at 1, np_zeros.
  destruct (Z.ltb_spec n 0) as [|_]; [lia|]. cbv iota beta.
  rewrite (bind_ok _ _ _ _ _ (assign_ok _ _)).
  set (w1 := with_self _ w0).
  assert (Hn1 : n_spins (self w1) = Some n) by exact Hnw.
  rewrite (bind_ok _ _ _ _ _ (attr_ok _ _ _ _ Hn1)).
  destruct (high_T_spins_loop_world (Z.to_nat n) [] w1 eq_refl)
    as (w' & Hrun & Hs & Hg & Hframe).
  exists (Z.to_nat n), w'. split; [rewrite Hns; f_equal; lia|].
  split; [exact Hrun|]. split; [exact Hs|]. split; [exact Hg|].
  apply (same_but_trans w w1 w'); [repeat split | exact Hframe].
Qed.

End Frames.

(** ** [sweep] on the gauge model as a chain of trials *)

Lemma flip_spin_valued (s : list Z) (k : Z) :
  Ref.spin_valued s -> Ref.spin_valued (Spec.flip s k).
Proof.
  unfold Ref.spin_valued, Spec.flip, Spec.spin. intros Hs.
  destruct (decide (Z.to_nat k < length s)%nat) as [Hlt | Hge].
  - apply Forall_insert; [exact Hs|].
    destruct (lookup_lt_is_Some_2 s (Z.to_nat k) Hlt) as [x Hx].
    rewrite (nth_lookup_Some _ _ _ _ Hx).
    rewrite Forall_lookup in Hs. specialize (Hs _ _ Hx). lia.
  - rewrite list_insert_ge by lia. exact Hs.
Qed.

Section Chain.
Context `{RT : Runtime}.

Lemma gauge_trial_spin_valued (L c : Z) (temperature : float) (s : list Z) (g : rng) :
  Ref.spin_valued s ->
  Ref.spin_valued (fst (gauge_trial L c temperature (s, g))) /\
  length (fst (gauge_trial L c temperature (s, g))) = length s.
Proof.
  intros Hs. unfold gauge_trial.
  destruct (rng_randint 0 (2 * (L * L) - 1) g) as [k g1].
  destruct (Ref.gauge_deltaE L c s k <=? 0); cbn [fst].
  - split; [now apply flip_spin_valued | apply length_flip].
  - destruct (rng_random g1) as [u g2]. destruct (f_ltb _ _); cbn [fst].
    + split; [now apply flip_spin_valued | apply length_flip].
    + split; [exact Hs | reflexivity].
Qed.

Lemma gauge_chain_spin_valued (n : nat) (L c : Z) (temperature : float) :
  forall (s : list Z) (g : rng),
    Ref.spin_valued s ->
    Ref.spin_valued (fst (gauge_chain n L c temperature (s, g))) /\
    length (fst (gauge_chain n L c temperature (s, g))) = length s.
Proof.
  induction n as [|n IH]; intros s g Hs; cbn [gauge_chain].
  - split; [exact Hs | reflexivity].
  - destruct (gauge_trial_spin_valued L c temperature s g Hs) as (Hv & Hl).
    destruct (gauge_trial L c temperature (s, g)) as [s1 g1]. cbn [fst] in *.
    destruct (IH s1 g1 Hv) as (Hv' & Hl'). split; [exact Hv' | congruence].
Qed.

Section OnLattice.
Variables (L c : Z) (m : Ising2D) (temperature : float).
Hypothesis Hrng : randint_in_range.
Hypothesis HL : 0 < L.
Hypothesis Hm : __init__ L c "gauge" = Ok m.

(** One trial of [sweep] is one step of the chain. *)
Lemma sweep_trial_is_gauge_trial (w : world) (s : list Z) :
  same_lattice m (self w) -> holds_spins (self w) s ->
  exists w',
    sweep_trial temperature w = (Ok tt, w') /\
    holds_spins (self w') (fst (gauge_trial L c temperature (s, random_state w))) /\
    random_state w' = snd (gauge_trial L c temperature (s, random_state w)) /\
    same_but_spins_and_generator w w'.
Proof.
  intros Hsame Hspins.
  destruct (in_use_facts L c "gauge" m w s Hm Hsame Hspins)
    as (Htag & Hn & Hnb & Hc & Hs & Hns & Hlen).
  rewrite n_spins_gauge in Hlen. injection Hlen as Hlen. symmetry in Hlen.
  assert (Hpos : 0 < 2 * (L * L)) by nia.
  rewrite Hlen in Hns.
  rewrite (sweep_trial_run temperature w (2 * (L * L)) Hns Hpos).
  pose proof (Hrng 0 (2 * (L * L) - 1) (random_state w) ltac:(lia)) as Hk.
  unfold gauge_trial.
  destruct (rng_randint 0 (2 * (L * L) - 1) (random_state w)) as [k g1].
  cbn [fst snd] in *.
  set (w1 := with_random_state g1 w).
  assert (Hs1 : spins (self w1) = Some s) by exact Hs.
  assert (Hk' : 0 <= k < Z.of_nat (length s)) by lia.
  rewrite (bind_ok _ _ _ _ _
             (local_deltaE_gauge L w1 s k HL Htag Hnb Hs1 Hlen ltac:(lia))).
  change (coupling (self w1)) with (coupling (self w)). rewrite Hc.
  fold (Ref.gauge_deltaE L c s k).
  assert (Hflip : holds_spins (with_spins (Spec.flip s k) (self w)) (Spec.flip s k)).
  { split; [reflexivity|]. cbn. now rewrite length_flip, Hlen. }
  destruct (Z.leb_spec (Ref.gauge_deltaE L c s k) 0) as [Hle | Hgt].
  - rewrite (metropolis_flip_downhill temperature w1 s k Hs1 Hk' _ Hle).
    eexists. split; [reflexivity|]. cbn [fst snd].
    split; [exact Hflip|]. split; [reflexivity | repeat split].
  - rewrite (metropolis_flip_uphill temperature w1 s k Hs1 Hk' _ Hgt). cbv zeta.
    change (random_state w1) with g1.
    destruct (rng_random g1) as [u g2]. cbn [fst snd].
    destruct (f_ltb u _).
    + eexists. split; [reflexivity|]. cbn [fst snd].
      split; [exact Hflip|]. split; [reflexivity | repeat split].
    + eexists. split; [reflexivity|]. cbn [fst snd].
      split; [split; [exact Hs | now rewrite Hlen] |].
      split; [reflexivity|]. repeat split.
Qed.

(** The loop of [sweep] runs the chain for as many steps as it has turns. *)
Lemma sweep_loop_is_gauge_chain {A} (xs : list A) :
  forall (w : world) (s : list Z),
    same_lattice m (self w) -> holds_spins (self w) s ->
    exists w',
      for_each xs (fun _ => sweep_trial temperature) w = (Ok tt, w') /\
      holds_spins (self w')
        (fst (gauge_chain (length xs) L c temperature (s, random_state w))) /\
      random_state w'
        = snd (gauge_chain (length xs) L c temperature (s, random_state w)) /\
      same_but_spins_and_generator w w'.
Proof.
  induction xs as [|x xs IH]; intros w s Hsame Hspins; cbn [for_each length gauge_chain].
  - exists w. split; [reflexivity|]. split; [exact Hspins|].
    split; [reflexivity | apply same_but_refl].
  - destruct (sweep_trial_is_gauge_trial w s Hsame Hspins)
      as (w1 & Hrun & Hspins1 & Hg1 & Hframe1).
    rewrite (bind_ok _ _ _ _ _ Hrun).
    destruct (gauge_trial L c temperature (s, random_state w)) as [s1 g1].
    cbn [fst snd] in *.
    destruct (IH w1 s1 (same_but_same_lattice m w w1 Hframe1 Hsame) Hspins1)
      as (w' & Hrun' & Hspins' & Hg' & Hframe').
    rewrite Hg1 in Hspins', Hg'.
    exists w'. split; [exact Hrun'|]. split; [exact Hspins'|]. split; [exact Hg'|].
    now apply (same_but_trans w w1 w').
Qed.

End OnLattice.

(** X7. On the gauge model of a lattice of size [L > 0], [sweep] completes
    and is [n_spins] steps of the Metropolis chain on the pair of the
    configuration and the generator state; the lattice, the stored [energy]
    and [magnetization] (which therefore go stale), the globals and the files
    are left as they were. *)
Theorem sweep_is_gauge_chain (temperature : float) (L c : Z) (m : Ising2D)
    (w : world) (s : list Z) :
  randint_in_range -> 0 < L -> __init__ L c "gauge" = Ok m ->
  same_lattice m (self w) -> holds_spins (self w) s ->
  exists w',
    sweep temperature w = (Ok tt, w') /\
    spins (self w')
      = Some (fst (gauge_chain (length s) L c temperature (s, random_state w))) /\
    random_state w'
      = snd (gauge_chain (length s) L c temperature (s, random_state w)) /\
    same_but_spins_and_generator w w'.
Proof.
  intros Hrng HL Hm Hsame Hspins. unfold sweep.
  rewrite (bind_ok _ _ _ _ _ (attr_ok _ _ _ _ (proj2 Hspins))).
  destruct (sweep_loop_is_gauge_chain L c m temperature Hrng HL Hm
              (range (Z.of_nat (length s))) w s Hsame Hspins)
    as (w' & Hrun & (Hs' & _) & Hg' & Hframe).
  rewrite length_range, Nat2Z.id in Hs', Hg'.
  exists w'. repeat split; try assumption; apply Hframe.
Qed.

(** X8. [sweep] on the gauge model keeps the configuration an array of
    [+1] and [-1] entries of the same length. *)
Theorem sweep_keeps_spin_values (temperature : float) (L c : Z) (m : Ising2D)
    (w : world) (s : list Z) :
  randint_in_range -> 0 < L -> __init__ L c "gauge" = Ok m ->
  same_lattice m (self w) -> holds_spins (self w) s -> Ref.spin_valued s ->
  exists w' s',
    sweep temperature w = (Ok tt, w') /\ holds_spins (self w') s' /\
    Ref.spin_valued s' /\ length s' = length s.
Proof.
  intros Hrng HL Hm Hsame Hspins Hval. unfold sweep.
  rewrite (bind_ok _ _ _ _ _ (attr_ok _ _ _ _ (proj2 Hspins))).
  destruct (sweep_loop_is_gauge_chain L c m temperature Hrng HL Hm
              (range (Z.of_nat (length s))) w s Hsame Hspins)
    as (w' & Hrun & Hspins' & _).
  destruct (gauge_chain_spin_valued (length (range (Z.of_nat (length s)))) L c temperature
              s (random_state w) Hval) as (Hval' & Hlen').
  eexists w', _. split; [exact Hrun|]. split; [exact Hspins'|]. split; assumption.
Qed.

(** X9. [high_T_spins] with a seed followed by [sweep] gives the same
    configuration and the same generator state on any two objects constructed
    alike, whatever was done with them and with the generator before. *)
Theorem seeded_sweep_reproducible (temperature : float) (L c : Z) (m : Ising2D)
    (seed : Z) (w1 w2 : world) :
  randint_in_range -> 0 < L -> __init__ L c "gauge" = Ok m ->
  same_lattice m (self w1) -> same_lattice m (self w2) ->
  exists w1' w2' s,
    bind (high_T_spins seed) (fun _ => sweep temperature) w1 = (Ok tt, w1') /\
    bind (high_T_spins seed) (fun _ => sweep temperature) w2 = (Ok tt, w2') /\
    spins (self w1') = Some s /\ spins (self w2') = Some s /\
    random_state w1' = random_state w2'.
Proof.
  intros Hrng HL Hm Hsame1 Hsame2.
  pose proof (init_inv L c "gauge" m Hm) as (_ & _ & _ & Hns & _).
  rewrite n_spins_gauge in Hns.
  assert (Hpos : 0 <= 2 * (L * L)) by nia.
  assert (Hready : forall w, same_lattice m (self w) ->
            exists w', high_T_spins seed w = (Ok tt, w') /\
              same_lattice m (self w') /\
              holds_spins (self w')
                (fst (draw_spins (Z.to_nat (2 * (L * L))) (rng_seed seed))) /\
              random_state w'
                = snd (draw_spins (Z.to_nat (2 * (L * L))) (rng_seed seed))).
  { intros w Hsame.
    assert (Hnw : n_spins (self w) = Some (2 * (L * L)))
      by (destruct Hsame as (_ & _ & _ & -> & _); exact Hns).
    unfold high_T_spins. unfold bind at 1, random_seed at 1. cbv iota beta.
    set (w0 := with_random_state (rng_seed seed) w).
    assert (Hn0 : n_spins (self w0) = Some (2 * (L * L))) by exact Hnw.
    rewrite (bind_ok _ _ _ _ _ (attr_ok _ _ _ _ Hn0)).
    unfold bind at 1, lift at 1, np_zeros.
    destruct (Z.ltb_spec (2 * (L * L)) 0) as [|_]; [lia|]. cbv iota beta.
    rewrite (bind_ok _ _ _ _ _ (assign_ok _ _)).
    set (w1' := with_self _ w0).
    assert (Hn1 : n_spins (self w1') = Some (2 * (L * L))) by exact Hnw.
    rewrite (bind_ok _ _ _ _ _ (attr_ok _ _ _ _ Hn1)).
    destruct (high_T_spins_loop_world (Z.to_nat (2 * (L * L))) [] w1' eq_refl)
      as (w' & Hrun & Hs & Hg & Hframe).
    exists w'. split; [exact Hrun|].
    assert (Hsame' : same_lattice m (self w'))
      by (apply (same_but_same_lattice m w1' w' Hframe); exact Hsame).
    split; [exact Hsame'|]. split; [|exact Hg].
    split; [exact Hs|]. destruct Hsame' as (_ & _ & _ & -> & _).
    rewrite Hns, draw_spins_length. f_equal. lia. }
  destruct (Hready w1 Hsame1) as (u1 & Hrun1 & Hs1 & Hspins1 & Hg1).
  destruct (Hready w2 Hsame2) as (u2 & Hrun2 & Hs2 & Hspins2 & Hg2).
  set (s0 := fst (draw_spins (Z.to_nat (2 * (L * L))) (rng_seed seed))) in *.
  assert (Hsweep : forall u, same_lattice m (self u) -> holds_spins (self u) s0 ->
            exists u', sweep temperature u = (Ok tt, u') /\
              spins (self u')
                = Some (fst (gauge_chain (length s0) L c temperature (s0, random_state u))) /\
              random_state u'
                = snd (gauge_chain (length s0) L c temperature (s0, random_state u))).
  { intros u Hsame Hspins. unfold sweep.
    rewrite (bind_ok _ _ _ _ _ (attr_ok _ _ _ _ (proj2 Hspins))).
    destruct (sweep_loop_is_gauge_chain L c m temperature Hrng HL Hm
                (range (Z.of_nat (length s0))) u s0 Hsame Hspins)
      as (u' & Hrun & (Hs' & _) & Hg' & _).
    rewrite length_range, Nat2Z.id in Hs', Hg'.
    exists u'. repeat split; assumption. }
  destruct (Hsweep u1 Hs1 Hspins1) as (w1' & Hsw1 & Hres1 & Hgen1).
  destruct (Hsweep u2 Hs2 Hspins2) as (w2' & Hsw2 & Hres2 & Hgen2).
  exists w1', w2', (fst (gauge_chain (length s0) L c temperature (s0, random_state u1))).
  rewrite (bind_ok _ _ _ _ _ Hrun1), (bind_ok _ _ _ _ _ Hrun2).
  split; [exact Hsw1|]. split; [exact Hsw2|]. split; [exact Hres1|].
  rewrite Hg1, <- Hg2. split; [exact Hres2|]. now rewrite Hgen1, Hgen2, Hg1, Hg2.
Qed.

End Chain.

(** ** Energies of particular and of related configurations *)

Lemma spin_of_spin_valued (s : list Z) (i : Z) :
  Ref.spin_valued s -> 0 <= i < Z.of_nat (length s) ->
  Spec.spin s i = 1 \/ Spec.spin s i = -1.
Proof.
  intros Hs Hi. unfold Spec.spin.
  destruct (lookup_lt_is_Some_2 s (Z.to_nat i)) as [x Hx]; [lia|].
  rewrite (nth_lookup_Some _ _ _ _ Hx).
  unfold Ref.spin_valued in Hs. rewrite Forall_lookup in Hs. exact (Hs _ _ Hx).
Qed.

Lemma spin_negate (s : list Z) (i : Z) : Spec.spin (Ref.negate s) i = - Spec.spin s i.
Proof.
  unfold Spec.spin, Ref.negate. change 0 with (- 0) at 1. apply List.map_nth.
Qed.

Lemma zsum_negate (s : list Z) : Spec.zsum (Ref.negate s) = - Spec.zsum s.
Proof.
  unfold Spec.zsum, Ref.negate. induction s as [|x s IH]; cbn [map foldr]; lia.
Qed.

Lemma length_negate (s : list Z) : length (Ref.negate s) = length s.
Proof. apply length_map. Qed.

Lemma zsum_map_bounds {A} (f : A -> Z) (b : Z) (l : list A) :
  (forall x, x ∈ l -> - b <= f x <= b) ->
  - (b * Z.of_nat (length l)) <= Spec.zsum (map f l) <= b * Z.of_nat (length l).
Proof.
  unfold Spec.zsum. induction l as [|x l IH]; intros H; cbn [map foldr length].
  - lia.
  - rewrite Nat2Z.inj_succ. pose proof (H x ltac:(constructor)).
    assert (Hl : forall y, y ∈ l -> - b <= f y <= b) by (intros y Hy; apply H; now constructor).
    specialize (IH Hl). lia.
Qed.

Lemma zsum_map_const {A} (f : A -> Z) (a : Z) (l : list A) :
  (forall x, x ∈ l -> f x = a) -> Spec.zsum (map f l) = a * Z.of_nat (length l).
Proof.
  unfold Spec.zsum. induction l as [|x l IH]; intros H; cbn [map foldr length].
  - lia.
  - rewrite Nat2Z.inj_succ, (H x) by constructor.
    rewrite IH by (intros y Hy; apply H; now constructor). lia.
Qed.

Lemma plaquette_of_spin_valued (L : Z) (s : list Z) (p : Z) :
  0 < L -> Z.of_nat (length s) = 2 * (L * L) -> Ref.spin_valued s -> 0 <= p < L * L ->
  Spec.plaquette L s p = 1 \/ Spec.plaquette L s p = -1.
Proof.
  intros HL Hlen Hs Hp. unfold Spec.plaquette.
  pose proof (down_range L HL p Hp). pose proof (right_range L HL p Hp).
  destruct (spin_of_spin_valued s (2 * p) Hs ltac:(lia)) as [-> | ->];
    destruct (spin_of_spin_valued s (2 * p + 1) Hs ltac:(lia)) as [-> | ->];
    destruct (spin_of_spin_valued s (2 * Spec.down L p) Hs ltac:(lia)) as [-> | ->];
    destruct (spin_of_spin_valued s (2 * Spec.right L p + 1) Hs ltac:(lia)) as [-> | ->];
    lia.
Qed.

Lemma plaquette_negate (L : Z) (s : list Z) (p : Z) :
  Spec.plaquette L (Ref.negate s) p = Spec.plaquette L s p.
Proof. unfold Spec.plaquette. rewrite !spin_negate. ring. Qed.

Lemma gauge_energy_negate (L c : Z) (s : list Z) :
  Spec.gauge_energy L c (Ref.negate s) = Spec.gauge_energy L c s.
Proof.
  unfold Spec.gauge_energy. apply zsum_map_ext. intros p _. now rewrite plaquette_negate.
Qed.

Lemma ising_energy_negate (L c : Z) (s : list Z) :
  Spec.ising_energy L c (Ref.negate s) = Spec.ising_energy L c s.
Proof.
  unfold Spec.ising_energy. apply zsum_map_ext. intros i _. rewrite !spin_negate. ring.
Qed.

Lemma abs_bounds (c x : Z) : x = 1 \/ x = -1 -> - Z.abs c <= - c * x <= Z.abs c.
Proof. intros [-> | ->]; lia. Qed.

Section Energies.
Context `{RT : Runtime}.

Lemma energy_after_gauge (L c : Z) (m : Ising2D) (w : world) (s : list Z) :
  0 < L -> __init__ L c "gauge" = Ok m ->
  same_lattice m (self w) -> holds_spins (self w) s ->
  get_energy w = (Ok tt, with_self (with_energy (Spec.gauge_energy L c s) (self w)) w) /\
  Z.of_nat (length s) = 2 * (L * L).
Proof.
  intros HL Hm Hsame Hspins.
  destruct (in_use_facts L c "gauge" m w s Hm Hsame Hspins)
    as (Htag & Hn & Hnb & Hc & Hs & _ & Hlen).
  rewrite n_spins_gauge in Hlen. injection Hlen as Hlen. symmetry in Hlen.
  split; [|exact Hlen].
  rewrite (get_energy_gauge L w s HL Hn Hnb Hs Htag Hlen). now rewrite Hc.
Qed.

Lemma energy_after_ising (L c : Z) (m : Ising2D) (w : world) (s : list Z) :
  0 < L -> __init__ L c "ising" = Ok m ->
  same_lattice m (self w) -> holds_spins (self w) s ->
  get_energy w = (Ok tt, with_self (with_energy (Spec.ising_energy L c s) (self w)) w) /\
  Z.of_nat (length s) = L * L.
Proof.
  intros HL Hm Hsame Hspins.
  destruct (in_use_facts L c "ising" m w s Hm Hsame Hspins)
    as (Htag & Hn & Hnb & Hc & Hs & _ & Hlen).
  rewrite n_spins_ising in Hlen. injection Hlen as Hlen. symmetry in Hlen.
  split; [|exact Hlen].
  rewrite (get_energy_ising L w s HL Hn Hnb Hs Htag Hlen). now rewrite Hc.
Qed.

(** X10. For the gauge model [get_energy] stores minus the coupling times the
    sum over all sites of the plaquette products.  On a configuration of [+1]
    and [-1] entries it lies between [-|coupling| * n_sites] and
    [|coupling| * n_sites], and it is [-coupling * n_sites] when every
    plaquette product is [+1], as when all links are aligned. *)
Theorem get_energy_gauge_sum (L c : Z) (m : Ising2D) (w : world) (s : list Z) :
  0 < L -> __init__ L c "gauge" = Ok m ->
  same_lattice m (self w) -> holds_spins (self w) s ->
  get_energy w
    = (Ok tt, with_self (with_energy (Spec.gauge_energy L c s) (self w)) w) /\
  Spec.gauge_energy L c s
    = - c * Spec.zsum (map (Spec.plaquette L s) (range (n_sites m))) /\
  (Ref.spin_valued s ->
     - (Z.abs c * n_sites m) <= Spec.gauge_energy L c s <= Z.abs c * n_sites m) /\
  ((forall p, 0 <= p < n_sites m -> Spec.plaquette L s p = 1) ->
     Spec.gauge_energy L c s = - c * n_sites m) /\
  (Forall (fun x => x = 1) s \/ Forall (fun x => x = -1) s ->
     Spec.gauge_energy L c s = - c * n_sites m).
Proof.
  intros HL Hm Hsame Hspins.
  destruct (energy_after_gauge L c m w s HL Hm Hsame Hspins) as (Hrun & Hlen).
  pose proof (init_inv L c "gauge" m Hm) as (_ & Hn & _). rewrite Hn.
  assert (Hsites : Z.of_nat (length (range (L * L))) = L * L)
    by (rewrite length_range; nia).
  assert (Hone : (forall p, 0 <= p < L * L -> Spec.plaquette L s p = 1) ->
                 Spec.gauge_energy L c s = - c * (L * L)).
  { intros Hall. unfold Spec.gauge_energy.
    rewrite (zsum_map_const _ (- c)), Hsites; [reflexivity|].
    intros p Hp. apply elem_of_range in Hp. rewrite Hall by exact Hp. lia. }
  split; [exact Hrun|]. split; [|split; [|split]].
  - unfold Spec.gauge_energy.
    now rewrite (zsum_map_scale (- c) (Spec.plaquette L s)).
  - intros Hval. unfold Spec.gauge_energy. rewrite <- Hsites at 1 4.
    apply zsum_map_bounds. intros p Hp. apply elem_of_range in Hp.
    apply abs_bounds. now apply plaquette_of_spin_valued.
  - exact Hone.
  - intros Hall. apply Hone. intros p Hp. unfold Spec.plaquette.
    pose proof (down_range L HL p Hp). pose proof (right_range L HL p Hp).
    assert (Hspin : forall i, 0 <= i < Z.of_nat (length s) ->
              Spec.spin s i = if decide (Forall (fun x => x = 1) s) then 1 else -1).
    { intros i Hi. unfold Spec.spin.
      destruct (lookup_lt_is_Some_2 s (Z.to_nat i)) as [x Hx]; [lia|].
      rewrite (nth_lookup_Some _ _ _ _ Hx).
      destruct (decide (Forall (fun x => x = 1) s)) as [H1 | Hn1].
      - rewrite Forall_lookup in H1. exact (H1 _ _ Hx).
      - destruct Hall as [H1 | Hm1]; [contradiction|].
        rewrite Forall_lookup in Hm1. exact (Hm1 _ _ Hx). }
    rewrite !Hspin by lia. destruct (decide _); reflexivity.
Qed.

(** X11. For the Ising model on a lattice of any size [L > 0]: with all
    spins equal, [get_energy] stores [-2 * coupling * n_sites]; on any
    configuration of [+1] and [-1] entries the stored energy lies between
    [-2 * |coupling| * n_sites] and [2 * |coupling| * n_sites]. *)
Theorem get_energy_ising_extremes (L c : Z) (m : Ising2D) (w : world) (s : list Z) :
  0 < L -> __init__ L c "ising" = Ok m ->
  same_lattice m (self w) -> holds_spins (self w) s -> Ref.spin_valued s ->
  exists e,
    get_energy w = (Ok tt, with_self (with_energy e (self w)) w) /\
    - (2 * Z.abs c * n_sites m) <= e <= 2 * Z.abs c * n_sites m /\
    (Forall (fun x => x = 1) s \/ Forall (fun x => x = -1) s ->
       e = - 2 * c * n_sites m).
Proof.
  intros HL Hm Hsame Hspins Hval.
  destruct (energy_after_ising L c m w s HL Hm Hsame Hspins) as (Hrun & Hlen).
  pose proof (init_inv L c "ising" m Hm) as (_ & Hn & _). rewrite Hn.
  assert (Hsites : Z.of_nat (length (range (L * L))) = L * L)
    by (rewrite length_range; nia).
  exists (Spec.ising_energy L c s). split; [exact Hrun|]. split.
  - unfold Spec.ising_energy.
    replace (2 * Z.abs c * (L * L))
      with (2 * Z.abs c * Z.of_nat (length (range (L * L)))) by (rewrite Hsites; ring).
    apply zsum_map_bounds. intros i Hi. apply elem_of_range in Hi.
    pose proof (right_range L HL i Hi). pose proof (down_range L HL i Hi).
    destruct (spin_of_spin_valued s i Hval ltac:(lia)) as [-> | ->];
      destruct (spin_of_spin_valued s (Spec.right L i) Hval ltac:(lia)) as [-> | ->];
      destruct (spin_of_spin_valued s (Spec.down L i) Hval ltac:(lia)) as [-> | ->];
      lia.
  - intros Hall. unfold Spec.ising_energy.
    rewrite (zsum_map_const _ (- 2 * c)), Hsites; [ring|].
    intros i Hi. apply elem_of_range in Hi.
    pose proof (right_range L HL i Hi). pose proof (down_range L HL i Hi).
    assert (Hspin : forall j, 0 <= j < Z.of_nat (length s) ->
              Spec.spin s j = if decide (Forall (fun x => x = 1) s) then 1 else -1).
    { intros j Hj. unfold Spec.spin.
      destruct (lookup_lt_is_Some_2 s (Z.to_nat j)) as [x Hx]; [lia|].
      rewrite (nth_lookup_Some _ _ _ _ Hx).
      destruct (decide (Forall (fun x => x = 1) s)) as [H1 | Hn1].
      - rewrite Forall_lookup in H1. exact (H1 _ _ Hx).
      - destruct Hall as [H1 | Hm1]; [contradiction|].
        rewrite Forall_lookup in Hm1. exact (Hm1 _ _ Hx). }
    rewrite !Hspin by lia. destruct (decide _); lia.
Qed.

(** X12. Negating every spin changes neither the energy that [get_energy]
    stores, for either variant, nor the length of the array, and it negates
    the sum that [get_magnetization] stores. *)
Theorem global_sign_flip (L c : Z) (tag : string) (m : Ising2D) (w : world)
    (s : list Z) :
  0 < L -> tag = "ising" \/ tag = "gauge" -> __init__ L c tag = Ok m ->
  same_lattice m (self w) -> holds_spins (self w) s ->
  let w' := with_self (with_spins (Ref.negate s) (self w)) w in
  exists e M,
    energy_after w = Some e /\ energy_after w' = Some e /\
    get_magnetization w = (Ok tt, with_self (with_magnetization M (self w)) w) /\
    get_magnetization w'
      = (Ok tt, with_self (with_magnetization (- M) (self w')) w').
Proof.
  intros HL Htag Hm Hsame Hspins w'.
  assert (Hspins' : holds_spins (self w') (Ref.negate s)).
  { destruct Hspins as (Hs & Hlen). split; [reflexivity|].
    cbn. now rewrite length_negate. }
  assert (Hsame' : same_lattice m (self w')) by exact Hsame.
  assert (Hmag : forall u t, spins (self u) = Some t ->
            get_magnetization u
            = (Ok tt, with_self (with_magnetization (Spec.zsum t) (self u)) u)).
  { intros u t Ht. unfold get_magnetization.
    rewrite (bind_ok _ _ _ _ _ (attr_ok _ _ _ _ Ht)). reflexivity. }
  unfold energy_after. destruct Htag as [-> | ->].
  - destruct (energy_after_ising L c m w s HL Hm Hsame Hspins) as (Hrun & _).
    destruct (energy_after_ising L c m w' _ HL Hm Hsame' Hspins') as (Hrun' & _).
    exists (Spec.ising_energy L c s), (Spec.zsum s).
    rewrite Hrun, Hrun', ising_energy_negate. cbn [snd self with_self energy with_energy].
    repeat split.
    + apply Hmag, Hspins.
    + rewrite <- zsum_negate. now apply Hmag.
  - destruct (energy_after_gauge L c m w s HL Hm Hsame Hspins) as (Hrun & _).
    destruct (energy_after_gauge L c m w' _ HL Hm Hsame' Hspins') as (Hrun' & _).
    exists (Spec.gauge_energy L c s), (Spec.zsum s).
    rewrite Hrun, Hrun', gauge_energy_negate. cbn [snd self with_self energy with_energy].
    repeat split.
    + apply Hmag, Hspins.
    + rewrite <- zsum_negate. now apply Hmag.
Qed.

End Energies.

(** ** A trial of the gauge model and the energy *)

Lemma flip_flip (s : list Z) (k : Z) :
  0 <= k < Z.of_nat (length s) -> Spec.flip (Spec.flip s k) k = s.
Proof.
  intros Hk. unfold Spec.flip at 1. rewrite spin_flip by lia. rewrite Z.eqb_refl.
  unfold Spec.flip. rewrite list_insert_insert_eq, Z.opp_involutive.
  apply list_insert_id. unfold Spec.spin.
  destruct (lookup_lt_is_Some_2 s (Z.to_nat k)) as [x Hx]; [lia|].
  now rewrite (nth_lookup_Some _ _ _ _ Hx).
Qed.

Lemma gauge_deltaE_flip (L c : Z) (s : list Z) (k : Z) :
  2 <= L -> Z.of_nat (length s) = 2 * (L * L) -> 0 <= k < 2 * (L * L) ->
  Ref.gauge_deltaE L c (Spec.flip s k) k = - Ref.gauge_deltaE L c s k.
Proof.
  intros HL Hlen Hk. unfold Ref.gauge_deltaE.
  rewrite (plaquette_flip L s k HL Hlen Hk _ (first_range L k Hk)).
  rewrite (plaquette_flip L s k HL Hlen Hk _ (second_range L k ltac:(lia) Hk)).
  rewrite !Z.eqb_refl, orb_true_r. cbn [orb]. ring.
Qed.

Lemma gauge_deltaE_energy (L c : Z) (s : list Z) (k : Z) :
  2 <= L -> Z.of_nat (length s) = 2 * (L * L) -> 0 <= k < 2 * (L * L) ->
  Spec.gauge_energy L c (Spec.flip s k) = Spec.gauge_energy L c s + Ref.gauge_deltaE L c s k.
Proof.
  intros HL Hlen Hk. pose proof (gauge_energy_flip L s k HL Hlen Hk c) as H.
  unfold Ref.gauge_deltaE. lia.
Qed.

Section TrialEnergy.
Context `{RT : Runtime}.

(** X13. On a gauge lattice of size [L >= 2] a trial of [sweep] on the link
    [k] it draws either negates [spins[k]], and then the energy of
    [get_energy] changes by exactly the [deltaE] of the trial, or leaves the
    configuration and the energy as they were, which happens only for
    [deltaE > 0]; so a trial with [deltaE <= 0] never raises the energy. *)
Theorem sweep_trial_energy (temperature : float) (L c : Z) (m : Ising2D)
    (w : world) (s : list Z) :
  randint_in_range -> 2 <= L -> __init__ L c "gauge" = Ok m ->
  same_lattice m (self w) -> holds_spins (self w) s ->
  let k := fst (rng_randint 0 (2 * (L * L) - 1) (random_state w)) in
  let dE := Ref.gauge_deltaE L c s k in
  exists w' e e',
    sweep_trial temperature w = (Ok tt, w') /\
    energy_after w = Some e /\ energy_after w' = Some e' /\
    ((spins (self w') = Some (Spec.flip s k) /\ e' = e + dE) \/
     (spins (self w') = Some s /\ e' = e /\ 0 < dE)) /\
    (dE <= 0 -> e' <= e).
Proof.
  intros Hrng HL Hm Hsame Hspins k dE.
  assert (HL0 : 0 < L) by lia.
  destruct (energy_after_gauge L c m w s HL0 Hm Hsame Hspins) as (Hrun & Hlen).
  destruct (sweep_trial_is_gauge_trial L c m temperature Hrng HL0 Hm w s Hsame Hspins)
    as (w' & Htrial & Hspins' & _ & Hframe).
  pose proof (same_but_same_lattice m w w' Hframe Hsame) as Hsame'.
  pose proof (Hrng 0 (2 * (L * L) - 1) (random_state w) ltac:(lia)) as Hk.
  fold k in Hk.
  assert (Hk' : 0 <= k < 2 * (L * L)) by lia.
  destruct (energy_after_gauge L c m w' _ HL0 Hm Hsame' Hspins') as (Hrun' & _).
  exists w', (Spec.gauge_energy L c s),
    (Spec.gauge_energy L c (fst (gauge_trial L c temperature (s, random_state w)))).
  unfold energy_after. rewrite Hrun, Hrun'. cbn [snd self with_self energy with_energy].
  split; [exact Htrial|]. split; [reflexivity|]. split; [reflexivity|].
  destruct Hspins' as (Hs' & _). rewrite Hs'. clear Hs' Hrun' Htrial Hframe Hsame'.
  pose proof (gauge_deltaE_energy L c s k HL Hlen Hk') as Hflip. fold dE in Hflip.
  unfold gauge_trial.
  destruct (rng_randint 0 (2 * (L * L) - 1) (random_state w)) as [k0 g1].
  cbn [fst] in k. subst k. fold dE.
  destruct (Z.leb_spec dE 0) as [Hle | Hgt]; cbn [fst].
  - split; [left; split; [reflexivity | exact Hflip] | lia].
  - destruct (rng_random g1) as [u g2]. destruct (f_ltb u _); cbn [fst].
    + split; [left; split; [reflexivity | exact Hflip] | lia].
    + split; [right; repeat split; lia | lia].
Qed.

(** X14. On a gauge lattice of size [L >= 2], negating [spins[k]] twice gives
    the configuration back, and the [deltaE] that [sweep] computes for [k]
    after the flip is minus the one it computes before: undoing a move costs
    what the move gained. *)
Theorem flip_is_reversible (L c : Z) (m : Ising2D) (w : world) (s : list Z) (k : Z) :
  2 <= L -> __init__ L c "gauge" = Ok m ->
  same_lattice m (self w) -> holds_spins (self w) s -> 0 <= k < 2 * (L * L) ->
  exists dE w1 w2,
    local_deltaE k w = (Ok (Some dE), w) /\
    flip_spin k w = (Ok tt, w1) /\
    local_deltaE k w1 = (Ok (Some (- dE)), w1) /\
    flip_spin k w1 = (Ok tt, w2) /\
    spins (self w2) = Some s.
Proof.
  intros HL Hm Hsame Hspins Hk.
  assert (HL0 : 0 < L) by lia.
  destruct (in_use_facts L c "gauge" m w s Hm Hsame Hspins)
    as (Htag & Hn & Hnb & Hc & Hs & _ & Hlen).
  rewrite n_spins_gauge in Hlen. injection Hlen as Hlen. symmetry in Hlen.
  assert (Hk' : 0 <= k < Z.of_nat (length s)) by lia.
  set (w1 := with_self (with_spins (Spec.flip s k) (self w)) w).
  set (w2 := with_self (with_spins (Spec.flip (Spec.flip s k) k) (self w1)) w1).
  assert (Hs1 : spins (self w1) = Some (Spec.flip s k)) by reflexivity.
  assert (Hlen1 : Z.of_nat (length (Spec.flip s k)) = 2 * (L * L))
    by now rewrite length_flip.
  exists (Ref.gauge_deltaE L c s k), w1, w2.
  split; [|split; [|split; [|split]]].
  - rewrite (local_deltaE_gauge L w s k HL0 Htag Hnb Hs Hlen Hk). now rewrite Hc.
  - apply (flip_spin_ok s k Hk' w Hs).
  - rewrite (local_deltaE_gauge L w1 (Spec.flip s k) k HL0 Htag Hnb Hs1 Hlen1 Hk).
    change (coupling (self w1)) with (coupling (self w)). rewrite Hc.
    fold (Ref.gauge_deltaE L c (Spec.flip s k) k).
    now rewrite (gauge_deltaE_flip L c s k HL Hlen Hk).
  - apply (flip_spin_ok (Spec.flip s k) k ltac:(rewrite length_flip; lia) w1 Hs1).
  - subst w2. cbn [self with_self spins with_spins]. now rewrite flip_flip.
Qed.

(** X15. On a gauge configuration of [+1] and [-1] entries the [deltaE] of
    a trial is one of [-4 * coupling], [0] and [4 * coupling]. *)
Theorem gauge_deltaE_values (L c : Z) (m : Ising2D) (w : world) (s : list Z) (k : Z) :
  0 < L -> __init__ L c "gauge" = Ok m ->
  same_lattice m (self w) -> holds_spins (self w) s -> Ref.spin_valued s ->
  0 <= k < 2 * (L * L) ->
  exists dE,
    local_deltaE k w = (Ok (Some dE), w) /\
    (dE = - 4 * c \/ dE = 0 \/ dE = 4 * c).
Proof.
  intros HL Hm Hsame Hspins Hval Hk.
  destruct (in_use_facts L c "gauge" m w s Hm Hsame Hspins)
    as (Htag & Hn & Hnb & Hc & Hs & _ & Hlen).
  rewrite n_spins_gauge in Hlen. injection Hlen as Hlen. symmetry in Hlen.
  eexists. split.
  - rewrite (local_deltaE_gauge L w s k HL Htag Hnb Hs Hlen Hk). rewrite Hc. reflexivity.
  - destruct (plaquette_of_spin_valued L s _ HL Hlen Hval (first_range L k Hk)) as [-> | ->];
      destruct (plaquette_of_spin_valued L s _ HL Hlen Hval (second_range L k HL Hk))
        as [-> | ->]; lia.
Qed.

End TrialEnergy.

(** ** What the writer puts on disk *)

Lemma append_assoc (a b c : string) : (a +:+ b) +:+ c = a +:+ (b +:+ c).
Proof.
  induction a as [|x a IH]; [reflexivity|].
  change (String x ((a +:+ b) +:+ c) = String x (a +:+ (b +:+ c))).
  now rewrite IH.
Qed.

Lemma append_nil_r (a : string) : a +:+ EmptyString = a.
Proof.
  induction a as [|x a IH]; [reflexivity|].
  change (String x (a +:+ EmptyString) = String x a).
  now rewrite IH.
Qed.

Lemma content_insert (fs : gmap string string) (name : string) (t : string) :
  Ref.content (<[name := t]> fs) name = t.
Proof. unfold Ref.content. now rewrite lookup_insert_eq. Qed.

Lemma content_insert_ne (fs : gmap string string) (name name' : string) (t : string) :
  name <> name' -> Ref.content (<[name := t]> fs) name' = Ref.content fs name'.
Proof. intros Hne. unfold Ref.content. now rewrite lookup_insert_ne. Qed.

Lemma content_reopen (fs : gmap string string) (name name' : string) :
  Ref.content (<[name := Ref.content fs name]> fs) name' = Ref.content fs name'.
Proof.
  destruct (decide (name = name')) as [<- | Hne].
  - apply content_insert.
  - now apply content_insert_ne.
Qed.

Lemma map_spin_range (s : list Z) :
  map (Spec.spin s) (range (Z.of_nat (length s))) = s.
Proof.
  apply list_eq. intros i.
  change (map (Spec.spin s) (range (Z.of_nat (length s))))
    with (Spec.spin s <$> range (Z.of_nat (length s))).
  rewrite list_lookup_fmap.
  destruct (decide (i < length s)%nat) as [Hlt | Hge].
  - replace i with (Z.to_nat (Z.of_nat i)) at 1 by lia.
    rewrite lookup_range by lia. cbn [fmap option_fmap option_map].
    destruct (lookup_lt_is_Some_2 s i Hlt) as [x Hx]. rewrite Hx. f_equal.
    unfold Spec.spin. rewrite Nat2Z.id. now apply nth_lookup_Some.
  - rewrite (lookup_ge_None_2 s i) by lia.
    rewrite lookup_ge_None_2; [reflexivity|]. rewrite length_range. lia.
Qed.

Lemma encode_bit (flip v : Z) :
  (flip = 1 \/ flip = -1) -> (v = 1 \/ v = -1) ->
  Ref.encode flip v = if flip * v =? 1 then 1 else 0.
Proof. intros [-> | ->] [-> | ->]; reflexivity. Qed.

Section Writing.
Context `{RT : Runtime}.

Lemma destination_distinct (bins n_bins : Z) (train_frac : float) :
  fst (destination bins n_bins train_frac) <> snd (destination bins n_bins train_frac).
Proof. unfold destination. destruct (f_ltb _ _); discriminate. Qed.

Lemma train_test_configs_run (bins n_bins : Z) (train_frac : float) (w : world) :
  exists w',
    train_test_configs bins n_bins train_frac w
    = (Ok (destination bins n_bins train_frac), w') /\
    same_but_files w w' /\
    is_Some (files w' !! fst (destination bins n_bins train_frac)) /\
    is_Some (files w' !! snd (destination bins n_bins train_frac)) /\
    (forall name, Ref.content (files w') name = Ref.content (files w) name) /\
    (forall name,
       name <> fst (destination bins n_bins train_frac) ->
       name <> snd (destination bins n_bins train_frac) ->
       files w' !! name = files w !! name).
Proof.
  unfold train_test_configs, destination.
  destruct (f_ltb _ _);
    (unfold bind, open_append, ret; cbn [fst snd files with_files];
     eexists; split; [reflexivity|];
     split; [repeat split|];
     cbn [files with_files];
     split; [rewrite lookup_insert_ne by discriminate; rewrite lookup_insert_eq; eauto|];
     split; [rewrite lookup_insert_eq; eauto|];
     split;
     [ intros name;
       match goal with
       | |- context [<[?x := default EmptyString (files w !! ?x)]> (files w)] =>
           change (default EmptyString (files w !! x)) with (Ref.content (files w) x)
       end;
       match goal with
       | |- Ref.content (<[?y := default EmptyString (?fs1 !! ?y)]> ?fs1) _ = _ =>
           change (default EmptyString (fs1 !! y)) with (Ref.content fs1 y)
       end;
       now rewrite !content_reopen
     | intros name Hx Hy; now rewrite !lookup_insert_ne by congruence ]).
Qed.

Lemma train_test_configs_reopen (bins n_bins : Z) (train_frac : float) (w : world) :
  is_Some (files w !! fst (destination bins n_bins train_frac)) ->
  is_Some (files w !! snd (destination bins n_bins train_frac)) ->
  train_test_configs bins n_bins train_frac w
  = (Ok (destination bins n_bins train_frac), w).
Proof.
  unfold train_test_configs, destination.
  destruct (f_ltb _ _); cbn [fst snd]; intros [a Ha] [b Hb];
    cbv beta iota delta [bind open_append ret];
    rewrite Ha; cbn [default]; rewrite (insert_id _ _ _ Ha);
    destruct w as [g gl fs m]; cbn [files with_files] in *;
    rewrite Hb; cbn [default]; rewrite (insert_id _ _ _ Hb); reflexivity.
Qed.

(** X16. [train_test_configs] hands back the train pair of files exactly
    when [bins < train_frac * n_bins] and the test pair otherwise; after it
    both files of that pair exist, every file has the content it had (a new
    file is empty), no other name is created, and nothing but the files
    changes.  A second call with the same arguments hands back the same pair
    and changes nothing at all. *)
Theorem train_test_configs_opens (bins n_bins : Z) (train_frac : float) (w : world) :
  exists w',
    train_test_configs bins n_bins train_frac w
    = (Ok (destination bins n_bins train_frac), w') /\
    same_but_files w w' /\
    is_Some (files w' !! fst (destination bins n_bins train_frac)) /\
    is_Some (files w' !! snd (destination bins n_bins train_frac)) /\
    (forall name, Ref.content (files w') name = Ref.content (files w) name) /\
    (forall name,
       name <> fst (destination bins n_bins train_frac) ->
       name <> snd (destination bins n_bins train_frac) ->
       files w' !! name = files w !! name) /\
    train_test_configs bins n_bins train_frac w'
    = (Ok (destination bins n_bins train_frac), w').
Proof.
  destruct (train_test_configs_run bins n_bins train_frac w)
    as (w' & Hrun & Hframe & Hx & Hy & Hcontent & Hother).
  exists w'. split; [exact Hrun|]. split; [exact Hframe|].
  split; [exact Hx|]. split; [exact Hy|]. split; [exact Hcontent|].
  split; [exact Hother|].
  now apply train_test_configs_reopen.
Qed.

Section Loop.
Variables (flip : Z) (file : string) (s : list Z).

(** The loop over the spins appends the encoded spins, in order. *)
Lemma write_loop (idxs : list Z) :
  forall w : world,
    spins (self w) = Some s ->
    (forall i, i ∈ idxs -> 0 <= i < Z.of_nat (length s)) ->
    exists w',
      for_each idxs (write_configs_step flip file) w = (Ok tt, w') /\
      same_but_files w w' /\
      Ref.content (files w') file
        = Ref.content (files w) file +:+ Ref.written_row flip (map (Spec.spin s) idxs) /\
      (forall name, name <> file -> files w' !! name = files w !! name).
Proof.
  induction idxs as [|i idxs IH]; intros w Hs Hidx; cbn [for_each map Ref.written_row foldr].
  - exists w. split; [reflexivity|]. split; [repeat split|].
    split; [now rewrite append_nil_r | reflexivity].
  - unfold write_configs_step at 1.
    rewrite (bind_ok _ _ _ _ _
               (bind_ok _ _ _ _ _ (spin_at_ok w s i Hs (Hidx i ltac:(constructor))))).
    cbv zeta. fold (Ref.encode flip (Spec.spin s i)).
    set (w1 := with_files _ w).
    destruct (IH w1 Hs) as (w' & Hrun & (Hg & Hgl & Hself) & Hcontent & Hother).
    { intros j Hj. apply Hidx. now constructor. }
    exists w'. split; [exact Hrun|]. split; [repeat split; assumption|]. split.
    + rewrite Hcontent. subst w1. cbn [files with_files].
      rewrite content_insert. fold (Ref.content (files w) file).
      now rewrite !append_assoc.
    + intros name Hne. rewrite (Hother name Hne). subst w1. cbn [files with_files].
      now rewrite lookup_insert_ne.
Qed.

End Loop.

(** X17. On an object holding a spin array [write_configs] completes.  It
    appends to the sample file of the destination one line, the spins times
    the drawn sign with [-1] written as [0], each followed by two blanks, and
    to the label file the line [1 ] when the temperature is above the
    critical one and [0 ] otherwise.  What the files held before is kept, no
    other file changes, the generator advances by the one draw of the sign,
    and the object is untouched.  On [+1] and [-1] spins every entry written
    is [1] or [0]. *)
Theorem write_configs_output (bins n_bins : Z) (train_frac temperature : float)
    (w : world) (s : list Z) :
  holds_spins (self w) s ->
  let d := destination bins n_bins train_frac in
  let flip := 2 * fst (rng_randint 0 1 (random_state w)) - 1 in
  exists w',
    write_configs bins n_bins train_frac temperature w = (Ok tt, w') /\
    Ref.content (files w') (fst d)
      = Ref.content (files w) (fst d) +:+ Ref.written_row flip s +:+ newline /\
    Ref.content (files w') (snd d)
      = Ref.content (files w) (snd d)
        +:+ (if f_ltb (crit_temperature (self w)) temperature then "1" else "0")
        +:+ " " +:+ newline /\
    (forall name, name <> fst d -> name <> snd d -> files w' !! name = files w !! name) /\
    random_state w' = snd (rng_randint 0 1 (random_state w)) /\
    globals w' = globals w /\ self w' = self w /\
    (randint_in_range -> Ref.spin_valued s ->
       Ref.written_row flip s
       = foldr (fun v rest => (if flip * v =? 1 then "1  " else "0  ") +:+ rest)
               EmptyString s).
Proof.
  intros (Hs & Hn) d flip.
  pose proof (fun Hrng : randint_in_range => Hrng 0 1 (random_state w) ltac:(lia)) as Hr.
  pose proof (destination_distinct bins n_bins train_frac) as Hdist. fold d in Hdist.
  destruct (train_test_configs_run bins n_bins train_frac w)
    as (w0 & Hopen & (Hg0 & Hgl0 & Hself0) & _ & _ & Hc0 & Hother0).
  fold d in Hopen, Hother0.
  unfold write_configs. rewrite (bind_ok _ _ _ _ _ Hopen).
  unfold bind at 1. unfold random_randint. change (1 <? 0) with false. cbv iota.
  rewrite Hg0. subst flip.
  destruct (rng_randint 0 1 (random_state w)) as [r g]. cbn [fst snd].
  set (w1 := with_random_state g w0).
  assert (Hn1 : n_spins (self w1) = Some (Z.of_nat (length s)))
    by (change (self w1) with (self w0); now rewrite Hself0).
  assert (Hs1 : spins (self w1) = Some s)
    by (change (self w1) with (self w0); now rewrite Hself0).
  rewrite (bind_ok _ _ _ _ _ (attr_ok _ _ _ _ Hn1)).
  destruct (write_loop (2 * r - 1) (fst d) s (range (Z.of_nat (length s))) w1 Hs1)
    as (w2 & Hloop & (Hg2 & Hgl2 & Hself2) & Hc2 & Hother2).
  { intros i Hi. now apply elem_of_range in Hi. }
  rewrite map_spin_range in Hc2.
  rewrite (bind_ok _ _ _ _ _ Hloop).
  unfold bind at 1, file_write at 1. cbv iota beta.
  rewrite (bind_ok _ _ _ _ _ (field_ok _ _)).
  unfold file_write. cbn [self with_files files fst snd].
  eexists. split; [reflexivity|]. cbn [files with_files random_state globals self].
  fold (Ref.content (files w2) (fst d)).
  match goal with
  | |- context [default EmptyString (<[fst d := ?t]> (files w2) !! snd d)] =>
      change (default EmptyString (<[fst d := t]> (files w2) !! snd d))
        with (Ref.content (<[fst d := t]> (files w2)) (snd d))
  end.
  rewrite (content_insert_ne _ (fst d) (snd d)) by exact Hdist.
  assert (Hy2 : Ref.content (files w2) (snd d) = Ref.content (files w) (snd d)).
  { unfold Ref.content at 1. rewrite (Hother2 (snd d)) by congruence.
    change (files w1) with (files w0). apply Hc0. }
  assert (Hx1 : Ref.content (files w1) (fst d) = Ref.content (files w) (fst d))
    by (change (files w1) with (files w0); apply Hc0).
  split; [|split; [|split; [|split; [|split; [|split]]]]].
  - rewrite content_insert_ne by congruence. rewrite content_insert.
    rewrite Hc2, Hx1. now rewrite append_assoc.
  - rewrite content_insert, Hy2. rewrite Hself2.
    change (self w1) with (self w0). rewrite Hself0.
    destruct (f_ltb _ _); reflexivity.
  - intros name Hx Hy. rewrite !lookup_insert_ne by congruence.
    rewrite (Hother2 name) by congruence. change (files w1) with (files w0).
    now apply Hother0.
  - rewrite Hg2. reflexivity.
  - rewrite Hgl2. exact Hgl0.
  - rewrite Hself2. exact Hself0.
  - intros Hrng Hval. specialize (Hr Hrng). cbn [fst] in Hr.
    assert (Hflip : 2 * r - 1 = 1 \/ 2 * r - 1 = -1) by lia.
    clear -Hflip Hval. unfold Ref.written_row.
    induction Hval as [|x l Hx Hl IH]; [reflexivity|].
    cbn [foldr]. rewrite IH, (encode_bit _ _ Hflip Hx).
    destruct (_ * x =? 1); reflexivity.
Qed.

(** X18. On an object whose spin array has not been created (a known
    variant on a lattice of size [L > 0]) [write_configs] raises
    [AttributeError] for [spins].  By then it has opened the two files of the
    destination, which therefore exist, and has drawn the sign; it has
    written nothing, so every file has the content it had, and the object is
    untouched. *)
Theorem write_configs_before_high_T_spins (bins n_bins : Z)
    (train_frac temperature : float) (L c : Z) (tag : string) (m : Ising2D) (w : world) :
  0 < L -> tag = "ising" \/ tag = "gauge" -> __init__ L c tag = Ok m ->
  same_lattice m (self w) -> spins (self w) = None ->
  exists w',
    write_configs bins n_bins train_frac temperature w
    = (Raise (AttributeError "spins"), w') /\
    is_Some (files w' !! fst (destination bins n_bins train_frac)) /\
    is_Some (files w' !! snd (destination bins n_bins train_frac)) /\
    (forall name, Ref.content (files w') name = Ref.content (files w) name) /\
    random_state w' = snd (rng_randint 0 1 (random_state w)) /\
    globals w' = globals w /\ self w' = self w.
Proof.
  intros HL Htag Hm (_ & _ & _ & Hns & _) Hs.
  apply init_inv in Hm. destruct Hm as (_ & _ & _ & Hns0 & _).
  rewrite Hns0 in Hns.
  assert (Hn_spins : exists n, n_spins (self w) = Some n /\ 0 < n).
  { destruct Htag as [-> | ->].
    - exists (L * L). rewrite Hns, n_spins_ising. split; [reflexivity | nia].
    - exists (2 * (L * L)). rewrite Hns, n_spins_gauge. split; [reflexivity | nia]. }
  destruct Hn_spins as (n & Hnsp & Hpos).
  destruct (train_test_configs_run bins n_bins train_frac w)
    as (w0 & Hopen & (Hg0 & Hgl0 & Hself0) & Hx0 & Hy0 & Hc0 & _).
  unfold write_configs. rewrite (bind_ok _ _ _ _ _ Hopen).
  unfold bind at 1. unfold random_randint. change (1 <? 0) with false. cbv iota.
  rewrite Hg0.
  destruct (rng_randint 0 1 (random_state w)) as [r g]. cbn [fst snd].
  set (w1 := with_random_state g w0).
  assert (Hn1 : n_spins (self w1) = Some n)
    by (change (self w1) with (self w0); now rewrite Hself0).
  assert (Hs1 : spins (self w1) = None)
    by (change (self w1) with (self w0); now rewrite Hself0).
  rewrite (bind_ok _ _ _ _ _ (attr_ok _ _ _ _ Hn1)).
  destruct (range_cons n Hpos) as [rest ->]. cbn [for_each].
  exists w1. split.
  - apply bind_raise. apply bind_raise. unfold write_configs_step.
    apply bind_raise. now apply spin_at_missing.
  - repeat split; try assumption.
Qed.

End Writing.

(** ** The properties above on concrete lattices *)

Lemma spin_valued_check (s : list Z) :
  forallb (fun x => (x =? 1) || (x =? -1)) s = true -> Ref.spin_valued s.
Proof.
  intros H. apply Forall_forall. intros x Hx.
  rewrite forallb_forall in H. apply list_elem_of_In in Hx. specialize (H x Hx). lia.
Qed.

Lemma get_magnetization_bounds_witness :
  Ref.spin_valued [1; -1; -1; -1] /\
  exists m, @__init__ Fixture.runtime 2 1 "ising" = Ok m /\
    magnetization
      (self (snd (get_magnetization (Fixture.fresh_world (with_spins [1; -1; -1; -1] m)))))
    = Some (-2).
Proof.
  split; [apply spin_valued_check; reflexivity|].
  eexists. split; [apply init_ok|].
  match goal with
  | |- magnetization (self (snd (get_magnetization ?w))) = _ =>
      pose proof (@get_magnetization_bounds Fixture.runtime w [1; -1; -1; -1]
                    eq_refl (spin_valued_check [1; -1; -1; -1] eq_refl))
        as (M & Hrun & HM & _)
  end.
  rewrite Hrun, HM. reflexivity.
Defined.

Lemma observables_before_high_T_spins_witness :
  0 < 2 /\
  exists m, @__init__ Fixture.runtime 2 1 "gauge" = Ok m /\
    fst (get_magnetization (Fixture.fresh_world m)) = Raise (AttributeError "spins") /\
    fst (get_energy (Fixture.fresh_world m)) = Raise (AttributeError "spins").
Proof.
  split; [lia|]. eexists. split; [apply init_ok|].
  match goal with
  | |- fst (get_magnetization (Fixture.fresh_world ?m)) = _ /\ _ =>
      pose proof (@observables_before_high_T_spins Fixture.runtime 2 1 "gauge" m
                    (Fixture.fresh_world m) ltac:(lia) (or_intror eq_refl)
                    (init_ok 2 1 "gauge") ltac:(repeat split) eq_refl)
        as (Hmag & Hen)
  end.
  rewrite Hmag, Hen. split; reflexivity.
Defined.

Lemma sweep_before_high_T_spins_witness :
  0 < 2 /\
  exists m, @__init__ Fixture.runtime 2 1 "ising" = Ok m /\
    fst (sweep (RT := Fixture.runtime) (1 # 1)%Q (Fixture.fresh_world m))
    = Raise (AttributeError "spins").
Proof.
  split; [lia|]. eexists. split; [apply init_ok|].
  match goal with
  | |- fst (sweep ?T (Fixture.fresh_world ?m)) = _ =>
      pose proof (@sweep_before_high_T_spins Fixture.runtime T 2 1 "ising" m
                    (Fixture.fresh_world m) lcg_randint_in_range ltac:(lia)
                    (or_introl eq_refl) (init_ok 2 1 "ising") ltac:(repeat split) eq_refl)
        as (n & _ & Hrun)
  end.
  rewrite Hrun. reflexivity.
Defined.

Lemma unknown_variant_witness :
  "potts" <> "ising" /\ "potts" <> "gauge" /\
  exists m, @__init__ Fixture.runtime 2 1 "potts" = Ok m /\
    fst (high_T_spins 0 (Fixture.fresh_world m)) = Raise (AttributeError "n_spins") /\
    fst (get_energy (Fixture.fresh_world (with_spins [1; 1; 1; 1] m))) = Ok tt.
Proof.
  split; [discriminate|]. split; [discriminate|].
  eexists. split; [apply init_ok|].
  match goal with
  | |- fst (high_T_spins ?seed (Fixture.fresh_world ?m)) = _ /\
       fst (get_energy ?w) = _ =>
      pose proof (@unknown_variant Fixture.runtime 2 1 "potts" m (Fixture.fresh_world m)
                    seed (1 # 1)%Q ltac:(discriminate) ltac:(discriminate)
                    (init_ok 2 1 "potts") ltac:(repeat split))
        as (_ & Hhigh & _ & _);
      pose proof (@unknown_variant Fixture.runtime 2 1 "potts" m w
                    seed (1 # 1)%Q ltac:(discriminate) ltac:(discriminate)
                    (init_ok 2 1 "potts") ltac:(repeat split))
        as (_ & _ & _ & Hen)
  end.
  rewrite Hhigh, Hen. split; reflexivity.
Defined.

Lemma nonpositive_size_witness :
  -2 < 0 /\
  exists m, @__init__ Fixture.runtime (-2) 1 "ising" = Ok m /\
    np_get2 (neighbours m) 0 1 = Ok (-2) /\ np_get2 (neighbours m) 0 2 = Ok (-3).
Proof.
  split; [lia|].
  destruct (proj2 (@nonpositive_size Fixture.runtime 1 "ising") (-2) ltac:(lia))
    as (m & Hm & _ & _ & Hdown & Hleft).
  exists m. split; [exact Hm|]. split; [exact Hdown | exact Hleft].
Defined.

Lemma high_T_spins_effect_witness :
  exists m, @__init__ Fixture.runtime 2 1 "ising" = Ok m /\
    fst (high_T_spins 7 (Fixture.fresh_world m)) = Ok tt /\
    exists s, spins (self (snd (high_T_spins 7 (Fixture.fresh_world m)))) = Some s /\
              length s = 4%nat.
Proof.
  eexists. split; [apply init_ok|].
  match goal with
  | |- fst (high_T_spins ?seed (Fixture.fresh_world ?m)) = _ /\ _ =>
      pose proof (@high_T_spins_effect Fixture.runtime 2 1 "ising" m seed
                    (Fixture.fresh_world m) (or_introl eq_refl) (init_ok 2 1 "ising")
                    ltac:(repeat split))
        as (n & w' & Hn & Hrun & Hs & _)
  end.
  rewrite Hrun. split; [reflexivity|]. cbn [snd]. eexists. split; [exact Hs|].
  cbn [n_spins] in Hn. rewrite n_spins_ising in Hn. injection Hn as Hn.
  replace n with 4%nat by lia. reflexivity.
Defined.

Lemma sweep_is_gauge_chain_witness :
  0 < 2 /\
  exists m, @__init__ Fixture.runtime 2 1 "gauge" = Ok m /\
    fst (sweep (RT := Fixture.runtime) (1 # 1)%Q
           (Fixture.fresh_world (with_spins [1; -1; 1; 1; -1; 1; 1; 1] m))) = Ok tt.
Proof.
  split; [lia|]. eexists. split; [apply init_ok|].
  match goal with
  | |- fst (sweep ?T (Fixture.fresh_world (with_spins ?s ?m))) = _ =>
      pose proof (@sweep_is_gauge_chain Fixture.runtime T 2 1 m
                    (Fixture.fresh_world (with_spins s m)) s
                    lcg_randint_in_range ltac:(lia) (init_ok 2 1 "gauge")
                    ltac:(repeat split) ltac:(split; reflexivity))
        as (w' & Hrun & _)
  end.
  rewrite Hrun. reflexivity.
Defined.

Lemma sweep_keeps_spin_values_witness :
  0 < 2 /\ Ref.spin_valued [1; -1; 1; 1; -1; 1; 1; 1] /\
  exists m, @__init__ Fixture.runtime 2 1 "gauge" = Ok m /\
    exists s',
      spins (self (snd (sweep (RT := Fixture.runtime) (1 # 1)%Q
                          (Fixture.fresh_world (with_spins [1; -1; 1; 1; -1; 1; 1; 1] m)))))
      = Some s' /\ Ref.spin_valued s' /\ length s' = 8%nat.
Proof.
  split; [lia|]. split; [apply spin_valued_check; reflexivity|].
  eexists. split; [apply init_ok|].
  match goal with
  | |- exists s', spins (self (snd (sweep ?T (Fixture.fresh_world (with_spins ?s ?m))))) = _ /\ _ =>
      pose proof (@sweep_keeps_spin_values Fixture.runtime T 2 1 m
                    (Fixture.fresh_world (with_spins s m)) s
                    lcg_randint_in_range ltac:(lia) (init_ok 2 1 "gauge")
                    ltac:(repeat split) ltac:(split; reflexivity)
                    (spin_valued_check s eq_refl))
        as (w' & s' & Hrun & (Hs' & _) & Hval & Hlen)
  end.
  exists s'. rewrite Hrun. split; [exact Hs'|]. split; [exact Hval | exact Hlen].
Defined.

Lemma seeded_sweep_reproducible_witness :
  0 < 2 /\
  exists m, @__init__ Fixture.runtime 2 1 "gauge" = Ok m /\
    let w1 := Fixture.fresh_world m in
    let w2 := mkWorld (RT := Fixture.runtime) 12345 ∅ ∅
                (with_spins [1; -1; 1; 1; -1; 1; 1; 1] m) in
    let run := bind (high_T_spins 7) (fun _ => sweep (RT := Fixture.runtime) (1 # 1)%Q) in
    spins (self (snd (run w1))) = spins (self (snd (run w2))) /\
    random_state (snd (run w1)) = random_state (snd (run w2)).
Proof.
  split; [lia|]. eexists. split; [apply init_ok|]. cbv zeta.
  match goal with
  | |- spins (self (snd (bind (high_T_spins ?seed) (fun _ => sweep ?T) ?w1)))
       = spins (self (snd (bind _ _ ?w2))) /\ _ =>
      pose proof (@seeded_sweep_reproducible Fixture.runtime T 2 1 _ seed w1 w2
                    lcg_randint_in_range ltac:(lia) (init_ok 2 1 "gauge")
                    ltac:(repeat split) ltac:(repeat split))
        as (w1' & w2' & s & Hrun1 & Hrun2 & Hs1 & Hs2 & Hg)
  end.
  rewrite Hrun1, Hrun2. cbn [snd]. split; [now rewrite Hs1, Hs2 | exact Hg].
Defined.

Lemma get_energy_gauge_sum_witness :
  0 < 2 /\
  exists m, @__init__ Fixture.runtime 2 1 "gauge" = Ok m /\
    energy_after (Fixture.fresh_world (with_spins [1; 1; 1; 1; 1; 1; 1; 1] m)) = Some (-4).
Proof.
  split; [lia|]. eexists. split; [apply init_ok|].
  match goal with
  | |- energy_after (Fixture.fresh_world (with_spins ?s ?m)) = _ =>
      pose proof (@get_energy_gauge_sum Fixture.runtime 2 1 m
                    (Fixture.fresh_world (with_spins s m)) s
                    ltac:(lia) (init_ok 2 1 "gauge")
                    ltac:(repeat split) ltac:(split; reflexivity))
        as (Hrun & _ & _ & _ & Hvalue)
  end.
  unfold energy_after. rewrite Hrun. cbn [snd self with_self energy with_energy].
  rewrite Hvalue by (left; repeat constructor). reflexivity.
Defined.

Lemma get_energy_ising_extremes_witness :
  0 < 3 /\ Ref.spin_valued [-1; -1; -1; -1; -1; -1; -1; -1; -1] /\
  exists m, @__init__ Fixture.runtime 3 2 "ising" = Ok m /\
    energy_after (Fixture.fresh_world (with_spins [-1; -1; -1; -1; -1; -1; -1; -1; -1] m))
    = Some (-36).
Proof.
  split; [lia|]. split; [apply spin_valued_check; reflexivity|].
  eexists. split; [apply init_ok|].
  match goal with
  | |- energy_after (Fixture.fresh_world (with_spins ?s ?m)) = _ =>
      pose proof (@get_energy_ising_extremes Fixture.runtime 3 2 m
                    (Fixture.fresh_world (with_spins s m)) s
                    ltac:(lia) (init_ok 3 2 "ising")
                    ltac:(repeat split) ltac:(split; reflexivity)
                    (spin_valued_check s eq_refl))
        as (e & Hrun & _ & Hvalue)
  end.
  unfold energy_after. rewrite Hrun. cbn [snd self with_self energy with_energy].
  rewrite Hvalue by (right; repeat constructor). reflexivity.
Defined.

Lemma global_sign_flip_witness :
  0 < 2 /\
  exists m, @__init__ Fixture.runtime 2 1 "gauge" = Ok m /\
    energy_after (Fixture.fresh_world (with_spins [1; -1; 1; 1; -1; 1; 1; 1] m))
    = energy_after
        (Fixture.fresh_world (with_spins (Ref.negate [1; -1; 1; 1; -1; 1; 1; 1]) m)).
Proof.
  split; [lia|]. eexists. split; [apply init_ok|].
  match goal with
  | |- energy_after (Fixture.fresh_world (with_spins ?s ?m)) = _ =>
      pose proof (@global_sign_flip Fixture.runtime 2 1 "gauge" m
                    (Fixture.fresh_world (with_spins s m)) s
                    ltac:(lia) (or_intror eq_refl) (init_ok 2 1 "gauge")
                    ltac:(repeat split) ltac:(split; reflexivity))
        as (e & M & He & He' & _)
  end.
  rewrite He. symmetry. exact He'.
Defined.

Lemma sweep_trial_energy_witness :
  2 <= 2 /\
  exists m, @__init__ Fixture.runtime 2 1 "gauge" = Ok m /\
    let w := Fixture.fresh_world (with_spins [1; -1; 1; 1; -1; 1; 1; 1] m) in
    fst (sweep_trial (RT := Fixture.runtime) (1 # 1)%Q w) = Ok tt /\
    exists e, energy_after w = Some e.
Proof.
  split; [lia|]. eexists. split; [apply init_ok|]. cbv zeta.
  match goal with
  | |- fst (sweep_trial ?T (Fixture.fresh_world (with_spins ?s ?m))) = _ /\ _ =>
      pose proof (@sweep_trial_energy Fixture.runtime T 2 1 m
                    (Fixture.fresh_world (with_spins s m)) s
                    lcg_randint_in_range ltac:(lia) (init_ok 2 1 "gauge")
                    ltac:(repeat split) ltac:(split; reflexivity))
        as (w' & e & e' & Hrun & He & _)
  end.
  rewrite Hrun. split; [reflexivity|]. exists e. exact He.
Defined.

Lemma flip_is_reversible_witness :
  2 <= 2 /\ 0 <= 3 < 2 * (2 * 2) /\
  exists m, @__init__ Fixture.runtime 2 1 "gauge" = Ok m /\
    let w := Fixture.fresh_world (with_spins [1; -1; 1; 1; -1; 1; 1; 1] m) in
    exists w1 w2,
      flip_spin 3 w = (Ok tt, w1) /\ flip_spin 3 w1 = (Ok tt, w2) /\
      spins (self w2) = Some [1; -1; 1; 1; -1; 1; 1; 1].
Proof.
  split; [lia|]. split; [lia|]. eexists. split; [apply init_ok|]. cbv zeta.
  match goal with
  | |- exists w1 w2, flip_spin ?k (Fixture.fresh_world (with_spins ?s ?m)) = _ /\ _ =>
      pose proof (@flip_is_reversible Fixture.runtime 2 1 m
                    (Fixture.fresh_world (with_spins s m)) s k
                    ltac:(lia) (init_ok 2 1 "gauge")
                    ltac:(repeat split) ltac:(split; reflexivity) ltac:(lia))
        as (dE & w1 & w2 & _ & H1 & _ & H2 & Hs)
  end.
  exists w1, w2. split; [exact H1|]. split; [exact H2 | exact Hs].
Defined.

Lemma gauge_deltaE_values_witness :
  0 < 2 /\ Ref.spin_valued [1; -1; 1; 1; -1; 1; 1; 1] /\ 0 <= 3 < 2 * (2 * 2) /\
  exists m, @__init__ Fixture.runtime 2 3 "gauge" = Ok m /\
    exists dE,
      fst (local_deltaE 3 (Fixture.fresh_world (with_spins [1; -1; 1; 1; -1; 1; 1; 1] m)))
      = Ok (Some dE) /\
      (dE = -12 \/ dE = 0 \/ dE = 12).
Proof.
  split; [lia|]. split; [apply spin_valued_check; reflexivity|]. split; [lia|].
  eexists. split; [apply init_ok|].
  match goal with
  | |- exists dE, fst (local_deltaE ?k (Fixture.fresh_world (with_spins ?s ?m))) = _ /\ _ =>
      pose proof (@gauge_deltaE_values Fixture.runtime 2 3 m
                    (Fixture.fresh_world (with_spins s m)) s k
                    ltac:(lia) (init_ok 2 3 "gauge")
                    ltac:(repeat split) ltac:(split; reflexivity)
                    (spin_valued_check s eq_refl) ltac:(lia))
        as (dE & Hrun & Hvalues)
  end.
  exists dE. rewrite Hrun. split; [reflexivity | exact Hvalues].
Defined.

Lemma train_test_configs_opens_witness :
  exists m, @__init__ Fixture.runtime 2 1 "ising" = Ok m /\
    let w := Fixture.fresh_world m in
    let w' := snd (train_test_configs (RT := Fixture.runtime) 7 10 (1 # 2)%Q w) in
    fst (train_test_configs (RT := Fixture.runtime) 7 10 (1 # 2)%Q w)
    = Ok ("Xtest.txt", "ytest.txt") /\
    is_Some (files w' !! "Xtest.txt") /\ is_Some (files w' !! "ytest.txt") /\
    files w' !! "Xtrain.txt" = None.
Proof.
  eexists. split; [apply init_ok|]. cbv zeta.
  match goal with
  | |- fst (train_test_configs ?b ?n ?f ?w) = _ /\ _ =>
      pose proof (@train_test_configs_opens Fixture.runtime b n f w)
        as (w' & Hrun & _ & Hx & Hy & _ & Hother & _)
  end.
  rewrite Hrun. split; [reflexivity|]. split; [exact Hx|]. split; [exact Hy|].
  cbn [snd]. rewrite (Hother "Xtrain.txt") by discriminate. reflexivity.
Defined.

Lemma write_configs_output_witness :
  exists m, @__init__ Fixture.runtime 2 1 "ising" = Ok m /\
    let w := Fixture.fresh_world (with_spins [1; -1; -1; -1] m) in
    let w' := snd (write_configs (RT := Fixture.runtime) 0 10 (1 # 2)%Q (1 # 1)%Q w) in
    fst (write_configs (RT := Fixture.runtime) 0 10 (1 # 2)%Q (1 # 1)%Q w) = Ok tt /\
    Ref.content (files w') "Xtrain.txt" = "0  1  1  1  " +:+ newline /\
    Ref.content (files w') "ytrain.txt" = "0 " +:+ newline.
Proof.
  eexists. split; [apply init_ok|]. cbv zeta.
  match goal with
  | |- fst (write_configs ?b ?n ?f ?T (Fixture.fresh_world (with_spins ?s ?m))) = _ /\ _ =>
      pose proof (@write_configs_output Fixture.runtime b n f T
                    (Fixture.fresh_world (with_spins s m)) s
                    ltac:(split; reflexivity))
        as (w' & Hrun & Hx & Hy & _)
  end.
  rewrite Hrun. split; [reflexivity|]. cbn [snd]. split.
  - etransitivity; [exact Hx|]. vm_compute. reflexivity.
  - etransitivity; [exact Hy|]. vm_compute. reflexivity.
Defined.

Lemma write_configs_before_high_T_spins_witness :
  0 < 2 /\
  exists m, @__init__ Fixture.runtime 2 1 "gauge" = Ok m /\
    let w' := snd (write_configs (RT := Fixture.runtime) 0 10 (1 # 2)%Q (1 # 1)%Q
                     (Fixture.fresh_world m)) in
    fst (write_configs (RT := Fixture.runtime) 0 10 (1 # 2)%Q (1 # 1)%Q
           (Fixture.fresh_world m))
    = Raise (AttributeError "spins") /\
    files w' !! "Xtrain.txt" = Some EmptyString /\
    files w' !! "ytrain.txt" = Some EmptyString.
Proof.
  split; [lia|]. eexists. split; [apply init_ok|]. cbv zeta.
  match goal with
  | |- fst (write_configs ?b ?n ?f ?T (Fixture.fresh_world ?m)) = _ /\ _ =>
      pose proof (@write_configs_before_high_T_spins Fixture.runtime b n f T 2 1 "gauge" m
                    (Fixture.fresh_world m) ltac:(lia) (or_intror eq_refl)
                    (init_ok 2 1 "gauge") ltac:(repeat split) eq_refl)
        as (w' & Hrun & (x & Hx) & (y & Hy) & Hcontent & _)
  end.
  rewrite Hrun. split; [reflexivity|]. cbn [snd].
  pose proof (Hcontent "Xtrain.txt") as Hcx. pose proof (Hcontent "ytrain.txt") as Hcy.
  unfold Ref.content in Hcx, Hcy.
  change (files w' !! "Xtrain.txt" = Some x) in Hx.
  change (files w' !! "ytrain.txt" = Some y) in Hy.
  rewrite Hx in Hcx |- *. rewrite Hy in Hcy |- *.
  vm_compute in Hcx. vm_compute in Hcy. rewrite Hcx, Hcy. split; reflexivity.
Defined.
